(** * Audit-AI backend: evidence-to-score-to-artifact pipeline

    A shallow embedding of the TypeScript sources

    - [config/evaluation-criteria.ts]  (criteria catalogs, selection),
    - [services/cache.service.ts]      (content-addressed result cache),
    - [services/evaluator.service.ts]  (evidence extraction, scoring request),
    - [services/excel.service.ts]      (report serializer, both layouts),

    together with the properties stated about them.  JavaScript strings are
    sequences of UTF-16 code units, numbers coming from the catalogs are
    integers, numbers coming from the remote scorer are rationals. *)

From Stdlib Require Import NArith ZArith QArith Ascii String List Lia Bool.
From stdpp Require Import base list gmap sorting.

Set Default Proof Using "Type".
Local Open Scope N_scope.

(* ===================================================================== *)
(** * JavaScript strings                                                  *)
(* ===================================================================== *)

(** A JavaScript string is a sequence of UTF-16 code units.  Every string
    handled below lies in the Basic Multilingual Plane, where code units and
    code points coincide. *)
Abbreviation jsstring := (list N).

Module JsString.

(** ** Literals: UTF-8 source text to code units *)

Definition cont (b : N) : N := N.land b 0x3F.

Fixpoint utf8_decode (bs : list N) : jsstring :=
  match bs with
  | [] => []
  | b :: r =>
      if b <? 0x80 then b :: utf8_decode r
      else if b <? 0xE0 then
        match r with
        | b2 :: r' => (N.shiftl (N.land b 0x1F) 6 + cont b2) :: utf8_decode r'
        | [] => [b]
        end
      else if b <? 0xF0 then
        match r with
        | b2 :: b3 :: r' =>
            (N.shiftl (N.land b 0x0F) 12 + N.shiftl (cont b2) 6 + cont b3)
              :: utf8_decode r'
        | _ => [b]
        end
      else
        match r with
        | b2 :: b3 :: b4 :: r' =>
            let cp := N.shiftl (N.land b 0x07) 18 + N.shiftl (cont b2) 12
                      + N.shiftl (cont b3) 6 + cont b4 in
            let v := cp - 0x10000 in
            (0xD800 + N.shiftr v 10) :: (0xDC00 + N.land v 0x3FF)
              :: utf8_decode r'
        | _ => [b]
        end
  end.

Definition u8 (s : string) : jsstring :=
  utf8_decode (map N_of_ascii (list_ascii_of_string s)).

(** ** Character classes of ECMAScript *)

(** LineTerminator: LF, CR, LS, PS.  The regular-expression atom [.] matches
    every code unit but these. *)
Definition isLineTerminator (c : N) : bool :=
  (c =? 0x0A) || (c =? 0x0D) || (c =? 0x2028) || (c =? 0x2029).

(** WhiteSpace: TAB, VT, FF, SP, NBSP, ZWNBSP and the Unicode class Zs. *)
Definition isWhiteSpace (c : N) : bool :=
  (c =? 0x09) || (c =? 0x0B) || (c =? 0x0C) || (c =? 0x20) || (c =? 0xA0)
  || (c =? 0x1680) || ((0x2000 <=? c) && (c <=? 0x200A))
  || (c =? 0x202F) || (c =? 0x205F) || (c =? 0x3000) || (c =? 0xFEFF).

(** What [String.prototype.trim] removes and what [\s] matches. *)
Definition isSpace (c : N) : bool := isWhiteSpace c || isLineTerminator c.

(** ** [trim], [includes], [+] *)

Fixpoint trimStart (s : jsstring) : jsstring :=
  match s with
  | c :: r => if isSpace c then trimStart r else s
  | [] => []
  end.

Definition trimEnd (s : jsstring) : jsstring := rev (trimStart (rev s)).

Definition trim (s : jsstring) : jsstring := trimEnd (trimStart s).

Fixpoint startsWith (p s : jsstring) : bool :=
  match p, s with
  | [], _ => true
  | _ :: _, [] => false
  | a :: p', b :: s' => (a =? b) && startsWith p' s'
  end.

(** [s.includes(p)]: [p] occurs in [s] as a contiguous substring. *)
Fixpoint includes (s p : jsstring) : bool :=
  startsWith p s ||
  match s with
  | [] => false
  | _ :: s' => includes s' p
  end.

Definition eqb (a b : jsstring) : bool := bool_decide (a = b).

(** Decimal rendering of an integer, as the template literal [`${n}`] and
    string concatenation render an integral Number. *)
Fixpoint digits (fuel : nat) (n : N) (acc : jsstring) : jsstring :=
  match fuel with
  | O => acc
  | S f =>
      let acc' := (0x30 + n mod 10) :: acc in
      if n <? 10 then acc' else digits f (n / 10) acc'
  end.

Definition ofZ (z : Z) : jsstring :=
  let n := Z.abs_N z in
  let d := digits (S (N.to_nat (N.log2 n))) n [] in
  if (z <? 0)%Z then 0x2D :: d else d.

(** ** Case mapping and canonical decomposition

    [toLowerCase], [toUpperCase] and [normalize('NFD')] are built-ins driven
    by the Unicode Character Database.  The tables below transcribe the
    database for the code units of the _modelled fragment_: Basic Latin and
    Latin-1 (U+0000..U+00FF), the combining diacritical marks
    (U+0300..U+036F), the white-space code units, and the Hebrew accents and
    points (U+0591..U+05C7).  Outside the fragment the tables are the
    identity, which is not what the built-ins do (U+0131 upper-cases to I,
    U+212A lower-cases to k), so statements that depend on the value of a
    case mapping are made for strings of the fragment, or about the code
    with the built-in as a parameter. *)

Definition inFragment (c : N) : bool :=
  (c <? 0x100) || ((0x300 <=? c) && (c <=? 0x36F)) || isSpace c
  || ((0x591 <=? c) && (c <=? 0x5C7)).

Definition lower_cp (c : N) : N :=
  if ((0x41 <=? c) && (c <=? 0x5A))
     || ((0xC0 <=? c) && (c <=? 0xDE) && negb (c =? 0xD7))
  then c + 0x20 else c.

Definition toLowerCase (s : jsstring) : jsstring := map lower_cp s.

Definition upper_cp (c : N) : jsstring :=
  if ((0x61 <=? c) && (c <=? 0x7A))
     || ((0xE0 <=? c) && (c <=? 0xFE) && negb (c =? 0xF7))
  then [c - 0x20]
  else if c =? 0xB5 then [0x39C]
  else if c =? 0xDF then [0x53; 0x53]
  else if c =? 0xFF then [0x178]
  else if c =? 0x345 then [0x399]
  else [c].

Definition toUpperCase (s : jsstring) : jsstring := flat_map upper_cp s.

(** Full canonical decomposition of one code unit. *)
Definition decomp (c : N) : jsstring :=
  match c with
  | 0x00C0 => [0x0041; 0x0300]
  | 0x00C1 => [0x0041; 0x0301]
  | 0x00C2 => [0x0041; 0x0302]
  | 0x00C3 => [0x0041; 0x0303]
  | 0x00C4 => [0x0041; 0x0308]
  | 0x00C5 => [0x0041; 0x030A]
  | 0x00C7 => [0x0043; 0x0327]
  | 0x00C8 => [0x0045; 0x0300]
  | 0x00C9 => [0x0045; 0x0301]
  | 0x00CA => [0x0045; 0x0302]
  | 0x00CB => [0x0045; 0x0308]
  | 0x00CC => [0x0049; 0x0300]
  | 0x00CD => [0x0049; 0x0301]
  | 0x00CE => [0x0049; 0x0302]
  | 0x00CF => [0x0049; 0x0308]
  | 0x00D1 => [0x004E; 0x0303]
  | 0x00D2 => [0x004F; 0x0300]
  | 0x00D3 => [0x004F; 0x0301]
  | 0x00D4 => [0x004F; 0x0302]
  | 0x00D5 => [0x004F; 0x0303]
  | 0x00D6 => [0x004F; 0x0308]
  | 0x00D9 => [0x0055; 0x0300]
  | 0x00DA => [0x0055; 0x0301]
  | 0x00DB => [0x0055; 0x0302]
  | 0x00DC => [0x0055; 0x0308]
  | 0x00DD => [0x0059; 0x0301]
  | 0x00E0 => [0x0061; 0x0300]
  | 0x00E1 => [0x0061; 0x0301]
  | 0x00E2 => [0x0061; 0x0302]
  | 0x00E3 => [0x0061; 0x0303]
  | 0x00E4 => [0x0061; 0x0308]
  | 0x00E5 => [0x0061; 0x030A]
  | 0x00E7 => [0x0063; 0x0327]
  | 0x00E8 => [0x0065; 0x0300]
  | 0x00E9 => [0x0065; 0x0301]
  | 0x00EA => [0x0065; 0x0302]
  | 0x00EB => [0x0065; 0x0308]
  | 0x00EC => [0x0069; 0x0300]
  | 0x00ED => [0x0069; 0x0301]
  | 0x00EE => [0x0069; 0x0302]
  | 0x00EF => [0x0069; 0x0308]
  | 0x00F1 => [0x006E; 0x0303]
  | 0x00F2 => [0x006F; 0x0300]
  | 0x00F3 => [0x006F; 0x0301]
  | 0x00F4 => [0x006F; 0x0302]
  | 0x00F5 => [0x006F; 0x0303]
  | 0x00F6 => [0x006F; 0x0308]
  | 0x00F9 => [0x0075; 0x0300]
  | 0x00FA => [0x0075; 0x0301]
  | 0x00FB => [0x0075; 0x0302]
  | 0x00FC => [0x0075; 0x0308]
  | 0x00FD => [0x0079; 0x0301]
  | 0x00FF => [0x0079; 0x0308]
  | 0x0340 => [0x0300]
  | 0x0341 => [0x0301]
  | 0x0343 => [0x0313]
  | 0x0344 => [0x0308; 0x0301]
  | 0x2000 => [0x2002]
  | 0x2001 => [0x2003]
  | _ => [c]
  end.

Definition within (lo hi c : N) : bool := (lo <=? c) && (c <=? hi).

(** Canonical combining class; 0 marks a starter.  U+034F (combining
    grapheme joiner) lies inside the diacritical-marks block and is a
    starter. *)
Definition ccc (c : N) : N :=
  if within 0x300 0x314 c then 230 else if c =? 0x315 then 232
  else if within 0x316 0x319 c then 220 else if c =? 0x31A then 232
  else if c =? 0x31B then 216 else if within 0x31C 0x320 c then 220
  else if within 0x321 0x322 c then 202 else if within 0x323 0x326 c then 220
  else if within 0x327 0x328 c then 202 else if within 0x329 0x333 c then 220
  else if within 0x334 0x338 c then 1 else if within 0x339 0x33C c then 220
  else if within 0x33D 0x344 c then 230 else if c =? 0x345 then 240
  else if c =? 0x346 then 230 else if within 0x347 0x349 c then 220
  else if within 0x34A 0x34C c then 230 else if within 0x34D 0x34E c then 220
  else if c =? 0x34F then 0
  else if within 0x350 0x352 c then 230 else if within 0x353 0x356 c then 220
  else if c =? 0x357 then 230 else if c =? 0x358 then 232
  else if within 0x359 0x35A c then 220 else if c =? 0x35B then 230
  else if c =? 0x35C then 233 else if within 0x35D 0x35E c then 234
  else if c =? 0x35F then 233 else if within 0x360 0x361 c then 234
  else if c =? 0x362 then 233 else if within 0x363 0x36F c then 230
  else if c =? 0x591 then 220 else if within 0x592 0x595 c then 230
  else if c =? 0x596 then 220 else if within 0x597 0x599 c then 230
  else if c =? 0x59A then 222 else if c =? 0x59B then 220
  else if within 0x59C 0x5A1 c then 230 else if within 0x5A2 0x5A7 c then 220
  else if within 0x5A8 0x5A9 c then 230 else if c =? 0x5AA then 220
  else if within 0x5AB 0x5AC c then 230 else if c =? 0x5AD then 222
  else if c =? 0x5AE then 228 else if c =? 0x5AF then 230
  else if within 0x5B0 0x5B8 c then c - 0x5B0 + 10
  else if within 0x5B9 0x5BA c then 19
  else if within 0x5BB 0x5BD c then c - 0x5BB + 20
  else if c =? 0x5BF then 23 else if c =? 0x5C1 then 24
  else if c =? 0x5C2 then 25 else if c =? 0x5C4 then 230
  else if c =? 0x5C5 then 220 else if c =? 0x5C7 then 18
  else 0.

(** Canonical ordering: a non-starter moves left past every neighbour of a
    strictly greater class; starters never move and nothing crosses them.
    [out] is the already ordered prefix, last code unit first. *)
Fixpoint place (c : N) (out : jsstring) : jsstring :=
  match out with
  | d :: r => if (0 <? ccc c) && (ccc c <? ccc d) then d :: place c r
              else c :: out
  | [] => [c]
  end.

Definition canonicalOrder (s : jsstring) : jsstring :=
  rev (fold_left (fun out c => place c out) s []).

Definition nfd (s : jsstring) : jsstring := canonicalOrder (flat_map decomp s).

End JsString.

Import JsString.

(* ===================================================================== *)
(** * Criteria catalog  (config/evaluation-criteria.ts)                   *)
(* ===================================================================== *)

(** [criticality: 'Crítico' | '-'] *)
Inductive Criticality := Critico | NoCritico.

(** [points: number | 'n/a'].  Every numeric value in the catalogs is an
    integer. *)
Inductive Points := Pts (p : Z) | NA.

(** [EvaluationTopic].  The optional [whatToLookFor] guidance text, which is
    only pasted into the scoring prompt, is not carried. *)
Record EvaluationTopic := mkTopic {
  topic : jsstring;
  criticality : Criticality;
  points : Points;
  applies : bool
}.

Record EvaluationBlock := mkBlock {
  blockName : jsstring;
  topics : list EvaluationTopic
}.

#[global] Instance Criticality_eq_dec : EqDecision Criticality.
Proof. solve_decision. Defined.
#[global] Instance Points_eq_dec : EqDecision Points.
Proof. solve_decision. Defined.
#[global] Instance EvaluationTopic_eq_dec : EqDecision EvaluationTopic.
Proof. solve_decision. Defined.
#[global] Instance EvaluationBlock_eq_dec : EqDecision EvaluationBlock.
Proof. solve_decision. Defined.

Definition FRAUD_CRITERIA : list EvaluationBlock :=
  [ mkBlock (u8 "Falcon")
      [ mkTopic (u8 "Cierre correcto del caso")
        Critico (Pts 5) true;
        mkTopic (u8 "Creación y llenado correcto del caso: (creación correcto del caso, selección de casillas, calificación de transacciones, comentarios correctos)")
        NoCritico (Pts 10) true;
        mkTopic (u8 "Ingresa a HOTLIST_APROBAR / Ingresa a HOTLIST_Rechazar")
        NoCritico NA false;
        mkTopic (u8 "Ingresa a HOTLIST_APROBAR")
        NoCritico NA false;
        mkTopic (u8 "Ingresa a HOTLIST_Rechazar")
        NoCritico NA false;
        mkTopic (u8 "Ingreso a HOTLIST_AVISO DE VIAJE")
        NoCritico NA false;
        mkTopic (u8 "Califica correctamente la llamada")
        NoCritico NA false ];
    mkBlock (u8 "Front")
      [ mkTopic (u8 "Codificación correcta del caso")
        Critico (Pts 5) true;
        mkTopic (u8 "Llenado correcto del front (caso correcto, comentarios acorde a la gestión)")
        NoCritico NA false;
        mkTopic (u8 "Llenado correcto del front (caso correcto, comentarios acorde a la gestión, tienen afectación/ sin afectación)")
        NoCritico (Pts 5) true;
        mkTopic (u8 "Sube capturas completas")
        NoCritico NA false;
        mkTopic (u8 "Colocar capturas completas y correctas")
        NoCritico (Pts 5) true;
        mkTopic (u8 "Subir Excel")
        NoCritico (Pts 5) true;
        mkTopic (u8 "Califica correctamente la llamada")
        NoCritico NA false ];
    mkBlock (u8 "Vcas")
      [ mkTopic (u8 "Calificación de transacciones")
        NoCritico NA false;
        mkTopic (u8 "Aplica Bypass")
        NoCritico NA false;
        mkTopic (u8 "Bloquea tarjeta")
        Critico (Pts 5) true;
        mkTopic (u8 "Califica transacciones")
        NoCritico (Pts 5) true;
        mkTopic (u8 "Calificación de transacciones")
        NoCritico NA false;
        mkTopic (u8 "Valida compras por facturar y cortes para identificar la compra para aclaración." ++ 0x0A :: u8 "Valida que las compras no tengan una reversa")
        NoCritico NA false ];
    mkBlock (u8 "Vision")
      [ mkTopic (u8 "Valida pantalla OFAA y CRESP (CVV2 incorrecto, Tarjeta vencida, Fecha de vencimiento incorrecta, TJ Cancelada, etc)")
        NoCritico NA false;
        mkTopic (u8 "Comentarios correctos en ASHI")
        NoCritico (Pts 5) true;
        mkTopic (u8 "Desbloquea tarjeta BLKI, BLKT, BPT0, BNFC")
        NoCritico NA false;
        mkTopic (u8 "Bloqueo correcto")
        Critico (Pts 7) true ];
    mkBlock (u8 "VRM")
      [ mkTopic (u8 "Valida compras en ARTD y ARSD")
        NoCritico (Pts 5) true;
        mkTopic (u8 "Calificación de transacciones, comentarios y aplica mantenimiento")
        Critico (Pts 10) true ];
    mkBlock (u8 "B.I")
      [ mkTopic (u8 "Crea el Folio Correctamente")
        NoCritico (Pts 10) true ];
    mkBlock (u8 "Manejo de llamada")
      [ mkTopic (u8 "Cumple con el script")
        NoCritico (Pts 17) true;
        mkTopic (u8 "Educación, frases de conexión, comunicación efectiva y escucha activa")
        NoCritico (Pts 5) true;
        mkTopic (u8 "Control de llamada y Puntualidad")
        NoCritico (Pts 6) true;
        mkTopic (u8 "Autentica correctamente")
        NoCritico (Pts 11) true ] ].

Definition TH_CONFIRMA_CRITERIA : list EvaluationBlock :=
  [ mkBlock (u8 "Falcon")
      [ mkTopic (u8 "Cierre correcto del caso")
        Critico (Pts 5) true;
        mkTopic (u8 "Creación y llenado correcto del caso: (creación correcto del caso, selección de casillas, calificación de transacciones, comentarios correctos)")
        NoCritico (Pts 10) true;
        mkTopic (u8 "Ingresa a HOTLIST_APROBAR / Ingresa a HOTLIST_Rechazar")
        NoCritico NA false;
        mkTopic (u8 "Ingresa a HOTLIST_APROBAR")
        NoCritico (Pts 12) true;
        mkTopic (u8 "Ingresa a HOTLIST_Rechazar")
        NoCritico NA false;
        mkTopic (u8 "Ingreso a HOTLIST_AVISO DE VIAJE")
        NoCritico NA false;
        mkTopic (u8 "Califica correctamente la llamada")
        NoCritico NA false ];
    mkBlock (u8 "Front")
      [ mkTopic (u8 "Codificación correcta del caso")
        Critico (Pts 5) true;
        mkTopic (u8 "Llenado correcto del front (caso correcto, comentarios acorde a la gestión)")
        NoCritico (Pts 5) true;
        mkTopic (u8 "Llenado correcto del front (caso correcto, comentarios acorde a la gestión, tienen afectación/ sin afectación)")
        NoCritico NA false;
        mkTopic (u8 "Sube capturas completas")
        NoCritico NA false;
        mkTopic (u8 "Colocar capturas completas y correctas")
        NoCritico (Pts 5) true;
        mkTopic (u8 "Subir Excel")
        NoCritico (Pts 5) true;
        mkTopic (u8 "Califica correctamente la llamada")
        NoCritico (Pts 5) true ];
    mkBlock (u8 "Vcas")
      [ mkTopic (u8 "Calificación de transacciones")
        NoCritico (Pts 10) true;
        mkTopic (u8 "Aplica Bypass")
        NoCritico NA false;
        mkTopic (u8 "Bloquea tarjeta")
        Critico (Pts 5) true;
        mkTopic (u8 "Califica transacciones")
        NoCritico NA false;
        mkTopic (u8 "Calificación de transacciones")
        NoCritico NA false;
        mkTopic (u8 "Valida compras por facturar y cortes para identificar la compra para aclaración." ++ 0x0A :: u8 "Valida que las compras no tengan una reversa")
        NoCritico NA false ];
    mkBlock (u8 "Vision")
      [ mkTopic (u8 "Valida pantalla OFAA y CRESP (CVV2 incorrecto, Tarjeta vencida, Fecha de vencimiento incorrecta, TJ Cancelada, etc)")
        NoCritico NA false;
        mkTopic (u8 "Comentarios correctos en ASHI")
        NoCritico (Pts 5) true;
        mkTopic (u8 "Desbloquea tarjeta BLKI, BLKT, BPT0, BNFC")
        NoCritico (Pts 5) true;
        mkTopic (u8 "Bloqueo correcto")
        Critico NA false ];
    mkBlock (u8 "VRM")
      [ mkTopic (u8 "Valida compras en ARTD y ARSD")
        NoCritico NA false;
        mkTopic (u8 "Calificación de transacciones, comentarios y aplica mantenimiento")
        Critico (Pts 10) true ];
    mkBlock (u8 "B.I")
      [ mkTopic (u8 "Crea el Folio Correctamente")
        NoCritico NA false ];
    mkBlock (u8 "Manejo de llamada")
      [ mkTopic (u8 "Cumple con el script")
        NoCritico (Pts 17) true;
        mkTopic (u8 "Educación, frases de conexión, comunicación efectiva y escucha activa")
        NoCritico (Pts 5) true;
        mkTopic (u8 "Control de llamada y Puntualidad")
        NoCritico (Pts 6) true;
        mkTopic (u8 "Autentica correctamente")
        NoCritico (Pts 11) true ] ].

Definition MONITOREO_CRITERIA : list EvaluationBlock :=
  [ mkBlock (u8 "Falcon")
      [ mkTopic (u8 "Califica transacciones, Cierre de caso, Selecciona casillas de acción")
        NoCritico (Pts 20) true ];
    mkBlock (u8 "VRM")
      [ mkTopic (u8 "Califica transacciones/Mantenimiento/Comentario")
        NoCritico (Pts 8) true ];
    mkBlock (u8 "Front")
      [ mkTopic (u8 "Ingresa correctamente los datos del front: Calificación, Subcalificación de llamada, Socio, Correo del cliente, Número de caso, 4 dígitos de la tarjeta, Capturas, Comentario, Subir Excel")
        NoCritico (Pts 15) true ];
    mkBlock (u8 "Vcas")
      [ mkTopic (u8 "Califica transacciones / Bloqueo")
        NoCritico (Pts 7) true ];
    mkBlock (u8 "Vision+")
      [ mkTopic (u8 "Comentario en ASHI")
        NoCritico (Pts 3) true;
        mkTopic (u8 "Bloqueo correcto de la tarjeta")
        NoCritico (Pts 7) true ];
    mkBlock (u8 "BI")
      [ mkTopic (u8 "Levantamiento correcto de ticket")
        NoCritico (Pts 10) true ];
    mkBlock (u8 "Manejo de llamada")
      [ mkTopic (u8 "Cumple con el script de llamada")
        NoCritico (Pts 5) true;
        mkTopic (u8 "Control de llamada, empatía y frases de conexión")
        NoCritico (Pts 10) true;
        mkTopic (u8 "Cordialidad/Comunicación efectiva")
        NoCritico (Pts 5) true;
        mkTopic (u8 "Escucha activa")
        NoCritico (Pts 10) true;
        mkTopic (u8 "Solución al contacto")
        NoCritico (Pts 5) true ];
    mkBlock (u8 "Casos críticos")
      [ mkTopic (u8 "Calificación de caso (cierre de caso en falcon)")
        Critico NA true;
        mkTopic (u8 "Califica tipo de llamada correctamente (calificación a nivel front)")
        Critico NA true;
        mkTopic (u8 "Bloquea tarjeta en V+ correctamente")
        Critico NA true ] ].

(** [getCriteriaForCallType] with the built-in [String.prototype.toUpperCase]
    as a parameter: the selection as the code performs it, whatever the
    built-in returns for the input.  [trim] and [includes] are modelled for
    every string. *)
Definition getCriteriaForCallTypeWith (toUpperCase : jsstring -> jsstring)
    (callType : jsstring) : list EvaluationBlock :=
  let normalizedType := trim (toUpperCase callType) in
  if includes normalizedType (u8 "MONITOREO") then MONITOREO_CRITERIA
  else if includes normalizedType (u8 "FRAUDE") then FRAUD_CRITERIA
  else if includes normalizedType (u8 "TH CONFIRMA")
          || includes normalizedType (u8 "TH_CONFIRMA")
  then TH_CONFIRMA_CRITERIA
  else (* Default: INBOUND usa FRAUD_CRITERIA *) FRAUD_CRITERIA.

(** The same function on the upper-casing table of [JsString]: it is the
    code's function for call types of the modelled fragment. *)
Definition getCriteriaForCallType (callType : jsstring) : list EvaluationBlock :=
  let normalizedType := trim (toUpperCase callType) in
  if includes normalizedType (u8 "MONITOREO") then MONITOREO_CRITERIA
  else if includes normalizedType (u8 "FRAUDE") then FRAUD_CRITERIA
  else if includes normalizedType (u8 "TH CONFIRMA")
          || includes normalizedType (u8 "TH_CONFIRMA")
  then TH_CONFIRMA_CRITERIA
  else (* Default: INBOUND usa FRAUD_CRITERIA *) FRAUD_CRITERIA.


(* ===================================================================== *)
(** * Shared types  (types/index.ts)                                      *)
(* ===================================================================== *)

Record AuditInput := mkAuditInput {
  executiveName : jsstring;
  executiveId : jsstring;
  callType : jsstring;
  clientId : jsstring;
  callDate : jsstring;
  audioPath : option jsstring;
  imagePaths : option (list jsstring)
}.

(** One utterance of the transcript; [start] and [end] are the integral
    millisecond offsets reported by the transcription service. *)
Record Utterance := mkUtterance {
  utt_start : Z;
  utt_end : Z;
  utt_text : jsstring;
  utt_speaker : jsstring
}.

Record TranscriptResult := mkTranscript {
  transcript_text : jsstring;
  utterances : list Utterance
}.

#[global] Instance Utterance_eq_dec : EqDecision Utterance.
Proof. solve_decision. Defined.

(** An element of [EvaluationResult.detailedScores]. *)
Record DetailedScore := mkDetailedScore {
  criterion : jsstring;
  score : Q;
  maxScore : Q;
  observations : jsstring
}.

Record KeyMoment := mkKeyMoment {
  km_timestamp : jsstring;
  km_type : jsstring;
  km_description : jsstring
}.

Record Usage := mkUsage {
  inputTokens : Z;
  outputTokens : Z;
  totalTokens : Z
}.

(** [Omit<EvaluationResult, 'excelUrl'> & { usage }] *)
Record EvaluationResult := mkEvaluationResult {
  totalScore : Q;
  maxPossibleScore : Q;
  percentage : Q;
  detailedScores : list DetailedScore;
  res_observations : jsstring;
  recommendations : list jsstring;
  keyMoments : list KeyMoment;
  usage : option Usage
}.

(* ===================================================================== *)
(** * Result cache  (services/cache.service.ts)                           *)
(* ===================================================================== *)

Module CacheService.

(** File contents are byte sequences (values below 256). *)
Abbreviation bytes := (list N).

Record CacheEntry := mkCacheEntry {
  cacheKey : jsstring;
  timestamp : Z;
  result : EvaluationResult;
  excelFilename : jsstring;
  audioHash : jsstring;
  imageHashes : list jsstring;
  ce_executiveId : jsstring;
  ce_callType : jsstring
}.

(** What the service observes of its environment during one call: file
    contents ([fs.readFileSync], [None] when the read throws), file existence
    ([fs.existsSync]), the process environment and the clock ([Date.now()]). *)
Record World := mkWorld {
  readFileSync : jsstring -> option bytes;
  existsSync : jsstring -> bool;
  env : jsstring -> option jsstring;
  now : Z
}.

(** The service's own state: the in-memory index and the copy of it last
    written to [index.json] by [saveCacheIndex]. *)
Record State := mkState {
  cacheIndex : gmap jsstring CacheEntry;
  savedIndex : gmap jsstring CacheEntry
}.

(** Order of [Array.prototype.sort()] without comparator: strings compared
    code unit by code unit. *)
Fixpoint strLe (a b : jsstring) : bool :=
  match a, b with
  | [], _ => true
  | _ :: _, [] => false
  | x :: a', y :: b' => (x <? y) || ((x =? y) && strLe a' b')
  end.

Definition strOrder : relation jsstring := fun a b => Is_true (strLe a b).

Definition sort (l : list jsstring) : list jsstring := merge_sort strOrder l.

(** [expr || dflt] on an optional string: the default is taken when the
    variable is unset or empty. *)
Definition orDefault (v : option jsstring) (dflt : jsstring) : jsstring :=
  match v with
  | Some (c :: s) => c :: s
  | _ => dflt
  end.

(** [parseInt(s)] without radix; [None] stands for [NaN]. *)
Definition digitVal (radix c : N) : option N :=
  let v := if (0x30 <=? c) && (c <=? 0x39) then Some (c - 0x30)
           else if (0x61 <=? c) && (c <=? 0x7A) then Some (c - 0x61 + 10)
           else if (0x41 <=? c) && (c <=? 0x5A) then Some (c - 0x41 + 10)
           else None in
  match v with
  | Some d => if d <? radix then Some d else None
  | None => None
  end.

Fixpoint parseDigits (radix : N) (s : jsstring) (acc : option N) : option N :=
  match s with
  | c :: r =>
      match digitVal radix c with
      | Some d => parseDigits radix r (Some (default 0 acc * radix + d))
      | None => acc
      end
  | [] => acc
  end.

Definition parseInt (s : jsstring) : option Z :=
  let s1 := trimStart s in
  let '(neg, s2) :=
    match s1 with
    | 0x2D :: r => (true, r)
    | 0x2B :: r => (false, r)
    | _ => (false, s1)
    end in
  let '(radix, s3) :=
    match s2 with
    | 0x30 :: 0x78 :: r => (16, r)
    | 0x30 :: 0x58 :: r => (16, r)
    | _ => (10, s2)
    end in
  match parseDigits radix s3 None with
  | Some n => Some (if neg : bool then (- Z.of_N n)%Z else Z.of_N n)
  | None => None
  end.

Section Host.

(** [crypto.createHash('sha256') ... digest('hex')]: the hexadecimal SHA-256
    digest of a byte sequence. *)
Variable sha256 : bytes -> jsstring.

(** [path.join] *)
Variable path_join : jsstring -> jsstring -> jsstring.

Definition calculateFileHash (w : World) (filePath : jsstring) : option jsstring :=
  sha256 <$> readFileSync w filePath.

(** The key of given contents.  The digests fed to [combinedHash.update] are
    hexadecimal text, whose UTF-8 bytes are its code units; successive
    [update] calls hash the concatenation. *)
Definition combine (audioHash : jsstring) (imageHashes : list jsstring) : jsstring :=
  sha256 (audioHash ++ concat imageHashes).

Definition generateCacheKey (w : World) (audioPath : jsstring)
    (imagePaths : list jsstring) : option jsstring :=
  audioHash ← calculateFileHash w audioPath;
  hashes ← mapM (calculateFileHash w) imagePaths;
  let imageHashes := sort hashes in
  Some (combine audioHash imageHashes).

(** [saveCacheIndex] when [writeFileSync] succeeds.  The code logs and
    swallows a write error and leaves the file as it was; that case is not
    modelled. *)
Definition saveCacheIndex (st : State) : State :=
  {| cacheIndex := cacheIndex st; savedIndex := cacheIndex st |}.

Definition evict (key : jsstring) (st : State) : State :=
  saveCacheIndex {| cacheIndex := delete key (cacheIndex st);
                    savedIndex := savedIndex st |}.

Definition maxAgeHours (w : World) : option Z :=
  parseInt (orDefault (env w (u8 "CACHE_MAX_AGE_HOURS")) (u8 "168")).

(** [ageInHours > maxAgeHours] with
    [ageInHours = (Date.now() - entry.timestamp) / (1000 * 60 * 60)];
    a comparison with [NaN] is false. *)
Definition expired (w : World) (entry : CacheEntry) : bool :=
  match maxAgeHours w with
  | Some m => (m * (1000 * 60 * 60) <? now w - timestamp entry)%Z
  | None => false
  end.

Definition excelPath (w : World) (entry : CacheEntry) : jsstring :=
  path_join (orDefault (env w (u8 "RESULTS_DIR")) (u8 "./results"))
            (excelFilename entry).

(** [get]: the returned pair [(result, excelFilename)], or [None] for
    [null], and the state afterwards. *)
Definition get (w : World) (st : State) (audioPath : jsstring)
    (imagePaths : list jsstring)
  : option (EvaluationResult * jsstring) * State :=
  match generateCacheKey w audioPath imagePaths with
  | None => (None, st)
  | Some key =>
      match cacheIndex st !! key with
      | None => (None, st)
      | Some entry =>
          if negb (existsSync w (excelPath w entry)) then (None, evict key st)
          else if expired w entry then (None, evict key st)
          else (Some (result entry, excelFilename entry), st)
      end
  end.

Definition set (w : World) (st : State) (audioPath : jsstring)
    (imagePaths : list jsstring) (res : EvaluationResult)
    (excelFilename executiveId callType : jsstring) : State :=
  match
    key ← generateCacheKey w audioPath imagePaths;
    audioHash ← calculateFileHash w audioPath;
    imageHashes ← mapM (calculateFileHash w) imagePaths;
    Some (mkCacheEntry key (now w) res excelFilename audioHash imageHashes
            executiveId callType)
  with
  | Some entry =>
      saveCacheIndex {| cacheIndex := <[cacheKey entry := entry]> (cacheIndex st);
                        savedIndex := savedIndex st |}
  | None => st
  end.

(** [new Map(entries.map(entry => [entry.cacheKey, entry]))]: a later entry
    replaces an earlier one with the same key. *)
Definition ofEntries (entries : list CacheEntry) : gmap jsstring CacheEntry :=
  fold_left (fun m entry => <[cacheKey entry := entry]> m) entries ∅.

(** What [index.json] holds after the last [saveCacheIndex]:
    [Array.from(this.cacheIndex.values())], the entries without their keys.
    The order within the array is the insertion order of the map, which this
    model does not keep. *)
Definition savedEntries (st : State) : list CacheEntry :=
  (map_to_list (savedIndex st)).*2.

(** The constructor followed by [loadCacheIndex].  [file] is [None] when
    [index.json] is absent, cannot be read or is not JSON, in which cases
    the index starts empty, and the parsed array otherwise. *)
Definition loadCacheIndex (file : option (list CacheEntry)) : gmap jsstring CacheEntry :=
  match file with
  | Some entries => ofEntries entries
  | None => ∅
  end.

(** A process that starts on the file the state [st] last wrote. *)
Definition restart (st : State) : State :=
  {| cacheIndex := loadCacheIndex (Some (savedEntries st));
     savedIndex := savedIndex st |}.

(** [cleanup]: the number of entries removed and the state afterwards.
    The loop visits the entries of the index and deletes the expired ones;
    the index is written back only when something was removed. *)
Definition cleanup (w : World) (st : State) : nat * State :=
  let '(index, removed) :=
    fold_left
      (fun acc ke => if expired w ke.2 then (delete ke.1 acc.1, S acc.2) else acc)
      (map_to_list (cacheIndex st)) (cacheIndex st, 0%nat) in
  let st' := {| cacheIndex := index; savedIndex := savedIndex st |} in
  (removed, if (0 <? removed)%nat then saveCacheIndex st' else st').

(** [Math.min(...timestamps)] and [Math.max(...timestamps)] of a non-empty
    array. *)
Definition minOf (t : Z) (ts : list Z) : Z := fold_left Z.min ts t.
Definition maxOf (t : Z) (ts : list Z) : Z := fold_left Z.max ts t.

Record Stats := mkStats {
  totalEntries : nat;
  oldestEntry : option Z;
  newestEntry : option Z
}.

(** [getStats].  The timestamps are passed to [Math.min] and [Math.max] as
    spread arguments; an engine accepts an argument list up to some length
    [argumentLimit] and throws a RangeError for a longer one.  [None] is
    that error; the empty index returns before the calls. *)
Definition getStats (argumentLimit : nat) (st : State) : option Stats :=
  let entries := (map_to_list (cacheIndex st)).*2 in
  match entries with
  | [] => Some (mkStats 0%nat None None)
  | e :: es =>
      let t := timestamp e in
      let ts := map timestamp es in
      if (argumentLimit <? length entries)%nat then None
      else Some (mkStats (length entries) (Some (minOf t ts)) (Some (maxOf t ts)))
  end.

Definition invalidateAll (st : State) : State :=
  saveCacheIndex {| cacheIndex := ∅; savedIndex := savedIndex st |}.

End Host.

End CacheService.

(* ===================================================================== *)
(** * Evaluator  (services/evaluator.service.ts)                          *)
(* ===================================================================== *)

Module EvaluatorService.

(** A value produced by [JSON.parse]. *)
#[warnings="-register-all"]
Inductive Json :=
| JNull
| JBool (b : bool)
| JNum (q : Q)
| JStr (s : jsstring)
| JArr (items : list Json)
| JObj (fields : list (jsstring * Json)).

(** ToBoolean *)
Definition truthy (j : Json) : bool :=
  match j with
  | JNull => false
  | JBool b => b
  | JNum q => negb (Qeq_bool q 0)
  | JStr s => negb (bool_decide (s = []))
  | JArr _ | JObj _ => true
  end.

(** Own property of a parsed object; of duplicate JSON members the last one
    counts. *)
Definition lookupField (k : jsstring) (fields : list (jsstring * Json)) : option Json :=
  fold_left (fun acc kv => if bool_decide (kv.1 = k) then Some kv.2 else acc)
            fields None.

(** [parsed.k] for the members read by the extractor ([system], [data],
    [findings], [confidence], [critical_fields]).  The outer [None] is the
    TypeError raised on [null]; the inner [None] is [undefined], which is
    also what a boolean, number, string or array has under these names. *)
Definition getProp (parsed : Json) (k : jsstring) : option (option Json) :=
  match parsed with
  | JNull => None
  | JObj fields => Some (lookupField k fields)
  | _ => Some None
  end.

Definition truthyOpt (v : option Json) : bool :=
  match v with
  | Some j => truthy j
  | None => false
  end.

(** [v || dflt] *)
Definition orElse (v : option Json) (dflt : Json) : Json :=
  match v with
  | Some j => if truthy j then j else dflt
  | None => dflt
  end.

Fixpoint join (sep : jsstring) (l : list jsstring) : jsstring :=
  match l with
  | [] => []
  | [x] => x
  | x :: r => x ++ sep ++ join sep r
  end.

(** Names every plain object inherits from [Object.prototype]. *)
Definition objectPrototypeKeys : list jsstring :=
  [ u8 "constructor"; u8 "__proto__"; u8 "hasOwnProperty"; u8 "isPrototypeOf";
    u8 "propertyIsEnumerable"; u8 "toLocaleString"; u8 "toString"; u8 "valueOf";
    u8 "__defineGetter__"; u8 "__defineSetter__"; u8 "__lookupGetter__";
    u8 "__lookupSetter__" ].

(** [number | string]: what [points] and sums of them are at run time. *)
Inductive JsVal := Num (z : Z) | Str (s : jsstring).

Definition toStr (v : JsVal) : jsstring :=
  match v with
  | Num z => ofZ z
  | Str s => s
  end.

(** The operator [+]: addition of two numbers, concatenation as soon as one
    operand is a string. *)
Definition js_add (a b : JsVal) : JsVal :=
  match a, b with
  | Num x, Num y => Num (x + y)
  | _, _ => Str (toStr a ++ toStr b)
  end.

Definition pointsVal (p : Points) : JsVal :=
  match p with
  | Pts z => Num z
  | NA => Str (u8 "n/a")
  end.

(** A record stored under [evidence[system]]. *)
Record VisualRecord := mkVisualRecord {
  vr_imagePath : jsstring;
  vr_data : Json;
  vr_findings : Json;
  vr_confidence : Json;
  vr_critical_fields : Json
}.

(** What one pass through the [try] block meets.  [Threw]: [readFileSync] or
    the completion request threw.  [Replied usage parsed]: the request
    returned, carrying [usage] if present; [parsed] is the value of
    [JSON.parse(cleanedContent)], or [None] when the content is empty or does
    not parse. *)
Inductive Outcome :=
| Threw
| Replied (usage : option (Z * Z)) (parsed : option Json).

(** Observable steps of the extraction, recorded in program order. *)
Inductive Event :=
| Request (image : nat) (attempt : nat)
| Wait (ms : Z).

#[global] Instance Event_eq_dec : EqDecision Event.
Proof. solve_decision. Defined.

Record Extraction := mkExtraction {
  evidence : gmap jsstring (list VisualRecord);
  totalInputTokens : Z;
  totalOutputTokens : Z;
  trace : list Event
}.

Record TopicToEvaluate := mkTopicToEvaluate {
  te_block : jsstring;
  te_topic : jsstring;
  te_criticality : Criticality;
  te_maxScore : JsVal;
  te_system : jsstring
}.

(** The arguments of [buildEnhancedMatchingPrompt], i.e. the content of the
    single request sent to the remote scorer. *)
Record ScoringRequest := mkScoringRequest {
  rq_auditInput : AuditInput;
  rq_visualEvidence : gmap jsstring (list VisualRecord);
  rq_verbalEvidence : list jsstring;
  rq_topics : list TopicToEvaluate;
  rq_maxScore : JsVal
}.

(** The scorer's answer after [JSON.parse]. *)
Record ScoredEntry := mkScoredEntry {
  se_block : jsstring;
  se_topic : jsstring;
  se_score : Q;
  se_max_score : Q;
  se_justification : jsstring
}.

Record Moment := mkMoment {
  mo_timestamp : jsstring;
  mo_event : jsstring;
  mo_description : jsstring
}.

Record Evaluation := mkEvaluation {
  evaluations : list ScoredEntry;
  total_score : Q;
  max_possible_score : Q;
  ev_percentage : Q;
  ev_observations : jsstring;
  ev_recommendations : option (list jsstring);
  key_moments : option (list Moment)
}.

Definition maxAttempts : nat := 3.

Definition getSystemFromBlock (blockName : jsstring) : jsstring :=
  if bool_decide (blockName = u8 "Falcon") then u8 "FALCON"
  else if bool_decide (blockName = u8 "Front") then u8 "FRONT"
  else if bool_decide (blockName = u8 "Vcas") then u8 "VCAS"
  else if bool_decide (blockName = u8 "Vision") then u8 "VISION"
  else if bool_decide (blockName = u8 "VRM") then u8 "VRM"
  else if bool_decide (blockName = u8 "B.I") then u8 "BI"
  else if bool_decide (blockName = u8 "Manejo de llamada") then u8 "TRANSCRIPCIÓN"
  else blockName.

Definition keywords : list jsstring :=
  [ u8 "bloque"; u8 "bloqu"; u8 "tarjeta";
    u8 "folio"; u8 "caso"; u8 "número";
    u8 "transacción"; u8 "compra"; u8 "cargo";
    u8 "confirmo"; u8 "confirmó"; u8 "reconoce"; u8 "reconozco";
    u8 "fraude"; u8 "fraudulent";
    u8 "excel"; u8 "archivo"; u8 "documento";
    u8 "autenticación"; u8 "autentica"; u8 "verifico"; u8 "valido";
    u8 "sistema"; u8 "vcas"; u8 "falcon"; u8 "vision";
    u8 "reposición"; u8 "pasos a seguir"; u8 "plástico";
    u8 "sucursal"; u8 "días"; u8 "nueva";
    u8 "callerid"; u8 "caller id"; u8 "identificador de llamada";
    u8 "otp"; u8 "código"; u8 "clave"; u8 "pin"; u8 "token";
    u8 "verificar"; u8 "validar"; u8 "corroborar";
    u8 "identidad"; u8 "identificación";
    u8 "preguntas de seguridad";
    u8 "último cargo"; u8 "últimos movimientos"; u8 "saldo";
    u8 "código de seguridad" ].

(** [s.padStart(2, '0')] *)
Definition padStart2 (s : jsstring) : jsstring :=
  match s with
  | [] => [0x30; 0x30]
  | [c] => [0x30; c]
  | _ => s
  end.

(** [formatTime] on an integral number of milliseconds or seconds.  The
    code computes on IEEE doubles and prints with
    [Number.prototype.toString]; for integral [0 <= timeValue < 10^15] the
    divisions, [Math.floor], [%] and the decimal rendering are those of the
    integers, which is what is written here.  Statements about the value of
    [formatTime] are made on that range. *)
Definition formatTime (timeValue : Z) : jsstring :=
  let totalSeconds := if (1000 <=? timeValue)%Z then (timeValue / 1000)%Z
                      else timeValue in
  let mins := (totalSeconds / 60)%Z in
  let secs := Z.rem totalSeconds 60 in
  padStart2 (ofZ mins) ++ u8 ":" ++ padStart2 (ofZ secs).

Definition hasKeyword (utt : Utterance) : bool :=
  let lowerText := toLowerCase (utt_text utt) in
  existsb (fun kw => includes lowerText kw) keywords.

(** [`[${timestamp}] ${utt.speaker}: "${utt.text}"`] *)
Definition evidenceLine (utt : Utterance) : jsstring :=
  u8 "[" ++ formatTime (utt_start utt) ++ u8 "] " ++ utt_speaker utt
  ++ u8 ": " ++ [0x22] ++ utt_text utt ++ [0x22].

Definition extractVerbalEvidence (transcript : TranscriptResult) : list jsstring :=
  fold_left
    (fun evidence utt =>
       if hasKeyword utt && (15 <? length (utt_text utt))%nat
       then evidence ++ [evidenceLine utt]
       else evidence)
    (utterances transcript) [].

(** [extractVerbalEvidence] with the built-in
    [String.prototype.toLowerCase] as a parameter: the loop as the code runs
    it, whatever the built-in returns for an utterance's text.
    [extractVerbalEvidence] above is this function on the lower-casing table
    of [JsString]. *)
Definition hasKeywordWith (toLowerCase : jsstring -> jsstring)
    (utt : Utterance) : bool :=
  let lowerText := toLowerCase (utt_text utt) in
  existsb (fun kw => includes lowerText kw) keywords.

Definition extractVerbalEvidenceWith (toLowerCase : jsstring -> jsstring)
    (transcript : TranscriptResult) : list jsstring :=
  fold_left
    (fun evidence utt =>
       if hasKeywordWith toLowerCase utt && (15 <? length (utt_text utt))%nat
       then evidence ++ [evidenceLine utt]
       else evidence)
    (utterances transcript) [].

Section Remote.

(** [Number.prototype.toString], used when a number serves as property key. *)
Variable Number_toString : Q -> jsstring.

(** The vision service as met by the extractor: [respond i k] is what the
    [k]-th pass (counted from 1) for the image at index [i] runs into. *)
Variable respond : nat -> nat -> Outcome.

(** The scoring service: the parsed answer to the one request together with
    the reported token usage, or [None] when the call throws, returns no
    content, or returns content that does not parse. *)
Variable scorer : ScoringRequest -> option (Evaluation * option (Z * Z)).

(** ToString of a parsed value, as applied to a property key. *)
Fixpoint toStringJ (j : Json) : jsstring :=
  match j with
  | JNull => u8 "null"
  | JBool true => u8 "true"
  | JBool false => u8 "false"
  | JNum q => Number_toString q
  | JStr s => s
  | JArr items =>
      join (u8 ",")
        ((fix elems (l : list Json) : list jsstring :=
            match l with
            | [] => []
            | JNull :: r => [] :: elems r
            | x :: r => toStringJ x :: elems r
            end) items)
  | JObj _ => u8 "[object Object]"
  end.

(** The checks and the grouping step of the [try] block: the evidence after
    [evidence[system].push(...)], or [None] when the block throws
    ('Invalid JSON structure', or a TypeError). *)
Definition store (ev : gmap jsstring (list VisualRecord)) (imagePath : jsstring)
    (parsed : Json) : option (gmap jsstring (list VisualRecord)) :=
  sys ← getProp parsed (u8 "system");
  if negb (truthyOpt sys) then None else
  dat ← getProp parsed (u8 "data");
  if negb (truthyOpt dat) then None else
  let system := toStringJ (default JNull sys) in
  if bool_decide (system ∈ objectPrototypeKeys) then None else
  findings ← getProp parsed (u8 "findings");
  confidence ← getProp parsed (u8 "confidence");
  critical ← getProp parsed (u8 "critical_fields");
  let rec := {| vr_imagePath := imagePath;
                vr_data := default JNull dat;
                vr_findings := orElse findings (JArr []);
                vr_confidence := orElse confidence (JNum (9 # 10));
                vr_critical_fields := orElse critical (JObj []) |} in
  Some (<[system := default [] (ev !! system) ++ [rec]]> ev).

Definition addUsage (u : option (Z * Z)) (st : Extraction) : Extraction :=
  match u with
  | Some (i, o) =>
      {| evidence := evidence st;
         totalInputTokens := (totalInputTokens st + i)%Z;
         totalOutputTokens := (totalOutputTokens st + o)%Z;
         trace := trace st |}
  | None => st
  end.

Definition emit (e : Event) (st : Extraction) : Extraction :=
  {| evidence := evidence st;
     totalInputTokens := totalInputTokens st;
     totalOutputTokens := totalOutputTokens st;
     trace := trace st ++ [e] |}.

Definition withEvidence (ev : gmap jsstring (list VisualRecord))
    (st : Extraction) : Extraction :=
  {| evidence := ev;
     totalInputTokens := totalInputTokens st;
     totalOutputTokens := totalOutputTokens st;
     trace := trace st |}.

(** One pass through the [try] block; the boolean is [success]. *)
Definition attempt (i : nat) (imagePath : jsstring) (attempts : nat)
    (st : Extraction) : Extraction * bool :=
  let st := emit (Request i attempts) st in
  match respond i attempts with
  | Threw => (st, false)
  | Replied u parsed =>
      let st := addUsage u st in
      match parsed with
      | None => (st, false)
      | Some p =>
          match store (evidence st) imagePath p with
          | Some ev => (withEvidence ev st, true)
          | None => (st, false)
          end
      end
  end.

(** [while (attempts < maxAttempts && !success)], with the [catch] block's
    one-second pause.  [fuel] bounds the number of iterations; [maxAttempts]
    is always enough. *)
Fixpoint retry (fuel : nat) (i : nat) (imagePath : jsstring) (attempts : nat)
    (st : Extraction) : Extraction :=
  match fuel with
  | O => st
  | S fuel' =>
      if (attempts <? maxAttempts)%nat then
        let attempts := S attempts in
        match attempt i imagePath attempts st with
        | (st', true) => st'
        | (st', false) =>
            retry fuel' i imagePath attempts
              (if (maxAttempts <=? attempts)%nat then st'
               else emit (Wait 1000) st')
        end
      else st
  end.

Fixpoint forImages (i : nat) (imagePaths : list jsstring) (st : Extraction)
  : Extraction :=
  match imagePaths with
  | [] => st
  | imagePath :: rest =>
      forImages (S i) rest (retry maxAttempts i imagePath 0 st)
  end.

Definition extractVisualEvidenceEnhanced (imagePaths : list jsstring) : Extraction :=
  forImages 0 imagePaths
    {| evidence := ∅; totalInputTokens := 0; totalOutputTokens := 0; trace := [] |}.

Definition topicsToEvaluate (criteria : list EvaluationBlock) : list TopicToEvaluate :=
  flat_map
    (fun block =>
       map (fun t => {| te_block := blockName block;
                        te_topic := topic t;
                        te_criticality := criticality t;
                        te_maxScore := pointsVal (points t);
                        te_system := getSystemFromBlock (blockName block) |})
           (List.filter applies (topics block)))
    criteria.

(** [topicsToEvaluate.reduce((sum, t) => sum + t.maxScore, 0)] *)
Definition maxPossibleScoreOf (ts : list TopicToEvaluate) : JsVal :=
  fold_left (fun sum t => js_add sum (te_maxScore t)) ts (Num 0).

Definition buildRequest (criteria : list EvaluationBlock)
    (visualEvidence : gmap jsstring (list VisualRecord))
    (verbalEvidence : list jsstring) (auditInput : AuditInput) : ScoringRequest :=
  let ts := topicsToEvaluate criteria in
  {| rq_auditInput := auditInput;
     rq_visualEvidence := visualEvidence;
     rq_verbalEvidence := take 40 verbalEvidence;
     rq_topics := ts;
     rq_maxScore := maxPossibleScoreOf ts |}.

Definition evaluateWithEnhancedMatching (criteria : list EvaluationBlock)
    (visualEvidence : gmap jsstring (list VisualRecord))
    (verbalEvidence : list jsstring) (auditInput : AuditInput)
  : option (Evaluation * (Z * Z)) :=
  '(evaluation, u) ← scorer (buildRequest criteria visualEvidence verbalEvidence auditInput);
  Some (evaluation, default (0, 0)%Z u).

Definition evaluate (auditInput : AuditInput) (transcript : TranscriptResult)
  : option EvaluationResult :=
  let ex := extractVisualEvidenceEnhanced (default [] (imagePaths auditInput)) in
  let verbalEvidence := extractVerbalEvidence transcript in
  let criteria := getCriteriaForCallType (callType auditInput) in
  '(evaluation, evalTokens) ←
     evaluateWithEnhancedMatching criteria (evidence ex) verbalEvidence auditInput;
  let totalIn := (totalInputTokens ex + evalTokens.1)%Z in
  let totalOut := (totalOutputTokens ex + evalTokens.2)%Z in
  Some {|
    totalScore := total_score evaluation;
    maxPossibleScore := max_possible_score evaluation;
    percentage := ev_percentage evaluation;
    detailedScores :=
      map (fun ev => {| criterion := u8 "[" ++ se_block ev ++ u8 "] " ++ se_topic ev;
                        score := se_score ev;
                        maxScore := se_max_score ev;
                        observations := se_justification ev |})
          (evaluations evaluation);
    res_observations := ev_observations evaluation;
    recommendations := default [] (ev_recommendations evaluation);
    keyMoments :=
      default []
        (map (fun m => {| km_timestamp := mo_timestamp m;
                          km_type := mo_event m;
                          km_description := mo_description m |})
           <$> key_moments evaluation);
    usage := Some {| inputTokens := totalIn;
                     outputTokens := totalOut;
                     totalTokens := (totalIn + totalOut)%Z |}
  |}.

End Remote.

End EvaluatorService.

(* ===================================================================== *)
(** * Report serializer  (services/excel.service.ts)                      *)
(* ===================================================================== *)

Module ExcelService.

(** ** Worksheet

    A worksheet is the finite map of its cells, addressed by (row, column)
    with column A = 1.  A cell carries the properties whose content depends
    on the audit: value, font, solid fill colour and note.  Alignment,
    borders, row heights, column widths and merges are fixed by the layout
    and are not carried. *)

Inductive CellValue := VNum (q : Q) | VStr (s : jsstring).

Record Font := mkFont {
  f_bold : bool;
  f_italic : bool;
  f_size : N;
  f_color : option jsstring
}.

(** One run of a note; every run is set in Calibri 10. *)
Record NoteText := mkNoteText {
  nt_bold : bool;
  nt_text : jsstring
}.

Record Cell := mkCell {
  value : option CellValue;
  font : option Font;
  fill : option jsstring;
  note : option (list NoteText)
}.

Abbreviation Sheet := (gmap (nat * nat) Cell).

(** [v === s] for a string literal [s] *)
Definition isStr (v : CellValue) (s : jsstring) : bool :=
  match v with
  | VStr x => bool_decide (x = s)
  | VNum _ => false
  end.

Record Workbook := mkWorkbook {
  creator : jsstring;
  created : Z;
  sheetName : jsstring;
  sheet : gmap (nat * nat) Cell
}.

Definition emptyCell : Cell :=
  {| value := None; font := None; fill := None; note := None |}.

Definition getCell (sh : Sheet) (r c : nat) : Cell := default emptyCell (sh !! (r, c)).

(** An assignment to one property of one cell: [cell.value = v],
    [cell.font = f], [cell.fill = solid argb], [cell.note = texts]. *)
Inductive Assignment :=
  | AValue (v : CellValue)
  | AFont (f : Font)
  | AFill (argb : jsstring)
  | ANote (texts : list NoteText).

Definition assign (a : Assignment) (x : Cell) : Cell :=
  match a with
  | AValue v => {| value := Some v; font := font x; fill := fill x; note := note x |}
  | AFont f => {| value := value x; font := Some f; fill := fill x; note := note x |}
  | AFill argb => {| value := value x; font := font x; fill := Some argb; note := note x |}
  | ANote n => {| value := value x; font := font x; fill := fill x; note := Some n |}
  end.

Record Write := mkWrite {
  w_row : nat;
  w_col : nat;
  w_what : Assignment
}.

Definition apply (w : Write) (sh : Sheet) : Sheet :=
  <[(w_row w, w_col w) := assign (w_what w) (getCell sh (w_row w) (w_col w))]> sh.

Definition setValue (r c : nat) (v : CellValue) : Write := mkWrite r c (AValue v).
Definition setFont (r c : nat) (f : Font) : Write := mkWrite r c (AFont f).
Definition setFill (r c : nat) (argb : jsstring) : Write := mkWrite r c (AFill argb).
Definition setNote (r c : nat) (n : list NoteText) : Write := mkWrite r c (ANote n).

(** Assignments executed in sequence. *)
Definition run (ops : list Write) (sh : Sheet) : Sheet :=
  fold_left (fun s w => apply w s) ops sh.

Definition str (r c : nat) (s : jsstring) : Write := setValue r c (VStr s).

Definition plain (size : N) : Font := mkFont false false size None.
Definition bold (size : N) : Font := mkFont true false size None.
Definition boldColor (size : N) (argb : jsstring) : Font := mkFont true false size (Some argb).
Definition color (size : N) (argb : jsstring) : Font := mkFont false false size (Some argb).
Definition italicColor (size : N) (argb : jsstring) : Font := mkFont false true size (Some argb).

Definition WHITE_FONT : jsstring := u8 "FFFFFFFF".

(** ** Helpers *)

(** [s.replace(/\s+/g, rep)]: [inRun] tells that the previous code unit was
    white space already replaced. *)
Fixpoint replaceSpaceRuns (rep : N) (inRun : bool) (s : jsstring) : jsstring :=
  match s with
  | [] => []
  | c :: r =>
      if isSpace c then
        if inRun then replaceSpaceRuns rep true r
        else rep :: replaceSpaceRuns rep true r
      else c :: replaceSpaceRuns rep false r
  end.

Definition isCombiningMark (c : N) : bool := (0x300 <=? c) && (c <=? 0x36F).

(** [toLowerCase], [normalize('NFD')], removal of U+0300..U+036F, collapse
    of white-space runs into one space, [trim]. *)
Definition normalizeText (text : jsstring) : jsstring :=
  trim
    (replaceSpaceRuns 0x20 false
       (List.filter (fun c => negb (isCombiningMark c))
          (nfd (toLowerCase text)))).

Definition isWordChar (c : N) : bool :=
  ((0x30 <=? c) && (c <=? 0x39)) || ((0x41 <=? c) && (c <=? 0x5A))
  || ((0x61 <=? c) && (c <=? 0x7A)) || (c =? 0x5F).

Definition sanitizeFilename (text : jsstring) : jsstring :=
  take 100
    (List.filter (fun c => isWordChar c || (c =? 0x2D) || (c =? 0x2E))
       (map (fun c => if c =? 0x09 then 0x5F else c)
          (replaceSpaceRuns 0x5F false text))).

Definition isDigit (c : N) : bool := (0x30 <=? c) && (c <=? 0x39).

Fixpoint digitRun (s : jsstring) : jsstring * jsstring :=
  match s with
  | c :: r => if isDigit c then let '(d, rest) := digitRun r in (c :: d, rest)
              else ([], s)
  | [] => ([], [])
  end.

(** The pattern "digits, colon, digits" tried at the head of [s]. *)
Definition minSecAt (s : jsstring) : option (jsstring * jsstring) :=
  match digitRun s with
  | ((_ :: _) as m, 0x3A :: rest) =>
      match digitRun rest with
      | ((_ :: _) as n, _) => Some (m, n)
      | _ => None
      end
  | _ => None
  end.

Fixpoint matchMinSec (s : jsstring) : option (jsstring * jsstring) :=
  match minSecAt s with
  | Some r => Some r
  | None => match s with
            | [] => None
            | _ :: r => matchMinSec r
            end
  end.

Definition padStart2 := EvaluatorService.padStart2.

Definition formatTimestamp (timestamp : jsstring) : jsstring :=
  match timestamp with
  | [] => u8 "00:00"
  | _ =>
      match matchMinSec timestamp with
      | None => timestamp
      | Some (mins, secs) => padStart2 mins ++ u8 ":" ++ padStart2 secs
      end
  end.

(** ** [Map<string, any>]: entries in insertion order, [set] replacing the
    value of a present key in place. *)
Abbreviation JsMap := (list (jsstring * DetailedScore)).

Fixpoint mapSet (k : jsstring) (v : DetailedScore) (m : JsMap) : JsMap :=
  match m with
  | [] => [(k, v)]
  | (k', v') :: r => if bool_decide (k' = k) then (k, v) :: r
                     else (k', v') :: mapSet k v r
  end.

Fixpoint mapGet (k : jsstring) (m : JsMap) : option DetailedScore :=
  match m with
  | [] => None
  | (k', v) :: r => if bool_decide (k' = k) then Some v else mapGet k r
  end.

Record Maps := mkMaps {
  evaluationMap : JsMap;
  evaluationByTopicOnly : JsMap;
  evaluationByBlockOnly : JsMap
}.

(** The lazy first group and the closing bracket, read from just behind an
    opening bracket: the shortest run without line terminator that a closing
    bracket follows. *)
Fixpoint lazyUntilBracket (s : jsstring) : option (jsstring * jsstring) :=
  match s with
  | [] => None
  | c :: r =>
      if c =? 0x5D then Some ([], r)
      else if isLineTerminator c then None
      else '(blk, rest) ← lazyUntilBracket r; Some (c :: blk, rest)
  end.

(** The greedy second group: up to the next line terminator. *)
Fixpoint restOfLine (s : jsstring) : jsstring :=
  match s with
  | c :: r => if isLineTerminator c then [] else c :: restOfLine r
  | [] => []
  end.

(** [criterion.match] with the pattern "bracketed lazy group, optional
    white space, greedy group": the two groups of the leftmost match. *)
Fixpoint matchCriterion (s : jsstring) : option (jsstring * jsstring) :=
  match s with
  | [] => None
  | c :: r =>
      if c =? 0x5B then
        match lazyUntilBracket r with
        | Some (blk, rest) => Some (blk, restOfLine (trimStart rest))
        | None => matchCriterion r
        end
      else matchCriterion r
  end.

Definition pairKey (block topic : jsstring) : jsstring := block ++ u8 "|" ++ topic.

(** The body of [evaluation.detailedScores.forEach] that fills the maps. *)
Definition addScore (m : Maps) (sc : DetailedScore) : Maps :=
  match matchCriterion (criterion sc) with
  | Some (g1, g2) =>
      let block := trim g1 in
      let topic := trim g2 in
      let key := pairKey block topic in
      let normalizedKey := pairKey (normalizeText block) (normalizeText topic) in
      {| evaluationMap := mapSet normalizedKey sc (mapSet key sc (evaluationMap m));
         evaluationByTopicOnly := mapSet topic sc (evaluationByTopicOnly m);
         evaluationByBlockOnly := mapSet block sc (evaluationByBlockOnly m) |}
  | None => m
  end.

Definition buildMaps (scores : list DetailedScore) : Maps :=
  fold_left addScore scores (mkMaps [] [] []).

(** ** The five lookups, written out identically in
    [getTopicValueWithReason] and [getTopicResult] *)

(** Estrategia 1: búsqueda exacta *)
Definition strategy1 (m : Maps) (blockName topicName : jsstring) : option DetailedScore :=
  mapGet (pairKey blockName topicName) (evaluationMap m).

(** Estrategia 2: búsqueda normalizada *)
Definition strategy2 (m : Maps) (blockName topicName : jsstring) : option DetailedScore :=
  mapGet (pairKey (normalizeText blockName) (normalizeText topicName)) (evaluationMap m).

(** Estrategia 3: búsqueda solo por tópico *)
Definition strategy3 (m : Maps) (blockName topicName : jsstring) : option DetailedScore :=
  mapGet topicName (evaluationByTopicOnly m).

(** Estrategia 4: búsqueda solo por bloque *)
Definition strategy4 (m : Maps) (blockName topicName : jsstring) : option DetailedScore :=
  mapGet blockName (evaluationByBlockOnly m).

(** Estrategia 5: búsqueda parcial (contiene) *)
Definition contains (normalizedTopic mapKey : jsstring) : bool :=
  let normalizedMapKey := normalizeText mapKey in
  includes normalizedMapKey normalizedTopic || includes normalizedTopic normalizedMapKey.

Definition strategy5 (m : Maps) (blockName topicName : jsstring) : option DetailedScore :=
  let normalizedTopic := normalizeText topicName in
  snd <$> List.find (fun kv => contains normalizedTopic kv.1) (evaluationMap m).

Definition strategies : list (Maps -> jsstring -> jsstring -> option DetailedScore) :=
  [strategy1; strategy2; strategy3; strategy4; strategy5].

(** [if (!score) { score = ... }] repeated down the list. *)
Fixpoint firstHit (ss : list (Maps -> jsstring -> jsstring -> option DetailedScore))
    (m : Maps) (blockName topicName : jsstring) : option DetailedScore :=
  match ss with
  | [] => None
  | s :: rest =>
      match s m blockName topicName with
      | Some sc => Some sc
      | None => firstHit rest m blockName topicName
      end
  end.

Definition findScore : Maps -> jsstring -> jsstring -> option DetailedScore :=
  firstHit strategies.

(** [a || b] on strings *)
Definition orStr (a b : jsstring) : jsstring :=
  match a with
  | [] => b
  | _ => a
  end.

(** ** Horizontal layout: [getTopicValueWithReason] *)

Record TopicValue := mkTopicValue {
  tv_value : CellValue;
  tv_reason : jsstring;
  shouldHighlight : bool
}.

Definition getTopicValueWithReason (m : Maps) (blockName topicName : jsstring)
    (t : EvaluationTopic) : TopicValue :=
  if negb (applies t) then
    mkTopicValue (VStr (u8 "n/a")) (u8 "No aplica según el contexto de la llamada") false
  else
    match findScore m blockName topicName with
    | None =>
        mkTopicValue (VStr (u8 "Sin evaluar"))
          (u8 "No se encontró evidencia suficiente en transcripción ni en capturas para evaluar este criterio")
          false
    | Some sc =>
        let justification := observations sc in
        if Qeq_bool (score sc) 0 then
          mkTopicValue (VNum 0) (orStr justification (u8 "No cumplió con el criterio")) true
        else
          mkTopicValue (VNum (score sc)) (orStr justification (u8 "Cumplió correctamente")) true
    end.

(** ** Vertical layout: [getTopicResult] *)

Record TopicResult := mkTopicResult {
  tr_value : CellValue;
  tr_reason : jsstring;
  isCritical : bool
}.

Definition getTopicResult (m : Maps) (blockName topicName : jsstring)
    (t : EvaluationTopic) : TopicResult :=
  if negb (applies t) then
    mkTopicResult (VStr (u8 "n/a")) (u8 "No aplica") false
  else
    match findScore m blockName topicName with
    | None =>
        mkTopicResult (VStr (u8 "Sin evaluar")) (u8 "No se encontró evidencia suficiente")
          (bool_decide (criticality t = Critico))
    | Some sc =>
        let justification := observations sc in
        if bool_decide (criticality t = Critico) then
          let cumple := negb (Qle_bool (score sc) 0) in
          mkTopicResult
            (VStr (if cumple then u8 "Cumple" else u8 "No Cumple"))
            (orStr justification
               (if cumple then u8 "Cumplió correctamente"
                else u8 "No cumplió - Error Crítico"))
            true
        else
          mkTopicResult (VNum (score sc)) (orStr justification (u8 "Evaluado")) false
    end.

Definition pointsValue (p : Points) : CellValue :=
  match p with
  | Pts z => VNum (inject_Z z)
  | NA => VStr (u8 "n/a")
  end.

(** [typeof topic.points === 'number' ? topic.points : 0] *)
Definition maxPointsOf (t : EvaluationTopic) : Q :=
  match points t with
  | Pts z => inject_Z z
  | NA => 0
  end.

Definition criticalityText (c : Criticality) : jsstring :=
  match c with
  | Critico => u8 "Crítico"
  | NoCritico => u8 "-"
  end.

(** The three fills of a numeric score: full, zero, partial. *)
Definition scoreStyle (size : N) (v maxPoints : Q) : list (nat -> nat -> Write) :=
  if Qeq_bool v maxPoints then
    [ fun r c => setFill r c (u8 "FFD4EDDA"); fun r c => setFont r c (boldColor size (u8 "FF155724")) ]
  else if Qeq_bool v 0 then
    [ fun r c => setFill r c (u8 "FFF8D7DA"); fun r c => setFont r c (boldColor size (u8 "FF721C24")) ]
  else
    [ fun r c => setFill r c (u8 "FFFFF3CD"); fun r c => setFont r c (boldColor size (u8 "FF856404")) ].

Definition at_ (r c : nat) (ops : list (nat -> nat -> Write)) : list Write :=
  map (fun op => op r c) ops.

Section Host.

(** [Number.prototype.toString] and [toFixed(1)] *)
Variable Number_toString : Q -> jsstring.
Variable toFixed1 : Q -> jsstring.

Definition scoreLine (evaluation : EvaluationResult) : jsstring :=
  Number_toString (totalScore evaluation) ++ u8 " / "
  ++ Number_toString (maxPossibleScore evaluation).

Definition momentLine (moment : KeyMoment) : jsstring :=
  u8 "[" ++ formatTimestamp (km_timestamp moment) ++ u8 "] " ++ km_type moment
  ++ u8 ": " ++ km_description moment ++ [0x0A].

(** *** HOJA INBOUND (horizontal) *)

Definition HEADER_BLUE : jsstring := u8 "FF2563EB".

Definition headerStyleA (r c : nat) : list Write :=
  [ setFont r c (boldColor 10 WHITE_FONT); setFill r c HEADER_BLUE ].

(** [Object.assign(cell, dataStyle)] *)
Definition dataStyle (r c : nat) : list Write := [ setFont r c (plain 9) ].

Definition analysisHeaders : list (nat * jsstring) :=
  [ (1, u8 "#"); (2, u8 "Bloque"); (3, u8 "Criticidad"); (4, u8 "Criterio");
    (5, u8 "Puntaje Máximo"); (6, u8 "Puntaje Obtenido"); (7, u8 "Aplica");
    (8, u8 "Observaciones") ]%nat.

(** Body of the loop that writes one row per topic. *)
Definition analysisRow (m : Maps) (block : EvaluationBlock) (t : EvaluationTopic)
    (rowNum topicIndex : nat) : list Write :=
  let result := getTopicValueWithReason m (blockName block) (topic t) t in
  [ setValue rowNum 1 (VNum (inject_Z (Z.of_nat topicIndex)));
    str rowNum 2 (blockName block);
    setFont rowNum 2 (bold 9) ]
  ++ dataStyle rowNum 2 ++
  [ str rowNum 3 (criticalityText (criticality t)) ]
  ++ (if bool_decide (criticality t = Critico)
      then [ setFill rowNum 3 (u8 "FFFECACA");
             setFont rowNum 3 (boldColor 9 (u8 "FFDC2626")) ]
      else []) ++
  [ str rowNum 4 (topic t) ]
  ++ dataStyle rowNum 4 ++
  [ setValue rowNum 5 (pointsValue (points t));
    setValue rowNum 6 (tv_value result) ]
  ++ (if shouldHighlight result then
        match tv_value result with
        | VNum v => at_ rowNum 6 (scoreStyle 10 v (maxPointsOf t))
        | VStr _ => []
        end
      else if isStr (tv_value result) (u8 "n/a") then
        [ setFill rowNum 6 (u8 "FFE0E0E0"); setFont rowNum 6 (color 9 (u8 "FF666666")) ]
      else []) ++
  [ str rowNum 7 (if applies t then u8 "Sí" else u8 "No");
    str rowNum 8 (tv_reason result) ]
  ++ dataStyle rowNum 8.

(** Body of the loop that writes the matrix view in row 5. *)
Definition analysisMatrixCell (m : Maps) (block : EvaluationBlock) (t : EvaluationTopic)
    (colNum : nat) : list Write :=
  let result := getTopicValueWithReason m (blockName block) (topic t) t in
  [ setValue 5 colNum (tv_value result) ]
  ++ (if shouldHighlight result then
        [ setFill 5 colNum (u8 "FF000000");
          setFont 5 colNum (boldColor 10 (u8 "FFFFFFFF"));
          setNote 5 colNum [ mkNoteText false (tv_reason result) ] ]
      else if isStr (tv_value result) (u8 "n/a") then
        [ setFill 5 colNum (u8 "FFE0E0E0"); setFont 5 colNum (color 10 (u8 "FF666666")) ]
      else
        [ setFill 5 colNum (u8 "FFF2F2F2");
          setFont 5 colNum (italicColor 9 (u8 "FF666666"));
          setNote 5 colNum [ mkNoteText false (tv_reason result) ] ]).

(** [criteria.forEach(block => block.topics.forEach(topic => ...))] with a
    counter that starts at [n0] and is incremented at the end of the body. *)
Definition forEachTopic (criteria : list EvaluationBlock)
    (body : EvaluationBlock -> EvaluationTopic -> nat -> list Write)
    (n0 : nat) (sh : Sheet) : Sheet * nat :=
  fold_left
    (fun st block =>
       fold_left (fun st t => (run (body block t st.2) st.1, S st.2)) (topics block) st)
    criteria (sh, n0).

Definition analysisObservations (evaluation : EvaluationResult) : jsstring :=
  match keyMoments evaluation with
  | [] => res_observations evaluation
  | ms => res_observations evaluation
          ++ [0x0A; 0x0A] ++ u8 "Momentos clave de la llamada:" ++ [0x0A]
          ++ concat (map momentLine ms)
  end.

Definition createAnalysisSheet (sh : Sheet) (auditInput : AuditInput)
    (evaluation : EvaluationResult) : Sheet :=
  let criteria := getCriteriaForCallType (callType auditInput) in
  let m := buildMaps (detailedScores evaluation) in
  let sh := run
    ([ str 1 1 (u8 "Auditoría de Llamada - Análisis Detallado");
       setFont 1 1 (boldColor 16 HEADER_BLUE);
       str 2 1 (u8 "Ejecutivo:"); setFont 2 1 (bold 10);
       str 2 2 (executiveName auditInput); setFont 2 2 (plain 10);
       str 2 4 (u8 "ID:"); setFont 2 4 (bold 10);
       str 2 5 (executiveId auditInput); setFont 2 5 (plain 10);
       str 2 6 (u8 "Tipo de Llamada:"); setFont 2 6 (bold 10);
       str 2 7 (callType auditInput); setFont 2 7 (plain 10);
       str 3 1 (u8 "Puntuación Total:"); setFont 3 1 (bold 10);
       str 3 2 (scoreLine evaluation); setFont 3 2 (boldColor 11 (u8 "FF10B981"));
       str 3 4 (u8 "Porcentaje:"); setFont 3 4 (bold 10);
       str 3 5 (toFixed1 (percentage evaluation) ++ u8 "%");
       setFont 3 5 (boldColor 11 (u8 "FF10B981"));
       str 3 6 (u8 "Cliente:"); setFont 3 6 (bold 10);
       str 3 7 (orStr (clientId auditInput) (u8 "N/A")); setFont 3 7 (plain 10) ]
     ++ flat_map (fun h => str 4 h.1 h.2 :: headerStyleA 4 h.1) analysisHeaders) sh in
  (* Encabezados de tópicos (columnas 9-39) *)
  let sh := (forEachTopic criteria
               (fun block t colNum =>
                  str 4 colNum (blockName block ++ u8 ": " ++ topic t)
                  :: headerStyleA 4 colNum) 9 sh).1 in
  (* Columna 40: Observaciones generales *)
  let sh := run (str 4 40 (u8 "Observaciones Generales") :: headerStyleA 4 40) sh in
  (* Filas de datos; topicIndex = rowNum - 4 throughout *)
  let sh := (forEachTopic criteria
               (fun block t rowNum => analysisRow m block t rowNum (rowNum - 4)) 5 sh).1 in
  (* Columnas 9-39: vista matricial *)
  let sh := (forEachTopic criteria (analysisMatrixCell m) 9 sh).1 in
  run [ str 5 40 (analysisObservations evaluation); setFont 5 40 (plain 9) ] sh.

(** *** HOJA MONITOREO (vertical) *)

Definition HEADER_RED : jsstring := u8 "FFB42648".

Definition headerStyleM (r c : nat) : list Write :=
  [ setFont r c (boldColor 11 WHITE_FONT); setFill r c HEADER_RED ].

Definition greyUnevaluated (r c : nat) : list Write :=
  [ setFill r c (u8 "FFF2F2F2"); setFont r c (italicColor 9 (u8 "FF666666")) ].

(** First run of the note on column D. *)
Definition ponderacionText (t : EvaluationTopic) : jsstring :=
  let maxPtsText := match points t with
                    | Pts z => u8 "/" ++ ofZ z
                    | NA => []
                    end in
  u8 "Ponderación: "
  ++ (match criticality t with
      | Critico => u8 "Crítico"
      | NoCritico => match points t with
                     | Pts z => ofZ z
                     | NA => u8 "n/a"
                     end
      end)
  ++ maxPtsText ++ [0x0A].

(** Body of [block.topics.forEach((topic, topicIdx) => ...)]. *)
Definition monitoreoRow (m : Maps) (block : EvaluationBlock) (t : EvaluationTopic)
    (topicIdx currentRow : nat) : list Write :=
  let result := getTopicResult m (blockName block) (topic t) t in
  (if bool_decide (topicIdx = 0%nat) then
     [ str currentRow 2 (blockName block);
       setFont currentRow 2 (boldColor 11 WHITE_FONT);
       setFill currentRow 2 HEADER_RED ]
   else []) ++
  [ str currentRow 3 (topic t); setFont currentRow 3 (plain 10) ]
  ++ (if bool_decide (criticality t = Critico) then
        [ setValue currentRow 4 (tr_value result); setFont currentRow 4 (bold 10) ]
        ++ (if isStr (tr_value result) (u8 "No Cumple") then
              [ setFill currentRow 4 (u8 "FFFF0000");
                setFont currentRow 4 (boldColor 10 WHITE_FONT) ]
            else if isStr (tr_value result) (u8 "Cumple") then
              [ setFill currentRow 4 (u8 "FF10B981");
                setFont currentRow 4 (boldColor 10 WHITE_FONT) ]
            else if isStr (tr_value result) (u8 "Sin evaluar") then
              greyUnevaluated currentRow 4
            else [])
      else if negb (applies t) then
        [ str currentRow 4 (u8 "n/a");
          setFont currentRow 4 (color 10 (u8 "FF666666"));
          setFill currentRow 4 (u8 "FFE0E0E0") ]
      else
        [ setValue currentRow 4 (tr_value result) ]
        ++ match tr_value result with
           | VNum v => at_ currentRow 4 (scoreStyle 10 v (maxPointsOf t))
           | VStr s => if bool_decide (s = u8 "Sin evaluar")
                       then greyUnevaluated currentRow 4 else []
           end)
  ++ (if negb (bool_decide (tr_reason result = []))
         && negb (bool_decide (tr_reason result = u8 "No aplica"))
      then [ setNote currentRow 4
               [ mkNoteText true (ponderacionText t);
                 mkNoteText false (tr_reason result) ] ]
      else []).

(** [criteria.forEach(block => { block.topics.forEach(...) })] with
    [currentRow] incremented at the end of the inner body. *)
Definition monitoreoRows (m : Maps) (criteria : list EvaluationBlock)
    (currentRow : nat) (sh : Sheet) : Sheet * nat :=
  fold_left
    (fun st block =>
       (fold_left
          (fun st' t =>
             let '(sh, row, topicIdx) := st' in
             (run (monitoreoRow m block t topicIdx row) sh, S row, S topicIdx))
          (topics block) (st.1, st.2, 0%nat)).1)
    criteria (sh, currentRow).

Definition monitoreoObservations (evaluation : EvaluationResult) : jsstring :=
  res_observations evaluation
  ++ (match recommendations evaluation with
      | [] => []
      | recs => [0x0A; 0x0A] ++ u8 "Recomendaciones:" ++ [0x0A]
                ++ concat (imap (fun idx rec =>
                                   ofZ (Z.of_nat idx + 1) ++ u8 ". " ++ rec ++ [0x0A]) recs)
      end)
  ++ (match keyMoments evaluation with
      | [] => []
      | ms => [0x0A] ++ u8 "Momentos clave:" ++ [0x0A] ++ concat (map momentLine ms)
      end).

Definition createMonitoreoSheet (sh : Sheet) (auditInput : AuditInput)
    (evaluation : EvaluationResult) : Sheet :=
  let criteria := getCriteriaForCallType (callType auditInput) in
  let m := buildMaps (detailedScores evaluation) in
  let sh := run
    ([ str 2 2 (u8 "Monitoreo") ] ++ headerStyleM 2 2 ++
     [ str 2 3 (executiveName auditInput) ] ++ headerStyleM 2 3 ++
     [ str 2 4 (orStr (clientId auditInput) (executiveId auditInput)) ] ++ headerStyleM 2 4 ++
     [ str 3 2 (u8 "Bloques") ] ++ headerStyleM 3 2 ++
     [ str 3 3 (u8 "Rubros") ] ++ headerStyleM 3 3 ++
     [ str 3 4 (u8 "Ponderación") ] ++ headerStyleM 3 4) sh in
  let '(sh, currentRow) := monitoreoRows m criteria 4 sh in
  let totalStartRow := currentRow in
  let obsStartRow := (totalStartRow + 2)%nat in
  run [ str totalStartRow 3 (u8 "Total");
        setFont totalStartRow 3 (boldColor 12 WHITE_FONT);
        setFill totalStartRow 3 HEADER_RED;
        str totalStartRow 4 (scoreLine evaluation);
        setFont totalStartRow 4 (boldColor 12 WHITE_FONT);
        setFill totalStartRow 4 HEADER_RED;
        str obsStartRow 2 (u8 "Observaciones");
        setFont obsStartRow 2 (boldColor 11 WHITE_FONT);
        setFill obsStartRow 2 HEADER_RED;
        str obsStartRow 3 (monitoreoObservations evaluation);
        setFont obsStartRow 3 (plain 10) ] sh.

(** *** [generateExcelReport] *)

(** [workbook.xlsx.writeBuffer()], the serializer of the spreadsheet
    library.  It runs after the workbook is built and reads the clock again:
    the zip container it writes records a modification time for each of its
    entries.  The first argument is the clock at the time of the write. *)
Variable writeBuffer : Z -> Workbook -> list N.

Definition isMonitoreo (auditInput : AuditInput) : bool :=
  includes (trim (toUpperCase (callType auditInput))) (u8 "MONITOREO").

(** The workbook built when the clock reads [now] at [new Date()]. *)
Definition buildWorkbook (now : Z) (auditInput : AuditInput)
    (evaluation : EvaluationResult) : Workbook :=
  if isMonitoreo auditInput then
    {| creator := u8 "Audit AI System"; created := now;
       sheetName := u8 "Monitoreo";
       sheet := createMonitoreoSheet ∅ auditInput evaluation |}
  else
    {| creator := u8 "Audit AI System"; created := now;
       sheetName := u8 "Analisis";
       sheet := createAnalysisSheet ∅ auditInput evaluation |}.

(** [now] is the clock at [new Date()], [now'] the clock at the later
    [Date.now()] of the file name, [now''] the clock when [writeBuffer]
    runs. *)
Definition generateExcelReport (now now' now'' : Z) (auditInput : AuditInput)
    (evaluation : EvaluationResult) : jsstring * list N :=
  let workbook := buildWorkbook now auditInput evaluation in
  let cleanExecutiveId := sanitizeFilename (executiveId auditInput) in
  let filename := u8 "auditoria_" ++ cleanExecutiveId ++ u8 "_" ++ ofZ now' ++ u8 ".xlsx" in
  (filename, writeBuffer now'' workbook).

End Host.

End ExcelService.

(* ===================================================================== *)
(** * Notions used to state the properties                                *)
(* ===================================================================== *)

(** All topics of a catalog, in order, each with the block it belongs to. *)
Definition flatTopics (criteria : list EvaluationBlock)
  : list (EvaluationBlock * EvaluationTopic) :=
  flat_map (fun block => map (fun t => (block, t)) (topics block)) criteria.

(** The topics with [applies = true]. *)
Definition applicableTopics (criteria : list EvaluationBlock) : list EvaluationTopic :=
  List.filter applies (flat_map topics criteria).

(** The sum of [points] over a list of topics, defined when every one of
    them carries a number. *)
Fixpoint sumPoints (ts : list EvaluationTopic) : option Z :=
  match ts with
  | [] => Some 0%Z
  | t :: r =>
      match points t, sumPoints r with
      | Pts p, Some s => Some (p + s)%Z
      | _, _ => None
      end
  end.

(** ** Concrete inputs used in examples *)

(** A scorer that answers with the given [max_possible_score] and nothing
    else. *)
Definition answering (m : Q)
  : EvaluatorService.ScoringRequest
    -> option (EvaluatorService.Evaluation * option (Z * Z)) :=
  fun _ => Some (EvaluatorService.mkEvaluation [] 0 m 0 [] None None, None).

Definition inboundAudit : AuditInput :=
  mkAuditInput (u8 "Ana") (u8 "E1") (u8 "INBOUND") (u8 "C1") (u8 "2025-01-01") None None.

(** The text hashed into the key, for given file contents: the audio digest
    followed by the sorted image digests. *)
Definition keyMaterial (sha256 : list N -> jsstring) (audio : list N)
    (images : list (list N)) : jsstring :=
  sha256 audio ++ concat (CacheService.sort (map sha256 images)).

(** No two different members of [data] have the same digest. *)
Definition collisionFree (sha256 : list N -> jsstring) (data : list (list N)) : Prop :=
  Forall (fun x => Forall (fun y => sha256 x = sha256 y -> x = y) data) data.

(** A stand-in digest for examples (not SHA-256): 64 hexadecimal digits
    spelling the first 32 bytes, padded with zeros. *)
Definition hexDigit (n : N) : N := if n <? 10 then 0x30 + n else 0x61 + (n - 10).

Definition toyDigest (data : list N) : jsstring :=
  take 64 (flat_map (fun b => [hexDigit (b / 16 mod 16); hexDigit (b mod 16)]) data
           ++ replicate 64 0x30).

#[global] Instance collisionFree_dec sha256 data : Decision (collisionFree sha256 data).
Proof. unfold collisionFree. apply _. Defined.

(** A small world: one audio file and two images, no environment variable
    set, every artifact present, the clock at [t]. *)
Definition demoFiles (audio : list N) (path : jsstring) : option (list N) :=
  if bool_decide (path = u8 "call.mp3") then Some audio
  else if bool_decide (path = u8 "a.png") then Some [3; 4]
  else if bool_decide (path = u8 "b.png") then Some [5]
  else None.

Definition demoWorld (audio : list N) (t : Z) : CacheService.World :=
  CacheService.mkWorld (demoFiles audio) (fun _ => true) (fun _ => None) t.

Definition demoResult : EvaluationResult :=
  mkEvaluationResult 100 121 (100 # 121) [] [] [] [] None.

Definition demoJoin (dir file : jsstring) : jsstring := dir ++ u8 "/" ++ file.

(** ** Visual evidence: what an attempt amounts to *)

Module Visual.

Section Attempts.

Import EvaluatorService.

Variable Number_toString : Q -> jsstring.
Variable respond : nat -> nat -> Outcome.

Definition parsedOf (o : Outcome) : option Json :=
  match o with
  | Replied _ parsed => parsed
  | Threw => None
  end.

(** The key under which a parsed response is grouped: defined when the
    response has a truthy [system] and a truthy [data], and [system] does not
    name a member inherited from [Object.prototype]. *)
Definition groupKey (p : Json) : option jsstring :=
  match getProp p (u8 "system"), getProp p (u8 "data") with
  | Some (Some sys), Some (Some dat) =>
      if truthy sys && truthy dat then
        let k := toStringJ Number_toString sys in
        if bool_decide (k ∈ objectPrototypeKeys) then None else Some k
      else None
  | _, _ => None
  end.

(** The record pushed for a parsed response. *)
Definition recordOf (imagePath : jsstring) (p : Json) : VisualRecord :=
  {| vr_imagePath := imagePath;
     vr_data := default JNull (default None (getProp p (u8 "data")));
     vr_findings :=
       orElse (default None (getProp p (u8 "findings"))) (JArr []);
     vr_confidence :=
       orElse (default None (getProp p (u8 "confidence"))) (JNum (9 # 10));
     vr_critical_fields :=
       orElse (default None (getProp p (u8 "critical_fields"))) (JObj []) |}.

(** The response parsed and is grouped. *)
Definition accepted (o : Outcome) : bool :=
  match parsedOf o with
  | Some p => bool_decide (is_Some (groupKey p))
  | None => false
  end.

(** The attempts made for the image at index [i], by number. *)
Definition attemptsFor (i : nat) : list nat :=
  (if accepted (respond i 1) then [1]
   else if accepted (respond i 2) then [1; 2]
   else [1; 2; 3])%nat.

(** The accepted response for the image at index [i], if any of the first
    three is. *)
Definition firstAccepted (i : nat) : option Json :=
  if accepted (respond i 1) then parsedOf (respond i 1)
  else if accepted (respond i 2) then parsedOf (respond i 2)
  else if accepted (respond i 3) then parsedOf (respond i 3)
  else None.

(** Requests for one image, a one-second wait between consecutive ones. *)
Fixpoint spaced (i : nat) (attempts : list nat) : list Event :=
  match attempts with
  | [] => []
  | [k] => [Request i k]
  | k :: rest => Request i k :: Wait 1000 :: spaced i rest
  end.

Definition imageTrace (i : nat) : list Event := spaced i (attemptsFor i).

(** The grouping step for one image, given the evidence so far. *)
Definition grouped (ev : gmap jsstring (list VisualRecord)) (i : nat)
    (imagePath : jsstring) : gmap jsstring (list VisualRecord) :=
  match firstAccepted i ≫= groupKey with
  | Some k =>
      <[k := default [] (ev !! k)
             ++ [recordOf imagePath (default JNull (firstAccepted i))]]> ev
  | None => ev
  end.

End Attempts.

End Visual.

(** [e] is a request for the image at index [i]. *)
Definition isRequestFor (i : nat) (e : EvaluatorService.Event) : bool :=
  match e with
  | EvaluatorService.Request j _ => bool_decide (j = i)
  | EvaluatorService.Wait _ => false
  end.

(** Responses used in examples: image 0 is read badly twice (an exception,
    then an object without [data]) and well the third time; image 1 fails
    three times; image 2 is read well at once. *)
Definition goodResponse (system : string) : EvaluatorService.Json :=
  EvaluatorService.JObj
    [ (u8 "system", EvaluatorService.JStr (u8 system));
      (u8 "data", EvaluatorService.JObj [ (u8 "case_number", EvaluatorService.JStr (u8 "123")) ]) ].

Definition demoRespond (i k : nat) : EvaluatorService.Outcome :=
  match i, k with
  | 0, 1 => EvaluatorService.Threw
  | 0, 2 => EvaluatorService.Replied (Some (10, 5)%Z)
              (Some (EvaluatorService.JObj [ (u8 "system", EvaluatorService.JStr (u8 "FALCON")) ]))
  | 0, _ => EvaluatorService.Replied (Some (10, 5)%Z) (Some (goodResponse "FALCON"))
  | 1, _ => EvaluatorService.Replied None None
  | _, _ => EvaluatorService.Replied None (Some (goodResponse "VCAS"))
  end%nat.

(** ** Text normalization *)

(** Code units of Latin text: Basic Latin and Latin-1, the combining
    diacritical marks, white space. *)
Definition isLatinText (c : N) : bool :=
  (c <? 0x100) || ExcelService.isCombiningMark c || isSpace c.

Definition latinDomain : list N :=
  map N.of_nat (seq 0 256) ++ map (fun n => 0x300 + N.of_nat n) (seq 0 112)
  ++ [0x1680; 0x2000; 0x2001; 0x2002; 0x2003; 0x2004; 0x2005; 0x2006; 0x2007;
      0x2008; 0x2009; 0x200A; 0x2028; 0x2029; 0x202F; 0x205F; 0x3000; 0xFEFF].

(** A code unit that lower-casing, canonical decomposition and the removal of
    marks all leave alone. *)
Definition plainCh (c : N) : bool :=
  negb (ExcelService.isCombiningMark c) && (lower_cp c =? c)
  && bool_decide (decomp c = [c]) && (ccc c =? 0).

(** Every white-space code unit is a single U+0020 standing alone;
    [afterSpace] tells that the previous code unit was one. *)
Fixpoint collapsed (afterSpace : bool) (s : jsstring) : bool :=
  match s with
  | [] => true
  | c :: r =>
      if isSpace c then negb afterSpace && (c =? 0x20) && collapsed true r
      else collapsed false r
  end.

(** ** Reconciliation, in terms of the scorer's entries *)

(** The labels the serializer reads back from an entry's criterion text. *)
Definition parsedLabels (sc : DetailedScore) : option (jsstring * jsstring) :=
  (fun g => (trim g.1, trim g.2)) <$> ExcelService.matchCriterion (criterion sc).

(** The keys under which an entry is stored in [evaluationMap]: exact and
    normalized. *)
Definition keysOf (sc : DetailedScore) : list jsstring :=
  match parsedLabels sc with
  | Some (block, topic) =>
      [ ExcelService.pairKey block topic;
        ExcelService.pairKey (ExcelService.normalizeText block)
                             (ExcelService.normalizeText topic) ]
  | None => []
  end.

(** The last entry of the list that satisfies [P]: later entries overwrite
    earlier ones under the same key. *)
Definition lastWith (P : DetailedScore -> bool) (scores : list DetailedScore)
  : option DetailedScore :=
  List.find P (rev scores).

Definition hasKey (k : jsstring) (sc : DetailedScore) : bool :=
  bool_decide (k ∈ keysOf sc).

Definition hasTopic (topicName : jsstring) (sc : DetailedScore) : bool :=
  bool_decide (snd <$> parsedLabels sc = Some topicName).

Definition hasBlock (blockName : jsstring) (sc : DetailedScore) : bool :=
  bool_decide (fst <$> parsedLabels sc = Some blockName).

(** The literal scenario: one block "Closure" with the topic "Correct case
    closure", and a scorer entry whose topic label differs in case. *)
Definition closureTopic : EvaluationTopic :=
  mkTopic (u8 "Correct case closure") NoCritico (Pts 5) true.

Definition closureScore : DetailedScore :=
  mkDetailedScore (u8 "[Closure] correct case closure") 5 5
    (u8 "Agent confirmed next steps").

(** A topic of the FRAUD catalog that does not apply, and a scorer entry
    labelled exactly like it. *)
Definition hotlistTopic : EvaluationTopic :=
  mkTopic (u8 "Ingresa a HOTLIST_APROBAR") NoCritico NA false.

Definition hotlistScore : DetailedScore :=
  mkDetailedScore (u8 "[Falcon] Ingresa a HOTLIST_APROBAR") 5 5 (u8 "Visible en captura").

(** ** Reading a rendered worksheet *)

(** [numbered n l] pairs the elements of [l] with the values a counter that
    starts at [n] takes while a loop runs over [l]. *)
Fixpoint numbered {A} (n : nat) (l : list A) : list (nat * A) :=
  match l with
  | [] => []
  | x :: r => (n, x) :: numbered (S n) r
  end.

(** The assignments of a loop whose body is run once per element, with the
    counter as second argument. *)
Definition loopWrites {A} (body : A -> nat -> list ExcelService.Write)
    (n0 : nat) (l : list A) : list ExcelService.Write :=
  flat_map (fun p => body p.2 p.1) (numbered n0 l).

(** The topics of a catalog, in order, each with its block and its index
    within the block. *)
Definition indexedTopics (criteria : list EvaluationBlock)
  : list (EvaluationBlock * EvaluationTopic * nat) :=
  flat_map (fun block => map (fun p => (block, p.2, p.1)) (numbered 0 (topics block)))
    criteria.

Definition onCell (r c : nat) (w : ExcelService.Write) : bool :=
  Nat.eqb (ExcelService.w_col w) c && Nat.eqb (ExcelService.w_row w) r.

(** The cell at (r, c) after the assignments [ws], starting from [x]. *)
Definition cellAfter (ws : list ExcelService.Write) (r c : nat)
    (x : ExcelService.Cell) : ExcelService.Cell :=
  fold_left (fun x w => if onCell r c w then ExcelService.assign (ExcelService.w_what w) x
                        else x) ws x.

(** The styling part of a list of assignments: fonts and fills. *)
Definition isStyle (w : ExcelService.Write) : bool :=
  match ExcelService.w_what w with
  | ExcelService.AFont _ | ExcelService.AFill _ => true
  | _ => false
  end.

Definition styleOf (ws : list ExcelService.Write) : list ExcelService.Write :=
  List.filter isStyle ws.

(** How the score found for a topic, if any, compares with the topic's
    maximum and with zero. *)
Definition scoreClass (found : option DetailedScore) (t : EvaluationTopic)
  : option (bool * bool * bool) :=
  option_map (fun sc => (Qeq_bool (score sc) (ExcelService.maxPointsOf t),
                         Qeq_bool (score sc) 0,
                         Qle_bool (score sc) 0)) found.

(** Assignments that leave the note of a cell as it is. *)
Definition keepsNote (w : ExcelService.Write) : bool :=
  match ExcelService.w_what w with
  | ExcelService.ANote _ => false
  | _ => true
  end.

(** ** Concrete reports *)

(** A number renderer for examples: integers in decimal, anything else as
    numerator/denominator. *)
Definition showQ (q : Q) : jsstring :=
  match Qden q with
  | 1%positive => ofZ (Qnum q)
  | d => ofZ (Qnum q) ++ u8 "/" ++ ofZ (Zpos d)
  end.

Definition monitoreoAudit : AuditInput :=
  mkAuditInput (u8 "Ana") (u8 "E1") (u8 "MONITOREO") (u8 "C1") (u8 "2025-01-01") None None.

Definition biBlock : EvaluationBlock :=
  mkBlock (u8 "BI") [ mkTopic (u8 "Levantamiento correcto de ticket") NoCritico (Pts 10) true ].

Definition biTopic : EvaluationTopic :=
  mkTopic (u8 "Levantamiento correcto de ticket") NoCritico (Pts 10) true.

(** The scorer gives 5 of 10 to the BI topic, and 8 of 8 to the VRM topic
    with the justification 'No aplica'. *)
Definition biScore : DetailedScore :=
  mkDetailedScore (u8 "[BI] Levantamiento correcto de ticket") 5 10 (u8 "Ticket incompleto").

Definition vrmScore : DetailedScore :=
  mkDetailedScore (u8 "[VRM] Califica transacciones/Mantenimiento/Comentario") 8 8
    (u8 "No aplica").

Definition monitoreoEvaluation : EvaluationResult :=
  mkEvaluationResult 13 105 (1300 # 105) [biScore; vrmScore] [] [] [] None.


(** ** Result cache: the index is keyed by its entries *)

(** Every entry is stored under its own [cacheKey]. *)
Definition keyed (index : gmap jsstring CacheService.CacheEntry) : Prop :=
  forall k entry, index !! k = Some entry -> CacheService.cacheKey entry = k.

(** ** Concrete cache states *)

(** A process whose CACHE_MAX_AGE_HOURS is not a number. *)
Definition nanWorld : CacheService.World :=
  CacheService.mkWorld (demoFiles [1; 2]) (fun _ => true)
    (fun k => if bool_decide (k = u8 "CACHE_MAX_AGE_HOURS") then Some (u8 "siete") else None)
    900000000.

Definition oldEntry (key : jsstring) (ts : Z) : CacheService.CacheEntry :=
  CacheService.mkCacheEntry key ts demoResult (u8 "r.xlsx") [] [] (u8 "E1") (u8 "INBOUND").

(** Two entries, written at 0 ms and at 900 000 000 ms (250 hours later). *)
Definition twoEntries : CacheService.State :=
  CacheService.mkState
    (<[u8 "k1" := oldEntry (u8 "k1") 0]> (<[u8 "k2" := oldEntry (u8 "k2") 900000000]> ∅))
    ∅.

(** ** Criterion texts *)

(** The criterion text [evaluate] builds from the scorer's block and topic
    labels. *)
Definition criterionOf (block topic : jsstring) : jsstring :=
  u8 "[" ++ block ++ u8 "] " ++ topic.

(** No closing bracket and no line terminator. *)
Definition bracketFree (s : jsstring) : bool :=
  forallb (fun c => negb (c =? 0x5D) && negb (isLineTerminator c)) s.

Definition lineBreakFree (s : jsstring) : bool :=
  forallb (fun c => negb (isLineTerminator c)) s.

(** The one catalog topic (FRAUD and TH CONFIRMA, block 'Vcas') whose name
    spans two lines. *)
Definition reversaTopic : jsstring :=
  u8 "Valida compras por facturar y cortes para identificar la compra para aclaración."
  ++ 0x0A :: u8 "Valida que las compras no tengan una reversa".

(** A scorer that echoes that topic with a score of 3. *)
Definition reversaEntry : EvaluatorService.ScoredEntry :=
  EvaluatorService.mkScoredEntry (u8 "Vcas") reversaTopic 3 3 (u8 "Validado").

Definition cierreEntry : EvaluatorService.ScoredEntry :=
  EvaluatorService.mkScoredEntry (u8 "Falcon") (u8 "Cierre correcto del caso") 5 5
    (u8 "Caso cerrado").

Definition echoing (entries : list EvaluatorService.ScoredEntry)
  : EvaluatorService.ScoringRequest
    -> option (EvaluatorService.Evaluation * option (Z * Z)) :=
  fun _ => Some (EvaluatorService.mkEvaluation entries 0 0 0 [] None None, Some (100, 20)%Z).

(** ** File names *)

(** Letters, digits, underscore, hyphen and full stop. *)
Definition safeChar (c : N) : bool :=
  ExcelService.isWordChar c || (c =? 0x2D) || (c =? 0x2E).

(** ** Token accounting *)

(** The tokens a reply reports: nothing when the call threw or the reply
    carried no [usage]. *)
Definition usageOf (o : EvaluatorService.Outcome) : Z * Z :=
  match o with
  | EvaluatorService.Replied (Some u) _ => u
  | _ => (0, 0)%Z
  end.

(** Input and output tokens reported over the requests of a trace. *)
Fixpoint billed (respond : nat -> nat -> EvaluatorService.Outcome)
    (tr : list EvaluatorService.Event) : Z * Z :=
  match tr with
  | [] => (0, 0)%Z
  | EvaluatorService.Request i k :: r =>
      ((usageOf (respond i k)).1 + (billed respond r).1,
       (usageOf (respond i k)).2 + (billed respond r).2)%Z
  | EvaluatorService.Wait _ :: r => billed respond r
  end.


(** ** Layout *)

(** The block of labels of the horizontal sheet: rows 1 to 4, columns 1
    to 8. *)
Definition inHeaderBlock (w : ExcelService.Write) : bool :=
  (1 <=? ExcelService.w_row w)%nat && (ExcelService.w_row w <=? 4)%nat
  && (1 <=? ExcelService.w_col w)%nat && (ExcelService.w_col w <=? 8)%nat.

(** A serializer that stamps its output with the clock at the time of the
    write, next to the workbook's own [created], as the zip container of the
    spreadsheet library stamps its entries. *)
Definition stampingWriter (clock : Z) (w : ExcelService.Workbook) : list N :=
  ofZ (ExcelService.created w) ++ u8 "/" ++ ofZ clock.

(* ===================================================================== *)
(** * Properties                                                          *)
(* ===================================================================== *)

(** ** Strings *)

Example u8_accents : u8 "Crítico" = [0x43; 0x72; 0xED; 0x74; 0x69; 0x63; 0x6F].
Proof. reflexivity. Qed.

Example ofZ_105 : ofZ 105 = u8 "105" /\ ofZ 0 = u8 "0" /\ ofZ (-7) = u8 "-7".
Proof. repeat split; reflexivity. Qed.

Example nfd_precomposed : nfd (u8 "ñé") = [0x6E; 0x303; 0x65; 0x301].
Proof. reflexivity. Qed.

Example nfd_reorders : nfd [0x61; 0x301; 0x323] = [0x61; 0x323; 0x301].
Proof. reflexivity. Qed.

Example upper_sharp_s : toUpperCase (u8 "straße") = u8 "STRASSE".
Proof. reflexivity. Qed.

(** Boolean comparisons on code units, turned into arithmetic. *)
Ltac unbool :=
  repeat match goal with
    | H : _ && _ = true |- _ => apply andb_true_iff in H; destruct H
    | H : _ || _ = true |- _ => apply orb_true_iff in H; destruct H
    | H : _ || _ = false |- _ => apply orb_false_iff in H; destruct H
    | H : negb _ = true |- _ => apply negb_true_iff in H
    | H : negb _ = false |- _ => apply negb_false_iff in H
    | H : (_ =? _) = true |- _ => apply N.eqb_eq in H
    | H : (_ =? _) = false |- _ => apply N.eqb_neq in H
    | H : (_ <=? _) = true |- _ => apply N.leb_le in H
    | H : (_ <=? _) = false |- _ => apply N.leb_gt in H
    | H : (_ <? _) = true |- _ => apply N.ltb_lt in H
    | H : (_ <? _) = false |- _ => apply N.ltb_ge in H
    end.

(** A decidable proposition settled by evaluating its decision procedure. *)
Tactic Notation "computing" constr(P) :=
  apply (proj1 (bool_decide_eq_true P)); vm_compute; reflexivity.

(** A property of code units below 256, decided by enumeration. *)
Lemma below_256 (P : N -> bool) :
  forallb P (map N.of_nat (seq 0 256)) = true ->
  forall c, c < 256 -> P c = true.
Proof.
  intros H c Hc. rewrite forallb_forall in H. apply H.
  apply in_map_iff. exists (N.to_nat c). split; [lia|].
  apply in_seq. lia.
Qed.

Lemma trimStart_spaces w s :
  forallb isSpace w = true -> trimStart (w ++ s) = trimStart s.
Proof.
  induction w as [|c w IH]; simpl; [done|].
  intros H. apply andb_true_iff in H as [-> H]. auto.
Qed.

Lemma trimStart_only_spaces w : forallb isSpace w = true -> trimStart w = [].
Proof.
  intros H. rewrite <- (app_nil_r w). by rewrite trimStart_spaces.
Qed.

Lemma trimStart_app s w :
  trimStart s <> [] -> trimStart (s ++ w) = trimStart s ++ w.
Proof.
  induction s as [|c s IH]; simpl; [done|].
  destruct (isSpace c); auto.
Qed.

Lemma trimStart_nil_spaces s : trimStart s = [] -> forallb isSpace s = true.
Proof.
  induction s as [|c s IH]; simpl; [done|].
  destruct (isSpace c); [auto|done].
Qed.

Lemma forallb_rev {A} (p : A -> bool) l : forallb p (rev l) = forallb p l.
Proof.
  induction l as [|x l IH]; simpl; [done|].
  rewrite forallb_app, IH. simpl. rewrite andb_true_r. apply andb_comm.
Qed.

Lemma trimEnd_spaces s w :
  forallb isSpace w = true -> trimEnd (s ++ w) = trimEnd s.
Proof.
  intros H. unfold trimEnd. rewrite rev_app_distr, trimStart_spaces; [done|].
  by rewrite forallb_rev.
Qed.

Lemma trim_surrounding w1 s w2 :
  forallb isSpace w1 = true -> forallb isSpace w2 = true ->
  trim (w1 ++ s ++ w2) = trim s.
Proof.
  intros H1 H2. unfold trim. rewrite trimStart_spaces by done.
  destruct (trimStart s) as [|c t] eqn:E.
  - rewrite trimStart_only_spaces; [done|].
    rewrite forallb_app, H2, andb_true_r. by apply trimStart_nil_spaces.
  - rewrite trimStart_app by (by rewrite E). rewrite E. by apply trimEnd_spaces.
Qed.

Lemma upper_lower_cp c : upper_cp (lower_cp c) = upper_cp c.
Proof.
  destruct (c <? 256) eqn:E.
  - apply N.ltb_lt in E. revert c E.
    assert (H := below_256 (fun c => bool_decide (upper_cp (lower_cp c) = upper_cp c))).
    intros c Hc. specialize (H ltac:(by vm_compute) c Hc).
    by apply bool_decide_eq_true in H.
  - apply N.ltb_ge in E. unfold lower_cp.
    replace (0x41 <=? c) with true by (symmetry; apply N.leb_le; lia).
    replace (c <=? 0x5A) with false by (symmetry; apply N.leb_gt; lia).
    replace (c <=? 0xDE) with false by (symmetry; apply N.leb_gt; lia).
    by rewrite ?andb_false_r.
Qed.

Lemma toUpperCase_toLowerCase s : toUpperCase (toLowerCase s) = toUpperCase s.
Proof.
  unfold toUpperCase, toLowerCase. induction s as [|c s IH]; simpl; [done|].
  by rewrite upper_lower_cp, IH.
Qed.

Lemma upper_cp_space c : isSpace c = true -> upper_cp c = [c].
Proof.
  intros H. destruct (c <? 256) eqn:E.
  - apply N.ltb_lt in E. revert H.
    assert (A := below_256
      (fun c => implb (isSpace c) (bool_decide (upper_cp c = [c])))).
    specialize (A ltac:(by vm_compute) c E).
    cbv beta in A. intros H. rewrite H in A. simpl in A.
    by apply bool_decide_eq_true in A.
  - apply N.ltb_ge in E. unfold upper_cp.
    replace (c <=? 0x7A) with false by (symmetry; apply N.leb_gt; lia).
    replace (c <=? 0xFE) with false by (symmetry; apply N.leb_gt; lia).
    rewrite !andb_false_r. simpl.
    replace (c =? 0xB5) with false by (symmetry; apply N.eqb_neq; lia).
    replace (c =? 0xDF) with false by (symmetry; apply N.eqb_neq; lia).
    replace (c =? 0xFF) with false by (symmetry; apply N.eqb_neq; lia).
    destruct (c =? 0x345) eqn:E'; [|done].
    apply N.eqb_eq in E'. subst c. by vm_compute in H.
Qed.

Lemma toUpperCase_spaces w : forallb isSpace w = true -> toUpperCase w = w.
Proof.
  unfold toUpperCase. induction w as [|c w IH]; simpl; [done|].
  intros H. apply andb_true_iff in H as [Hc H].
  by rewrite upper_cp_space, IH.
Qed.

Lemma toUpperCase_app a b : toUpperCase (a ++ b) = toUpperCase a ++ toUpperCase b.
Proof. apply flat_map_app. Qed.

(** ** Criteria catalog *)

Example select_inbound : getCriteriaForCallType (u8 "INBOUND") = FRAUD_CRITERIA.
Proof. reflexivity. Qed.

Example select_monitoreo_mixed_case :
  getCriteriaForCallType (u8 "  Monitoreo de fraude ") = MONITOREO_CRITERIA.
Proof. reflexivity. Qed.

Example select_empty : getCriteriaForCallType [] = FRAUD_CRITERIA.
Proof. reflexivity. Qed.

Lemma catalogs_distinct :
  MONITOREO_CRITERIA <> FRAUD_CRITERIA /\ MONITOREO_CRITERIA <> TH_CONFIRMA_CRITERIA
  /\ FRAUD_CRITERIA <> TH_CONFIRMA_CRITERIA.
Proof.
  split; [|split].
  - apply (bool_decide_eq_false (MONITOREO_CRITERIA = FRAUD_CRITERIA)). by vm_compute.
  - apply (bool_decide_eq_false (MONITOREO_CRITERIA = TH_CONFIRMA_CRITERIA)). by vm_compute.
  - apply (bool_decide_eq_false (FRAUD_CRITERIA = TH_CONFIRMA_CRITERIA)). by vm_compute.
Qed.

Lemma getCriteriaForCallType_upper a b :
  toUpperCase a = toUpperCase b ->
  getCriteriaForCallType a = getCriteriaForCallType b.
Proof. unfold getCriteriaForCallType. by intros ->. Qed.

(** C8, as the code has it.  The statement is about
    [getCriteriaForCallTypeWith], the code's function with the built-in
    upper-casing [upper] as a parameter, so it holds for every input string
    whatever the built-in returns for it.  The function returns one of the
    three catalogs; with [n] the upper-cased, trimmed input, the keywords
    are tried as substrings of [n] in the order MONITOREO, FRAUDE,
    TH CONFIRMA / TH_CONFIRMA, and the FRAUD catalog is the default.  The
    choice depends on the input only through its upper-casing, so two
    inputs with the same upper-casing select the same catalog, and white
    space around the input is ignored when the upper-casing leaves it in
    place, as the built-in does.  On the upper-casing table of [JsString]
    the function is [getCriteriaForCallType], and there two inputs of the
    modelled fragment that differ only in letter case select the same
    catalog.  White space inside the input is significant. *)
Theorem getCriteriaForCallType_total_priority
    (upper : jsstring -> jsstring) (callType : jsstring) :
  let n := trim (upper callType) in
  let selected := getCriteriaForCallTypeWith upper callType in
  (selected = MONITOREO_CRITERIA \/ selected = FRAUD_CRITERIA
   \/ selected = TH_CONFIRMA_CRITERIA)
  /\ (includes n (u8 "MONITOREO") = true -> selected = MONITOREO_CRITERIA)
  /\ (includes n (u8 "MONITOREO") = false -> includes n (u8 "FRAUDE") = true ->
      selected = FRAUD_CRITERIA)
  /\ (includes n (u8 "MONITOREO") = false -> includes n (u8 "FRAUDE") = false ->
      includes n (u8 "TH CONFIRMA") = true \/ includes n (u8 "TH_CONFIRMA") = true ->
      selected = TH_CONFIRMA_CRITERIA)
  /\ (includes n (u8 "MONITOREO") = false -> includes n (u8 "FRAUDE") = false ->
      includes n (u8 "TH CONFIRMA") = false -> includes n (u8 "TH_CONFIRMA") = false ->
      selected = FRAUD_CRITERIA)
  /\ (forall other,
        upper other = upper callType ->
        getCriteriaForCallTypeWith upper other = selected)
  /\ (forall before after,
        forallb isSpace before = true -> forallb isSpace after = true ->
        upper (before ++ callType ++ after) = before ++ upper callType ++ after ->
        getCriteriaForCallTypeWith upper (before ++ callType ++ after) = selected)
  /\ getCriteriaForCallType callType
     = getCriteriaForCallTypeWith toUpperCase callType
  /\ (forall other,
        forallb inFragment callType = true -> forallb inFragment other = true ->
        toLowerCase other = toLowerCase callType ->
        getCriteriaForCallType other = getCriteriaForCallType callType)
  /\ (forall before after,
        forallb isSpace before = true -> forallb isSpace after = true ->
        toUpperCase (before ++ callType ++ after)
        = before ++ toUpperCase callType ++ after).
Proof.
  intros n selected. subst selected. unfold getCriteriaForCallTypeWith. fold n.
  split; [|split; [|split; [|split; [|split; [|split; [|split; [|split; [|split]]]]]]]].
  - destruct (includes n (u8 "MONITOREO")); [by left|].
    destruct (includes n (u8 "FRAUDE")); [right; by left|].
    destruct (_ || _); [right; right | right; left]; done.
  - by intros ->.
  - by intros -> ->.
  - intros -> -> [-> | ->]; [done|]. by rewrite orb_true_r.
  - by intros -> -> -> ->.
  - intros other Hu. subst n. by rewrite Hu.
  - intros before after Hb Ha Hu. subst n.
    by rewrite Hu, trim_surrounding.
  - reflexivity.
  - intros other _ _ Hl. apply getCriteriaForCallType_upper.
    by rewrite <- (toUpperCase_toLowerCase other), Hl, toUpperCase_toLowerCase.
  - intros before after Hb Ha.
    rewrite !toUpperCase_app.
    by rewrite (toUpperCase_spaces before), (toUpperCase_spaces after).
Qed.

Lemma getCriteriaForCallType_total_priority_witness :
  getCriteriaForCallType (u8 "th confirma") = TH_CONFIRMA_CRITERIA
  /\ getCriteriaForCallType (u8 " Fraude / Monitoreo ") = MONITOREO_CRITERIA
  /\ getCriteriaForCallType (u8 "OUTBOUND") = FRAUD_CRITERIA
  /\ getCriteriaForCallType (u8 "monitoreo") = getCriteriaForCallType (u8 "MONITOREO")
  /\ getCriteriaForCallType ([0x20; 0x09] ++ u8 "FRAUDE" ++ [0x0A])
     = getCriteriaForCallType (u8 "FRAUDE").
Proof.
  split; [|split; [|split; [|split]]].
  - destruct (getCriteriaForCallType_total_priority toUpperCase (u8 "th confirma"))
      as (_ & _ & _ & H & _).
    apply H; [reflexivity | reflexivity | left; reflexivity].
  - destruct (getCriteriaForCallType_total_priority toUpperCase
                (u8 " Fraude / Monitoreo ")) as (_ & H & _).
    apply H; reflexivity.
  - destruct (getCriteriaForCallType_total_priority toUpperCase (u8 "OUTBOUND"))
      as (_ & _ & _ & _ & H & _).
    apply H; reflexivity.
  - destruct (getCriteriaForCallType_total_priority toUpperCase (u8 "MONITOREO"))
      as (_ & _ & _ & _ & _ & _ & _ & _ & H & _).
    apply H; reflexivity.
  - destruct (getCriteriaForCallType_total_priority toUpperCase (u8 "FRAUDE"))
      as (_ & _ & _ & _ & _ & _ & H & _).
    apply (H [0x20; 0x09] [0x0A]); reflexivity.
Defined.

(** C8, counterexample to the reading "insensitive to white space": two
    inputs that differ only in the amount of white space between TH and
    CONFIRMA select different catalogs. *)
Lemma getCriteriaForCallType_inner_whitespace :
  getCriteriaForCallType (u8 "TH  CONFIRMA") = FRAUD_CRITERIA
  /\ getCriteriaForCallType (u8 "TH CONFIRMA") = TH_CONFIRMA_CRITERIA
  /\ getCriteriaForCallType (u8 "TH  CONFIRMA") <> getCriteriaForCallType (u8 "TH CONFIRMA").
Proof.
  split; [reflexivity|]. split; [reflexivity|].
  change (FRAUD_CRITERIA <> TH_CONFIRMA_CRITERIA). apply catalogs_distinct.
Qed.

(** ** Evaluator: the maximum score *)

Import EvaluatorService.

Example maxPossibleScore_fraud :
  maxPossibleScoreOf (topicsToEvaluate FRAUD_CRITERIA) = Num 121
  /\ sumPoints (applicableTopics FRAUD_CRITERIA) = Some 121%Z.
Proof. split; reflexivity. Qed.

Example maxPossibleScore_th_confirma :
  maxPossibleScoreOf (topicsToEvaluate TH_CONFIRMA_CRITERIA) = Num 126
  /\ sumPoints (applicableTopics TH_CONFIRMA_CRITERIA) = Some 126%Z.
Proof. split; reflexivity. Qed.

(** The MONITOREO catalog has three applicable topics whose [points] is
    ['n/a']; the reduction then concatenates text. *)
Example maxPossibleScore_monitoreo :
  maxPossibleScoreOf (topicsToEvaluate MONITOREO_CRITERIA) = Str (u8 "105n/an/an/a")
  /\ sumPoints (applicableTopics MONITOREO_CRITERIA) = None.
Proof. split; reflexivity. Qed.

Lemma topicsToEvaluate_applicable criteria :
  map te_maxScore (topicsToEvaluate criteria)
  = map (fun t => pointsVal (points t)) (applicableTopics criteria).
Proof.
  unfold topicsToEvaluate, applicableTopics.
  induction criteria as [|b bs IH]; simpl; [done|].
  rewrite map_app, List.filter_app, map_app, IH. f_equal.
  by rewrite map_map.
Qed.

Lemma reduce_numeric (vs : list JsVal) (acc : Z) (ts : list EvaluationTopic) total :
  vs = map (fun t => pointsVal (points t)) ts ->
  sumPoints ts = Some total ->
  fold_left js_add vs (Num acc) = Num (acc + total).
Proof.
  intros ->. revert acc total.
  induction ts as [|t ts IH]; simpl; intros acc total H.
  - injection H as <-. f_equal. lia.
  - destruct (points t) as [p|]; [|done].
    destruct (sumPoints ts) as [s|]; [|done].
    injection H as <-. simpl. rewrite (IH _ s) by done. f_equal. lia.
Qed.

Lemma fold_left_mapped {A B C} (g : A -> B -> A) (f : C -> B) l a :
  fold_left (fun acc x => g acc (f x)) l a = fold_left g (map f l) a.
Proof. revert a. induction l as [|x l IH]; simpl; auto. Qed.

Lemma maxPossibleScoreOf_sum criteria total :
  sumPoints (applicableTopics criteria) = Some total ->
  maxPossibleScoreOf (topicsToEvaluate criteria) = Num total.
Proof.
  intros H. unfold maxPossibleScoreOf.
  rewrite (fold_left_mapped js_add te_maxScore).
  by rewrite (reduce_numeric _ 0 _ total (topicsToEvaluate_applicable criteria) H).
Qed.

(** C1, as the code has it.  For the catalog selected for the audit, the
    maximum score placed in the one scoring request is computed from the
    catalog alone; whenever every applicable topic carries a number (the
    FRAUD and TH CONFIRMA catalogs, with sums 121 and 126) it is the sum of
    [points] over the topics with [applies = true], whatever the scorer
    answers.  [evaluate] returns a result exactly when the scorer answers,
    and the [maxPossibleScore] it reports is the [max_possible_score] field
    of that answer. *)
Theorem evaluate_maxPossibleScore
    (Number_toString : Q -> jsstring) (respond : nat -> nat -> Outcome)
    (scorer : ScoringRequest -> option (Evaluation * option (Z * Z)))
    (auditInput : AuditInput) (transcript : TranscriptResult) :
  let criteria := getCriteriaForCallType (callType auditInput) in
  let ex := extractVisualEvidenceEnhanced Number_toString respond
              (default [] (imagePaths auditInput)) in
  let request := buildRequest criteria (evidence ex)
                   (extractVerbalEvidence transcript) auditInput in
  let answer := evaluate Number_toString respond scorer auditInput transcript in
  rq_topics request = topicsToEvaluate criteria
  /\ rq_maxScore request = maxPossibleScoreOf (topicsToEvaluate criteria)
  /\ (forall total, sumPoints (applicableTopics criteria) = Some total ->
      rq_maxScore request = Num total)
  /\ (criteria = FRAUD_CRITERIA -> rq_maxScore request = Num 121)
  /\ (criteria = TH_CONFIRMA_CRITERIA -> rq_maxScore request = Num 126)
  /\ (forall evaluation u, scorer request = Some (evaluation, u) ->
      exists res, answer = Some res
                  /\ maxPossibleScore res = max_possible_score evaluation)
  /\ (scorer request = None -> answer = None).
Proof.
  intros criteria ex request answer.
  split; [done|]. split; [done|]. split; [|split; [|split; [|split]]].
  - intros total H. by apply maxPossibleScoreOf_sum.
  - intros E. simpl. rewrite E. reflexivity.
  - intros E. simpl. rewrite E. reflexivity.
  - intros evaluation u H. subst answer. unfold evaluate, evaluateWithEnhancedMatching.
    fold criteria. fold ex. fold request. rewrite H. simpl. eexists. split; done.
  - intros H. subst answer. unfold evaluate, evaluateWithEnhancedMatching.
    fold criteria. fold ex. fold request. by rewrite H.
Qed.

Lemma evaluate_maxPossibleScore_witness :
  exists res,
    evaluate (fun _ => []) (fun _ _ => Threw) (answering (inject_Z 121))
      inboundAudit (mkTranscript [] []) = Some res
    /\ maxPossibleScore res = inject_Z 121.
Proof.
  destruct (evaluate_maxPossibleScore (fun _ => []) (fun _ _ => Threw)
              (answering (inject_Z 121)) inboundAudit (mkTranscript [] []))
    as (_ & _ & _ & _ & _ & H & _).
  apply (H (mkEvaluation [] 0 (inject_Z 121) 0 [] None None) None).
  reflexivity.
Defined.

(** C1, counterexample: on an INBOUND audit (FRAUD catalog, whose applicable
    points sum to 121) a scorer that answers [max_possible_score = 0] makes
    [evaluate] report 0. *)
Lemma evaluate_reports_scorer_value :
  exists res,
    evaluate (fun _ => []) (fun _ _ => Threw) (answering 0)
      inboundAudit (mkTranscript [] []) = Some res
    /\ sumPoints (applicableTopics (getCriteriaForCallType (callType inboundAudit)))
       = Some 121%Z
    /\ ~ (maxPossibleScore res == inject_Z 121).
Proof.
  eexists. split; [reflexivity|]. split; [reflexivity|]. simpl. intros H. discriminate H.
Qed.

(** ** Evaluator: verbal evidence *)

Example verbal_evidence_example :
  extractVerbalEvidence
    (mkTranscript []
       [ mkUtterance 1000 2000 (u8 "Buenos días, gracias por llamar") (u8 "A");
         mkUtterance 3000 4000 (u8 "La TARJETA") (u8 "B");
         mkUtterance 65000 70000 (u8 "Mi tarjeta fue bloqueada ayer") (u8 "B");
         mkUtterance 71000 72000 (u8 "Entiendo perfectamente, un momento") (u8 "A") ])
  = [ u8 "[00:01] A: " ++ [0x22] ++ u8 "Buenos días, gracias por llamar" ++ [0x22];
      u8 "[01:05] B: " ++ [0x22] ++ u8 "Mi tarjeta fue bloqueada ayer" ++ [0x22] ].
Proof. reflexivity. Qed.

Lemma extractVerbalEvidence_fold (keep : Utterance -> bool)
    (us : list Utterance) (acc : list jsstring) :
  fold_left
    (fun evidence utt =>
       if keep utt then evidence ++ [evidenceLine utt] else evidence) us acc
  = acc ++ map evidenceLine (List.filter keep us).
Proof.
  revert acc. induction us as [|u us IH]; intros acc; simpl.
  - by rewrite app_nil_r.
  - rewrite IH. destruct (keep u); simpl; [|done].
    by rewrite <- app_assoc.
Qed.



(** ** Result cache: the key *)

Import CacheService.

Section CacheKey.

Variable sha256 : bytes -> jsstring.

#[local] Abbreviation calculateFileHash := (calculateFileHash sha256).
#[local] Abbreviation generateCacheKey := (generateCacheKey sha256).
#[local] Abbreviation combine := (combine sha256).

Lemma strLe_total a b : strLe a b = true \/ strLe b a = true.
Proof.
  revert b. induction a as [|x a IH]; intros [|y b]; simpl; auto.
  destruct (N.lt_trichotomy x y) as [H | [H | H]].
  - left. apply N.ltb_lt in H. by rewrite H.
  - subst y. rewrite N.eqb_refl, N.ltb_irrefl. simpl. apply IH.
  - right. apply N.ltb_lt in H. by rewrite H.
Qed.

Lemma strLe_trans a b c : strLe a b = true -> strLe b c = true -> strLe a c = true.
Proof.
  revert b c. induction a as [|x a IH]; intros [|y b] [|z c]; simpl; try done.
  intros H1 H2. unbool; subst; apply orb_true_iff.
  - left. apply N.ltb_lt. lia.
  - left. by apply N.ltb_lt.
  - left. by apply N.ltb_lt.
  - right. rewrite N.eqb_refl. simpl. eauto.
Qed.

Lemma strLe_antisym a b : strLe a b = true -> strLe b a = true -> a = b.
Proof.
  revert b. induction a as [|x a IH]; intros [|y b]; simpl; try done.
  intros H1 H2. unbool; subst; try lia. f_equal. auto.
Qed.

#[local] Instance strOrder_total : Total strOrder.
Proof.
  intros a b. unfold strOrder.
  destruct (strLe_total a b) as [-> | ->]; simpl; auto.
Qed.

#[local] Instance strOrder_trans : Transitive strOrder.
Proof.
  intros a b c H1 H2. unfold strOrder in *.
  apply Is_true_true. eapply strLe_trans; by apply Is_true_true.
Qed.

#[local] Instance strOrder_antisym : AntiSymm (=) strOrder.
Proof.
  intros a b H1 H2. unfold strOrder in *. apply strLe_antisym; by apply Is_true_true.
Qed.

Lemma sort_Permutation l : sort l ≡ₚ l.
Proof. apply (merge_sort_Permutation strOrder). Qed.

Lemma sort_permuted l l' : l ≡ₚ l' -> sort l = sort l'.
Proof.
  intros H. apply (Sorted_unique strOrder).
  - apply (Sorted_merge_sort strOrder).
  - apply (Sorted_merge_sort strOrder).
  - by rewrite !sort_Permutation.
Qed.

(** Reading a permuted list of files fails or succeeds alike, and yields
    permuted digests. *)
Definition alike (o o' : option (list jsstring)) : Prop :=
  match o, o' with
  | Some k, Some k' => k ≡ₚ k'
  | None, None => True
  | _, _ => False
  end.

Lemma mapM_permuted (f : jsstring -> option jsstring) l l' :
  l ≡ₚ l' -> alike (mapM f l) (mapM f l').
Proof.
  induction 1 as [|x l l' _ IH|x y l|l l' l'' _ IH1 _ IH2]; simpl.
  - done.
  - destruct (f x); simpl; [|done]. unfold alike in IH.
    destruct (mapM f l), (mapM f l'); simpl; try done. by constructor.
  - destruct (f x), (f y); simpl; try done.
    destruct (mapM f l); simpl; [|done]. apply perm_swap.
  - unfold alike in *.
    destruct (mapM f l), (mapM f l'), (mapM f l''); try done. by etrans.
Qed.

Lemma generateCacheKey_permuted (w : World) audioPath imagePaths imagePaths' :
  imagePaths ≡ₚ imagePaths' ->
  generateCacheKey w audioPath imagePaths = generateCacheKey w audioPath imagePaths'.
Proof.
  intros H. unfold CacheService.generateCacheKey.
  destruct (calculateFileHash w audioPath) as [h|]; simpl; [|done].
  pose proof (mapM_permuted (calculateFileHash w) _ _ H) as A. unfold alike in A.
  destruct (mapM _ imagePaths), (mapM _ imagePaths'); simpl; try done.
  by rewrite (sort_permuted _ _ A).
Qed.

Lemma mapM_calculateFileHash (w : World) paths :
  mapM (calculateFileHash w) paths = map sha256 <$> mapM (readFileSync w) paths.
Proof.
  unfold CacheService.calculateFileHash.
  induction paths as [|p ps IH]; simpl; [done|].
  destruct (readFileSync w p); simpl; [|done].
  rewrite IH. by destruct (mapM (readFileSync w) ps).
Qed.

(** Chunks of one fixed positive length are recovered from their
    concatenation. *)
Lemma concat_chunks_inj (n : nat) (l l' : list jsstring) :
  (0 < n)%nat ->
  Forall (fun h => length h = n) l -> Forall (fun h => length h = n) l' ->
  concat l = concat l' -> l = l'.
Proof.
  intros Hn Hl. revert l'. induction Hl as [|h l Hh Hl IH]; intros l' Hl' E.
  - destruct Hl' as [|h' l' Hh' _]; [done|]. simpl in E.
    destruct h'; simpl in *; [lia|done].
  - destruct Hl' as [|h' l' Hh' Hl'].
    + simpl in E. destruct h; simpl in *; [lia|done].
    + simpl in E. apply app_inj_1 in E as [-> E]; [|lia]. f_equal. by apply IH.
Qed.

Lemma replaced_not_permuted (l : list bytes) (i : nat) (x x' : bytes) :
  l !! i = Some x -> x <> x' -> ~ (l ≡ₚ <[i := x']> l).
Proof.
  intros Hi Hne HP.
  apply (Permutation_count_occ (fun a b : bytes => decide (a = b))) with (x := x) in HP.
  revert HP. clear -Hi Hne. revert i Hi.
  induction l as [|y l IH]; intros [|i] Hi; simpl in *; try done.
  - injection Hi as ->.
    destruct (decide (x = x)); [|done].
    destruct (decide (x' = x)); [by subst|]. lia.
  - intros HP. apply (IH i Hi).
    destruct (decide (y = x)); lia.
Qed.

(** C4.  The key is the digest of the audio digest followed by the sorted
    image digests, and exists exactly when every file can be read.  It does
    not change when the image paths are permuted.  Digests being 64
    characters long, and barring a SHA-256 collision among the data at hand,
    two keys are equal only if the audio contents are equal and the image
    contents are the same up to order; so a change of the audio content, or
    of one image file, changes the key, and contents given as audio are
    never confused with contents given as image. *)
Theorem generateCacheKey_content_addressed (w : World)
    (audioPath : jsstring) (imagePaths : list jsstring) :
  generateCacheKey w audioPath imagePaths
  = (audio ← readFileSync w audioPath;
     images ← mapM (readFileSync w) imagePaths;
     Some (sha256 (keyMaterial sha256 audio images)))
  /\ (forall imagePaths', imagePaths ≡ₚ imagePaths' ->
       generateCacheKey w audioPath imagePaths'
       = generateCacheKey w audioPath imagePaths)
  /\ (forall (w' : World) audioPath' imagePaths' audio images audio' images',
        readFileSync w audioPath = Some audio ->
        mapM (readFileSync w) imagePaths = Some images ->
        readFileSync w' audioPath' = Some audio' ->
        mapM (readFileSync w') imagePaths' = Some images' ->
        (forall data, length (sha256 data) = 64%nat) ->
        collisionFree sha256
          ([audio; audio'] ++ images ++ images'
           ++ [keyMaterial sha256 audio images; keyMaterial sha256 audio' images']) ->
        (generateCacheKey w audioPath imagePaths
         = generateCacheKey w' audioPath' imagePaths' ->
         audio = audio' /\ images ≡ₚ images')
        /\ (audio <> audio' ->
            generateCacheKey w audioPath imagePaths
            <> generateCacheKey w' audioPath' imagePaths')
        /\ (forall i x x', images !! i = Some x -> x <> x' ->
            images' = <[i := x']> images ->
            generateCacheKey w audioPath imagePaths
            <> generateCacheKey w' audioPath' imagePaths')
        /\ (imagePaths = [audioPath'] -> imagePaths' = [audioPath] ->
            audio <> audio' ->
            generateCacheKey w audioPath imagePaths
            <> generateCacheKey w' audioPath' imagePaths')).
Proof.
  assert (Hformula : forall (v : World) a ps,
    generateCacheKey v a ps
    = (audio ← readFileSync v a; images ← mapM (readFileSync v) ps;
       Some (sha256 (keyMaterial sha256 audio images)))).
  { intros v a ps. unfold CacheService.generateCacheKey.
    rewrite mapM_calculateFileHash. unfold CacheService.calculateFileHash.
    destruct (readFileSync v a); simpl; [|done].
    by destruct (mapM (readFileSync v) ps). }
  split; [apply Hformula|]. split.
  { intros imagePaths' H. symmetry. by apply generateCacheKey_permuted. }
  intros w' audioPath' imagePaths' audio images audio' images' Ha Hi Ha' Hi' Hlen Hfree.
  assert (Hinj : generateCacheKey w audioPath imagePaths
                 = generateCacheKey w' audioPath' imagePaths' ->
                 audio = audio' /\ images ≡ₚ images').
  { rewrite !Hformula, Ha, Hi, Ha', Hi'. simpl. intros E. injection E as E.
    unfold collisionFree in Hfree. rewrite Forall_forall in Hfree.
    assert (Hcol : forall x y,
      x ∈ [audio; audio'] ++ images ++ images'
           ++ [keyMaterial sha256 audio images; keyMaterial sha256 audio' images'] ->
      y ∈ [audio; audio'] ++ images ++ images'
           ++ [keyMaterial sha256 audio images; keyMaterial sha256 audio' images'] ->
      sha256 x = sha256 y -> x = y).
    { intros x y Hx Hy. specialize (Hfree x Hx). rewrite Forall_forall in Hfree.
      by apply Hfree. }
    apply Hcol in E; [|set_solver..].
    unfold keyMaterial in E. apply app_inj_1 in E as [E1 E2]; [|by rewrite !Hlen].
    split; [apply Hcol; [set_solver..|done]|].
    apply (concat_chunks_inj 64) in E2; [|lia|..].
    2,3: apply Forall_forall; intros h Hh; rewrite sort_Permutation in Hh;
         apply list_elem_of_In, in_map_iff in Hh as (c & <- & _); apply Hlen.
    assert (HP : map sha256 images ≡ₚ map sha256 images').
    { by rewrite <- (sort_Permutation (map sha256 images)), E2, sort_Permutation. }
    apply Permutation_map_inv in HP as (l3 & E3 & HP).
    assert (images = l3); [|by subst].
    assert (Hin : forall c, c ∈ l3 -> c ∈ images') by (intros c; by rewrite HP).
    clear HP E2 E1 Hi Hi'. revert l3 E3 Hin.
    assert (Hsub : forall c, c ∈ images -> c ∈ images) by done.
    revert Hsub. generalize images at 1 3 4 as l.
    induction l as [|c l IH]; intros Hsub [|c' l3] E3 Hin; simpl in E3; try done.
    injection E3 as Ec E3. f_equal.
    - apply Hcol; [set_solver..|done].
    - apply IH; [set_solver|done|set_solver]. }
  split; [exact Hinj|]. split; [|split].
  - intros Hne E. by apply Hinj in E as [? _].
  - intros i x x' Hx Hne -> E. apply Hinj in E as [_ HP].
    by eapply replaced_not_permuted.
  - intros _ _ Hne E. by apply Hinj in E as [? _].
Qed.

End CacheKey.

Lemma toyDigest_length data : length (toyDigest data) = 64%nat.
Proof.
  unfold toyDigest. rewrite length_take, length_app, length_replicate. lia.
Qed.

Lemma generateCacheKey_content_addressed_witness :
  generateCacheKey toyDigest (demoWorld [1; 2] 0) (u8 "call.mp3") [u8 "b.png"; u8 "a.png"]
  = generateCacheKey toyDigest (demoWorld [1; 2] 0) (u8 "call.mp3") [u8 "a.png"; u8 "b.png"]
  /\ generateCacheKey toyDigest (demoWorld [1; 2] 0) (u8 "call.mp3") [u8 "a.png"; u8 "b.png"]
     <> generateCacheKey toyDigest (demoWorld [1; 7] 0) (u8 "call.mp3") [u8 "a.png"; u8 "b.png"].
Proof.
  destruct (generateCacheKey_content_addressed toyDigest (demoWorld [1; 2] 0)
              (u8 "call.mp3") [u8 "a.png"; u8 "b.png"]) as (_ & Hperm & Hsens).
  split.
  - apply Hperm. apply perm_swap.
  - destruct (Hsens (demoWorld [1; 7] 0) (u8 "call.mp3") [u8 "a.png"; u8 "b.png"]
                [1; 2] [[3; 4]; [5]] [1; 7] [[3; 4]; [5]]) as (_ & Hne & _).
    + reflexivity.
    + reflexivity.
    + reflexivity.
    + reflexivity.
    + apply toyDigest_length.
    + apply (proj1 (bool_decide_eq_true _)). vm_compute. reflexivity.
    + apply Hne. intros H. discriminate H.
Defined.

(** ** Result cache: [get] and [set] *)

Example parseInt_examples :
  parseInt (u8 "168") = Some 168%Z /\ parseInt (u8 " 24h") = Some 24%Z
  /\ parseInt (u8 "0x10") = Some 16%Z /\ parseInt (u8 "-3") = Some (-3)%Z
  /\ parseInt (u8 "week") = None.
Proof. repeat split; reflexivity. Qed.

Section CacheLifecycle.

Variable sha256 : bytes -> jsstring.
Variable path_join : jsstring -> jsstring -> jsstring.

#[local] Abbreviation generateCacheKey := (generateCacheKey sha256).
#[local] Abbreviation excelPath := (excelPath path_join).
#[local] Abbreviation cacheGet := (get sha256 path_join).
#[local] Abbreviation cacheSet := (CacheService.set sha256).

Lemma generateCacheKey_hashes (w : World) audioPath imagePaths key :
  generateCacheKey w audioPath imagePaths = Some key ->
  exists audioHash imageHashes,
    calculateFileHash sha256 w audioPath = Some audioHash
    /\ mapM (calculateFileHash sha256 w) imagePaths = Some imageHashes.
Proof.
  unfold CacheService.generateCacheKey.
  destruct (calculateFileHash sha256 w audioPath) as [a|]; simpl; [|done].
  destruct (mapM _ imagePaths) as [hs|]; simpl; [|done]. eauto.
Qed.

Lemma get_no_entry (w : World) st audioPath imagePaths key :
  generateCacheKey w audioPath imagePaths = Some key ->
  cacheIndex st !! key = None ->
  cacheGet w st audioPath imagePaths = (None, st).
Proof. intros Hk He. unfold get. by rewrite Hk, He. Qed.

Lemma get_stale (w : World) st audioPath imagePaths key entry :
  generateCacheKey w audioPath imagePaths = Some key ->
  cacheIndex st !! key = Some entry ->
  existsSync w (excelPath w entry) = false \/ expired w entry = true ->
  cacheGet w st audioPath imagePaths = (None, evict key st).
Proof.
  intros Hk He Hs. unfold get. rewrite Hk, He.
  destruct (existsSync w (excelPath w entry)); simpl; [|done].
  destruct Hs as [?| ->]; done.
Qed.

Lemma get_hit (w : World) st audioPath imagePaths key entry :
  generateCacheKey w audioPath imagePaths = Some key ->
  cacheIndex st !! key = Some entry ->
  existsSync w (excelPath w entry) = true -> expired w entry = false ->
  cacheGet w st audioPath imagePaths = (Some (result entry, excelFilename entry), st).
Proof. intros Hk He Hx Hd. unfold get. by rewrite Hk, He, Hx, Hd. Qed.

Lemma set_lookup (w0 : World) st0 audioPath imagePaths key res file executiveId callType :
  generateCacheKey w0 audioPath imagePaths = Some key ->
  exists entry,
    cacheIndex (cacheSet w0 st0 audioPath imagePaths res file executiveId callType) !! key
    = Some entry
    /\ timestamp entry = now w0 /\ result entry = res /\ excelFilename entry = file.
Proof.
  intros Hk. destruct (generateCacheKey_hashes _ _ _ _ Hk) as (ah & ih & Ha & Hi).
  unfold CacheService.set. rewrite Hk, Ha, Hi. simpl.
  rewrite lookup_insert_eq. eauto.
Qed.

(** C5.  Whenever the media cannot be read, [get] answers [null] and leaves
    the index alone.  Otherwise, with [key] the computed key: [get] misses
    exactly when the index has no entry for [key], or the entry's Excel file
    no longer exists in the results directory, or the entry's age exceeds the
    TTL (168 hours when CACHE_MAX_AGE_HOURS is not set); a miss for a missing
    file or an expired entry deletes the entry from the index and saves the
    index; a hit returns the stored result and file name and changes
    nothing; and after [set] on the same media, [get] returns what was
    stored, provided the file exists and the TTL has not elapsed. *)
Theorem cache_get_miss_evict_hit (w : World) (st : State)
    (audioPath : jsstring) (imagePaths : list jsstring) :
  let answer := (cacheGet w st audioPath imagePaths).1 in
  let st' := (cacheGet w st audioPath imagePaths).2 in
  (generateCacheKey w audioPath imagePaths = None -> answer = None /\ st' = st)
  /\ forall key, generateCacheKey w audioPath imagePaths = Some key ->
     (answer = None <->
        cacheIndex st !! key = None
        \/ exists entry, cacheIndex st !! key = Some entry
             /\ (existsSync w (excelPath w entry) = false \/ expired w entry = true))
     /\ (cacheIndex st !! key = None -> st' = st)
     /\ (forall entry, cacheIndex st !! key = Some entry ->
           existsSync w (excelPath w entry) = false \/ expired w entry = true ->
           cacheIndex st' = delete key (cacheIndex st)
           /\ cacheIndex st' !! key = None
           /\ savedIndex st' = cacheIndex st')
     /\ (forall entry, cacheIndex st !! key = Some entry ->
           existsSync w (excelPath w entry) = true -> expired w entry = false ->
           answer = Some (result entry, excelFilename entry) /\ st' = st)
     /\ (forall entry, env w (u8 "CACHE_MAX_AGE_HOURS") = None ->
           (expired w entry = true <->
            (168 * (1000 * 60 * 60) < now w - timestamp entry)%Z))
     /\ (forall (w0 : World) (st0 : State) res file executiveId callType,
           generateCacheKey w0 audioPath imagePaths = Some key ->
           st = cacheSet w0 st0 audioPath imagePaths res file executiveId callType ->
           existsSync w
             (path_join (orDefault (env w (u8 "RESULTS_DIR")) (u8 "./results")) file) = true ->
           (forall m, maxAgeHours w = Some m ->
                      (now w - now w0 <= m * (1000 * 60 * 60))%Z) ->
           answer = Some (res, file) /\ st' = st).
Proof.
  intros answer st'. subst answer st'. split.
  { intros Hk. unfold get. by rewrite Hk. }
  intros key Hk.
  assert (Httl : forall entry, env w (u8 "CACHE_MAX_AGE_HOURS") = None ->
            (expired w entry = true <->
             (168 * (1000 * 60 * 60) < now w - timestamp entry)%Z)).
  { intros e Hn. unfold expired, maxAgeHours. rewrite Hn. simpl. apply Z.ltb_lt. }
  assert (Hput : forall (w0 : World) (st0 : State) res file executiveId callType,
           generateCacheKey w0 audioPath imagePaths = Some key ->
           st = cacheSet w0 st0 audioPath imagePaths res file executiveId callType ->
           existsSync w
             (path_join (orDefault (env w (u8 "RESULTS_DIR")) (u8 "./results")) file) = true ->
           (forall m, maxAgeHours w = Some m ->
                      (now w - now w0 <= m * (1000 * 60 * 60))%Z) ->
           cacheGet w st audioPath imagePaths = (Some (res, file), st)).
  { intros w0 st0 res file eid ct Hk0 Hst Hex Hage.
    destruct (set_lookup w0 st0 audioPath imagePaths key res file eid ct Hk0)
      as (entry & He & Ht & Hr & Hf).
    rewrite <- Hst in He. rewrite <- Hr, <- Hf.
    apply (get_hit w st audioPath imagePaths key entry Hk He).
    - unfold CacheService.excelPath. by rewrite Hf.
    - unfold expired. destruct (maxAgeHours w) as [m|] eqn:Em; [|done].
      apply Z.ltb_ge. rewrite Ht. by apply Hage. }
  destruct (cacheIndex st !! key) as [entry|] eqn:E.
  - destruct (existsSync w (excelPath w entry)) eqn:Ex;
      [destruct (expired w entry) eqn:Ee|].
    + rewrite (get_stale w st _ _ key entry Hk E) by auto. simpl.
      split; [split; [right; eauto|done]|]. split; [done|]. split.
      { intros e [= <-] _. split; [done|]. split; [apply lookup_delete_eq|done]. }
      split; [intros e [= <-] _ ?; congruence|]. split; [exact Httl|].
      intros w0 st0 res file eid ct Hk0 Hst Hex Hage.
      pose proof (Hput w0 st0 res file eid ct Hk0 Hst Hex Hage) as Hg.
      rewrite (get_stale w st _ _ key entry Hk E) in Hg by auto. done.
    + rewrite (get_hit w st _ _ key entry Hk E Ex Ee). simpl.
      split; [split; [done|]|].
      { intros [? | (e & [= <-] & [? | ?])]; congruence. }
      split; [done|]. split; [intros e [= <-] [? | ?]; congruence|].
      split; [by intros e [= <-] _ _|]. split; [exact Httl|].
      intros w0 st0 res file eid ct Hk0 Hst Hex Hage.
      pose proof (Hput w0 st0 res file eid ct Hk0 Hst Hex Hage) as Hg.
      rewrite (get_hit w st _ _ key entry Hk E Ex Ee) in Hg. by injection Hg as -> ->.
    + rewrite (get_stale w st _ _ key entry Hk E) by auto. simpl.
      split; [split; [right; eauto|done]|]. split; [done|]. split.
      { intros e [= <-] _. split; [done|]. split; [apply lookup_delete_eq|done]. }
      split; [intros e [= <-] ?; congruence|]. split; [exact Httl|].
      intros w0 st0 res file eid ct Hk0 Hst Hex Hage.
      pose proof (Hput w0 st0 res file eid ct Hk0 Hst Hex Hage) as Hg.
      rewrite (get_stale w st _ _ key entry Hk E) in Hg by auto. done.
  - rewrite (get_no_entry w st _ _ key Hk E). simpl.
    split; [split; [by left|done]|]. split; [done|].
    split; [done|]. split; [done|]. split; [exact Httl|].
    intros w0 st0 res file eid ct Hk0 Hst Hex Hage.
    pose proof (Hput w0 st0 res file eid ct Hk0 Hst Hex Hage) as Hg.
    rewrite (get_no_entry w st _ _ key Hk E) in Hg. done.
Qed.

End CacheLifecycle.

Lemma cache_get_miss_evict_hit_witness :
  let st := CacheService.set toyDigest (demoWorld [1; 2] 0) (mkState ∅ ∅)
              (u8 "call.mp3") [u8 "a.png"] demoResult (u8 "r.xlsx")
              (u8 "E1") (u8 "INBOUND") in
  (get toyDigest demoJoin (demoWorld [1; 2] 1000) st (u8 "call.mp3") [u8 "a.png"]).1
  = Some (demoResult, u8 "r.xlsx").
Proof.
  intros st.
  destruct (cache_get_miss_evict_hit toyDigest demoJoin (demoWorld [1; 2] 1000) st
              (u8 "call.mp3") [u8 "a.png"]) as [_ H].
  edestruct H as (_ & _ & _ & _ & _ & Hput); [reflexivity|].
  apply (Hput (demoWorld [1; 2] 0) (mkState ∅ ∅) demoResult (u8 "r.xlsx")
           (u8 "E1") (u8 "INBOUND")).
  - reflexivity.
  - reflexivity.
  - reflexivity.
  - intros m Hm. vm_compute in Hm. injection Hm as <-. simpl. lia.
Defined.

(** ** Evaluator: visual evidence *)

Section VisualEvidence.

Variable Number_toString : Q -> jsstring.
Variable respond : nat -> nat -> Outcome.

#[local] Abbreviation store := (store Number_toString).
#[local] Abbreviation groupKey := (Visual.groupKey Number_toString).
#[local] Abbreviation recordOf := Visual.recordOf.
#[local] Abbreviation parsedOf := Visual.parsedOf.
#[local] Abbreviation accepted := (Visual.accepted Number_toString).
#[local] Abbreviation attemptsFor := (Visual.attemptsFor Number_toString respond).
#[local] Abbreviation firstAccepted := (Visual.firstAccepted Number_toString respond).
#[local] Abbreviation imageTrace := (Visual.imageTrace Number_toString respond).
#[local] Abbreviation grouped := (Visual.grouped Number_toString respond).
#[local] Abbreviation attempt := (attempt Number_toString respond).
#[local] Abbreviation retry := (retry Number_toString respond).
#[local] Abbreviation forImages := (forImages Number_toString respond).
#[local] Abbreviation extractVisualEvidenceEnhanced :=
  (extractVisualEvidenceEnhanced Number_toString respond).

Lemma store_spec ev imagePath p :
  store ev imagePath p
  = (fun k => <[k := default [] (ev !! k) ++ [recordOf imagePath p]]> ev) <$> groupKey p.
Proof.
  unfold EvaluatorService.store, Visual.groupKey, Visual.recordOf.
  destruct p; simpl; try done.
  destruct (lookupField (u8 "system") fields) as [sys|]; simpl; [|done].
  destruct (lookupField (u8 "data") fields) as [dat|]; simpl;
    [|by destruct (truthy sys)].
  destruct (truthy sys), (truthy dat); simpl; try done.
  by destruct (bool_decide _).
Qed.

Lemma attempt_spec i imagePath k st :
  trace (attempt i imagePath k st).1 = trace st ++ [Request i k]
  /\ (attempt i imagePath k st).2 = accepted (respond i k)
  /\ evidence (attempt i imagePath k st).1
     = match parsedOf (respond i k) ≫= groupKey with
       | Some key =>
           <[key := default [] (evidence st !! key)
                    ++ [recordOf imagePath (default JNull (parsedOf (respond i k)))]]>
             (evidence st)
       | None => evidence st
       end.
Proof.
  unfold EvaluatorService.attempt, Visual.accepted.
  destruct (respond i k) as [|u [p|]]; simpl;
    [done | | by destruct u as [[]|]].
  assert (E : evidence (addUsage u (emit (Request i k) st)) = evidence st)
    by (by destruct u as [[]|]).
  assert (T : trace (addUsage u (emit (Request i k) st)) = trace st ++ [Request i k])
    by (by destruct u as [[]|]).
  rewrite store_spec, E.
  by destruct (groupKey p) as [key|]; simpl.
Qed.

Lemma firstAccepted_key i :
  firstAccepted i ≫= groupKey
  = (if accepted (respond i 1) then parsedOf (respond i 1) ≫= groupKey
     else if accepted (respond i 2) then parsedOf (respond i 2) ≫= groupKey
     else parsedOf (respond i 3) ≫= groupKey).
Proof.
  unfold Visual.firstAccepted.
  destruct (accepted (respond i 1)); [done|].
  destruct (accepted (respond i 2)); [done|].
  destruct (accepted (respond i 3)) eqn:E; [done|]. simpl.
  unfold Visual.accepted in E.
  destruct (parsedOf (respond i 3)) as [p|]; simpl; [|done].
  destruct (groupKey p); [|done]. by rewrite bool_decide_eq_true_2 in E.
Qed.

Lemma rejected_key o : accepted o = false -> parsedOf o ≫= groupKey = None.
Proof.
  unfold Visual.accepted. destruct (parsedOf o) as [p|]; simpl; [|done].
  destruct (groupKey p); [|done]. by rewrite bool_decide_eq_true_2.
Qed.

Lemma accepted_key o :
  accepted o = true -> exists p k, parsedOf o = Some p /\ groupKey p = Some k.
Proof.
  unfold Visual.accepted. destruct (parsedOf o) as [p|]; [|done].
  intros H. apply bool_decide_eq_true in H as [k Hk]. eauto.
Qed.

(** The three passes for one image. *)
Lemma retry_spec i imagePath st :
  trace (retry maxAttempts i imagePath 0 st) = trace st ++ imageTrace i
  /\ evidence (retry maxAttempts i imagePath 0 st) = grouped (evidence st) i imagePath.
Proof.
  unfold Visual.imageTrace, Visual.attemptsFor, Visual.grouped.
  rewrite firstAccepted_key. unfold Visual.firstAccepted. simpl.
  destruct (attempt_spec i imagePath 1 st) as (T1 & S1 & E1).
  destruct (attempt i imagePath 1 st) as [st1 ok1]. simpl in *. subst ok1.
  destruct (accepted (respond i 1)) eqn:A1.
  { split; [done|]. rewrite E1.
    destruct (accepted_key _ A1) as (p & k & -> & Hk). simpl. by rewrite Hk. }
  rewrite (rejected_key _ A1) in E1.
  destruct (attempt_spec i imagePath 2 (emit (Wait 1000) st1)) as (T2 & S2 & E2).
  destruct (attempt i imagePath 2 (emit (Wait 1000) st1)) as [st2 ok2].
  simpl in *. subst ok2. rewrite T1, E1 in *.
  destruct (accepted (respond i 2)) eqn:A2.
  { split; [by rewrite T2, <- !app_assoc|]. rewrite E2.
    destruct (accepted_key _ A2) as (p & k & -> & Hk). simpl. by rewrite Hk. }
  rewrite (rejected_key _ A2) in E2.
  destruct (attempt_spec i imagePath 3 (emit (Wait 1000) st2)) as (T3 & S3 & E3).
  destruct (attempt i imagePath 3 (emit (Wait 1000) st2)) as [st3 ok3].
  simpl in *. subst ok3. rewrite T2, E2 in *.
  assert (T : trace st3 = trace st ++ [Request i 1; Wait 1000; Request i 2;
                                        Wait 1000; Request i 3])
    by (by rewrite T3, <- !app_assoc).
  destruct (accepted (respond i 3)) eqn:A3.
  - split; [done|]. rewrite E3.
    destruct (accepted_key _ A3) as (p & k & -> & Hk). simpl. by rewrite Hk.
  - split; [done|]. rewrite E3. by rewrite (rejected_key _ A3).
Qed.

(** More fuel than [maxAttempts] changes nothing: the loop has stopped. *)
Lemma retry_fuel i imagePath st extra :
  retry (maxAttempts + extra) i imagePath 0 st = retry maxAttempts i imagePath 0 st.
Proof.
  simpl.
  destruct (attempt i imagePath 1 st) as [st1 []]; [done|].
  destruct (attempt i imagePath 2 _) as [st2 []]; [done|].
  destruct (attempt i imagePath 3 _) as [st3 []]; [done|].
  by destruct extra.
Qed.

Lemma forImages_spec imagePaths i st :
  trace (forImages i imagePaths st)
  = trace st ++ flat_map imageTrace (seq i (length imagePaths))
  /\ evidence (forImages i imagePaths st)
     = fold_left (fun ev ip => grouped ev ip.1 ip.2)
         (zip (seq i (length imagePaths)) imagePaths) (evidence st).
Proof.
  revert i st. induction imagePaths as [|p ps IH]; intros i st.
  - simpl. by rewrite app_nil_r.
  - change (forImages i (p :: ps) st)
      with (forImages (S i) ps (retry maxAttempts i p 0 st)).
    destruct (IH (S i) (retry maxAttempts i p 0 st)) as [T E].
    destruct (retry_spec i p st) as [T0 E0].
    rewrite T, E, T0, E0.
    cbn [length seq flat_map zip_with fold_left fst snd].
    by rewrite <- app_assoc.
Qed.


Lemma attemptsFor_cases i :
  attemptsFor i = [1]%nat \/ attemptsFor i = [1; 2]%nat \/ attemptsFor i = [1; 2; 3]%nat.
Proof.
  unfold Visual.attemptsFor.
  destruct (accepted (respond i 1)); [by left|].
  destruct (accepted (respond i 2)); [right; by left | right; by right].
Qed.

Lemma imageTrace_requests i j :
  List.filter (isRequestFor i) (imageTrace j)
  = if bool_decide (j = i) then map (Request j) (attemptsFor j) else [].
Proof.
  unfold Visual.imageTrace.
  destruct (attemptsFor_cases j) as [-> | [-> | ->]]; simpl;
    by destruct (bool_decide (j = i)).
Qed.

Lemma requests_of_others i l :
  i ∉ l -> List.filter (isRequestFor i) (flat_map imageTrace l) = [].
Proof.
  induction l as [|j l IH]; intros Hi; simpl; [done|].
  rewrite List.filter_app, imageTrace_requests, IH by set_solver.
  rewrite bool_decide_eq_false_2 by set_solver. done.
Qed.

Lemma requests_bounded i l :
  NoDup l -> (length (List.filter (isRequestFor i) (flat_map imageTrace l)) <= 3)%nat.
Proof.
  induction 1 as [|j l Hj Hl IH]; simpl; [lia|].
  rewrite List.filter_app, length_app, imageTrace_requests.
  destruct (bool_decide (j = i)) eqn:E.
  - apply bool_decide_eq_true in E. subst j.
    rewrite requests_of_others by done. rewrite length_map. simpl.
    destruct (attemptsFor_cases i) as [-> | [-> | ->]]; simpl; lia.
  - simpl. exact IH.
Qed.

Lemma imageTrace_first i : Request i 1 ∈ imageTrace i.
Proof.
  unfold Visual.imageTrace.
  destruct (attemptsFor_cases i) as [-> | [-> | ->]]; simpl; set_solver.
Qed.

(** A request numbered above 1 follows a rejected one and a wait. *)
Lemma imageTrace_retry i j k :
  Request i (S k) ∈ imageTrace j -> (1 <= k)%nat ->
  j = i /\ accepted (respond i k) = false
  /\ exists pre post,
       imageTrace j = pre ++ [Request i k; Wait 1000; Request i (S k)] ++ post.
Proof.
  unfold Visual.imageTrace, Visual.attemptsFor.
  destruct (accepted (respond j 1)) eqn:A1; simpl.
  { intros H Hk. apply list_elem_of_singleton in H. injection H as _ H. lia. }
  destruct (accepted (respond j 2)) eqn:A2; simpl.
  - intros H Hk. rewrite !elem_of_cons in H.
    destruct H as [H | [H | [H | H]]].
    + injection H as _ H. lia.
    + discriminate H.
    + injection H as -> H. assert (k = 1%nat) as -> by lia.
      split; [done|]. split; [done|]. by exists [], [].
    + by apply elem_of_nil in H.
  - intros H Hk. rewrite !elem_of_cons in H.
    destruct H as [H | [H | [H | [H | [H | H]]]]].
    + injection H as _ H. lia.
    + discriminate H.
    + injection H as -> H. assert (k = 1%nat) as -> by lia.
      split; [done|]. split; [done|]. by exists [], [Wait 1000; Request j 3].
    + discriminate H.
    + injection H as -> H. assert (k = 2%nat) as -> by lia.
      split; [done|]. split; [done|]. by exists [Request j 1; Wait 1000], [].
    + by apply elem_of_nil in H.
Qed.

Lemma groupKey_inv p k :
  groupKey p = Some k ->
  exists sys dat,
    getProp p (u8 "system") = Some (Some sys) /\ truthy sys = true
    /\ getProp p (u8 "data") = Some (Some dat) /\ truthy dat = true
    /\ k = toStringJ Number_toString sys
    /\ forall imagePath, vr_data (recordOf imagePath p) = dat.
Proof.
  unfold Visual.groupKey, Visual.recordOf.
  destruct (getProp p (u8 "system")) as [[sys|]|]; try done.
  destruct (getProp p (u8 "data")) as [[dat|]|]; try done.
  destruct (truthy sys) eqn:Ts, (truthy dat) eqn:Td; simpl; try done.
  destruct (bool_decide _); [done|]. intros [= <-].
  exists sys, dat. repeat split; done.
Qed.

Lemma zip_seq_lookup {A} (l : list A) (a i : nat) (x : A) :
  (i, x) ∈ zip (seq a (length l)) l -> exists j, i = (a + j)%nat /\ l !! j = Some x.
Proof.
  revert a. induction l as [|y l IH]; intros a; simpl; [set_solver|].
  rewrite elem_of_cons. intros [[= -> ->] | H].
  - exists 0%nat. split; [lia|done].
  - apply IH in H as (j & -> & Hj). exists (S j). split; [lia|done].
Qed.


End VisualEvidence.

Example extraction_example :
  let ex := extractVisualEvidenceEnhanced (fun _ => []) demoRespond
              [u8 "f.png"; u8 "bad.png"; u8 "v.png"] in
  trace ex = [ Request 0 1; Wait 1000; Request 0 2; Wait 1000; Request 0 3;
               Request 1 1; Wait 1000; Request 1 2; Wait 1000; Request 1 3;
               Request 2 1 ]
  /\ vr_imagePath <$> default [] (evidence ex !! u8 "FALCON") = [u8 "f.png"]
  /\ vr_imagePath <$> default [] (evidence ex !! u8 "VCAS") = [u8 "v.png"]
  /\ size (evidence ex) = 2%nat
  /\ (totalInputTokens ex, totalOutputTokens ex) = (20, 10)%Z.
Proof. vm_compute. repeat split; reflexivity. Qed.


(** ** Report serializer: text normalization *)

Import ExcelService.

Example normalizeText_examples :
  normalizeText (u8 "  Cierre   CORRECTO del  cáso ") = u8 "cierre correcto del caso"
  /\ normalizeText (u8 "Validación ÑANDÚ") = u8 "validacion nandu"
  /\ normalizeText (u8 "B.I") = u8 "b.i".
Proof. repeat split; reflexivity. Qed.

(** C10, counterexample.  U+034F (combining grapheme joiner) lies in the
    removed range but is a starter: between the Hebrew points U+05C1 (class
    24) and U+05B0 (class 10) it blocks their reordering, and once it is
    removed the second normalization reorders them. *)
Lemma normalizeText_not_idempotent :
  normalizeText [0x5C1; 0x34F; 0x5B0] = [0x5C1; 0x5B0]
  /\ normalizeText (normalizeText [0x5C1; 0x34F; 0x5B0]) = [0x5B0; 0x5C1]
  /\ normalizeText (normalizeText [0x5C1; 0x34F; 0x5B0])
     <> normalizeText [0x5C1; 0x34F; 0x5B0].
Proof. split; [reflexivity|]. split; [reflexivity|]. intros H. discriminate H. Qed.

Lemma latin_cases c : isLatinText c = true -> In c latinDomain.
Proof.
  unfold isLatinText, isCombiningMark, isSpace, isWhiteSpace, isLineTerminator, latinDomain.
  intros H. rewrite !in_app_iff.
  destruct (c <? 0x100) eqn:E1.
  { left. clear H. apply N.ltb_lt in E1. apply in_map_iff. exists (N.to_nat c).
    split; [lia|]. apply in_seq. lia. }
  destruct ((0x300 <=? c) && (c <=? 0x36F)) eqn:E2.
  { right; left. clear H. unbool. apply in_map_iff. exists (N.to_nat (c - 0x300)).
    split; [lia|]. apply in_seq. lia. }
  right; right. simpl in H. apply N.ltb_ge in E1.
  unbool; subst; simpl; try tauto; lia.
Qed.

Lemma forall_latin (P : N -> bool) :
  forallb P latinDomain = true -> forall c, isLatinText c = true -> P c = true.
Proof.
  intros H c Hc. rewrite forallb_forall in H. by apply H, latin_cases.
Qed.

Lemma decomp_lower_latin c :
  isLatinText c = true ->
  forallb (fun d => isCombiningMark d || plainCh d) (decomp (lower_cp c)) = true.
Proof.
  apply (forall_latin
           (fun c => forallb (fun d => isCombiningMark d || plainCh d)
                       (decomp (lower_cp c)))).
  by vm_compute.
Qed.

Lemma place_Permutation c out : place c out ≡ₚ c :: out.
Proof.
  induction out as [|d r IH]; simpl; [done|].
  destruct (_ && _); [|done]. rewrite IH. apply perm_swap.
Qed.

Lemma canonicalOrder_Permutation s : canonicalOrder s ≡ₚ s.
Proof.
  unfold canonicalOrder. rewrite <- (Permutation_rev _).
  assert (H : forall out, fold_left (fun out c => place c out) s out ≡ₚ rev s ++ out).
  { induction s as [|c s IH]; intros out; simpl; [done|].
    rewrite IH, place_Permutation, <- app_assoc. simpl.
    by rewrite <- Permutation_middle. }
  rewrite H, app_nil_r. by rewrite <- (Permutation_rev _).
Qed.

Lemma canonicalOrder_starters s :
  forallb (fun c => ccc c =? 0) s = true -> canonicalOrder s = s.
Proof.
  intros H. unfold canonicalOrder.
  assert (A : forall out, fold_left (fun out c => place c out) s out = rev s ++ out).
  { revert H. induction s as [|c s IH]; intros H out; simpl; [done|].
    simpl in H. apply andb_true_iff in H as [Hc H]. apply N.eqb_eq in Hc.
    rewrite IH by done. rewrite <- app_assoc. simpl. f_equal.
    destruct out as [|d r]; simpl; [done|]. by rewrite Hc. }
  by rewrite A, app_nil_r, rev_involutive.
Qed.

(** What remains after lower-casing, decomposition and removal of marks is
    plain. *)
Lemma stripped_plain s :
  forallb isLatinText s = true ->
  forallb plainCh
    (List.filter (fun c => negb (isCombiningMark c)) (nfd (toLowerCase s))) = true.
Proof.
  intros H. apply forallb_forall. intros d Hd.
  apply filter_In in Hd as [Hd Hm]. apply negb_true_iff in Hm.
  unfold nfd in Hd. apply list_elem_of_In in Hd.
  rewrite canonicalOrder_Permutation in Hd. apply list_elem_of_In in Hd.
  apply in_flat_map in Hd as (c' & Hc' & Hd).
  unfold toLowerCase in Hc'. apply in_map_iff in Hc' as (c & <- & Hc).
  rewrite forallb_forall in H. specialize (H c Hc).
  pose proof (decomp_lower_latin c H) as A. rewrite forallb_forall in A.
  specialize (A d Hd). by rewrite Hm in A.
Qed.

(** Plain text is a fixed point of the first three steps. *)
Lemma plain_fixed t :
  forallb plainCh t = true ->
  List.filter (fun c => negb (isCombiningMark c)) (nfd (toLowerCase t)) = t.
Proof.
  intros H.
  assert (Hl : toLowerCase t = t).
  { unfold toLowerCase. induction t as [|c t IH]; simpl in *; [done|].
    apply andb_true_iff in H as [Hc H]. unfold plainCh in Hc. unbool.
    rewrite IH by done. congruence. }
  assert (Hd : flat_map decomp t = t).
  { induction t as [|c t IH]; simpl in *; [done|].
    apply andb_true_iff in H as [Hc H]. unfold plainCh in Hc. unbool.
    apply bool_decide_eq_true in H2. rewrite H2. simpl. f_equal.
    apply IH; [done|]. unfold toLowerCase in Hl. simpl in Hl. by injection Hl. }
  assert (Hc : forallb (fun c => ccc c =? 0) t = true).
  { apply forallb_forall. intros c Hc. rewrite forallb_forall in H.
    specialize (H c Hc). unfold plainCh in H.
    apply andb_true_iff in H as [_ H]. done. }
  rewrite Hl. unfold nfd. rewrite Hd, canonicalOrder_starters by done.
  clear Hl Hd Hc. induction t as [|c t IH]; simpl in *; [done|].
  apply andb_true_iff in H as [Hc H]. unfold plainCh in Hc.
  apply andb_true_iff in Hc as [Hc _]. apply andb_true_iff in Hc as [Hc _].
  apply andb_true_iff in Hc as [Hc _]. rewrite Hc. f_equal. by apply IH.
Qed.

Lemma replaceSpaceRuns_collapsed b s : collapsed b (replaceSpaceRuns 0x20 b s) = true.
Proof.
  revert b. induction s as [|c s IH]; intros b; simpl; [done|].
  destruct (isSpace c) eqn:E.
  - destruct b; simpl; [apply IH|]. by rewrite IH.
  - simpl. rewrite E. apply IH.
Qed.

Lemma collapsed_fixed b s : collapsed b s = true -> replaceSpaceRuns 0x20 b s = s.
Proof.
  revert b. induction s as [|c s IH]; intros b; simpl; [done|].
  destruct (isSpace c).
  - intros H. apply andb_true_iff in H as [H Hs]. apply andb_true_iff in H as [Hb Hc].
    apply negb_true_iff in Hb. apply N.eqb_eq in Hc. subst. by rewrite IH.
  - intros H. by rewrite IH.
Qed.

Lemma collapsed_weaken s : collapsed true s = true -> collapsed false s = true.
Proof. destruct s as [|c s]; simpl; [done|]. by destruct (isSpace c). Qed.

Lemma collapsed_trimStart b s : collapsed b s = true -> collapsed false (trimStart s) = true.
Proof.
  revert b. induction s as [|c s IH]; intros b; simpl; [done|].
  destruct (isSpace c) eqn:E.
  - intros H. apply andb_true_iff in H as [_ Hs]. by apply (IH true).
  - intros H. simpl. by rewrite E.
Qed.

Lemma trimEnd_cons c s :
  trimEnd (c :: s)
  = if isSpace c && bool_decide (trimEnd s = []) then [] else c :: trimEnd s.
Proof.
  unfold trimEnd. simpl.
  destruct (trimStart (rev s)) as [|d t] eqn:E.
  - rewrite trimStart_spaces by (by apply trimStart_nil_spaces). simpl.
    destruct (isSpace c); simpl; done.
  - rewrite trimStart_app by (by rewrite E). rewrite E, rev_app_distr. simpl.
    rewrite bool_decide_eq_false_2, andb_false_r; [done|].
    intros H. apply (f_equal (@length N)) in H.
    rewrite length_app in H. simpl in H. lia.
Qed.

Lemma collapsed_trimEnd b s : collapsed b s = true -> collapsed b (trimEnd s) = true.
Proof.
  revert b. induction s as [|c s IH]; intros b; [done|].
  rewrite trimEnd_cons. simpl.
  destruct (isSpace c) eqn:E; simpl.
  - intros H. apply andb_true_iff in H as [H Hs].
    destruct (bool_decide (trimEnd s = [])); [done|]. simpl.
    by rewrite E, H, IH.
  - intros H. simpl. rewrite E. by apply IH.
Qed.

Lemma trimStart_head s :
  match trimStart s with
  | c :: _ => isSpace c = false
  | [] => True
  end.
Proof.
  induction s as [|c s IH]; simpl; [done|].
  destruct (isSpace c) eqn:E; [done|]. by simpl.
Qed.

Lemma trim_fixed s : trim (trim s) = trim s.
Proof.
  unfold trim.
  assert (H : trimStart (trimEnd (trimStart s)) = trimEnd (trimStart s)).
  { pose proof (trimStart_head s) as Hh.
    destruct (trimStart s) as [|c t]; [done|].
    rewrite trimEnd_cons, Hh. simpl. by rewrite Hh. }
  rewrite H. unfold trimEnd. rewrite rev_involutive.
  f_equal. clear H.
  generalize (rev (trimStart s)) as x. intros x.
  pose proof (trimStart_head x) as Hh.
  destruct (trimStart x) as [|c t]; [done|]. simpl. by rewrite Hh.
Qed.

Lemma forallb_trimStart (P : N -> bool) s :
  forallb P s = true -> forallb P (trimStart s) = true.
Proof.
  induction s as [|c s IH]; simpl; [done|].
  intros H. destruct (isSpace c); [|done].
  apply andb_true_iff in H as [_ H]. auto.
Qed.

Lemma forallb_trim (P : N -> bool) s : forallb P s = true -> forallb P (trim s) = true.
Proof.
  intros H. unfold trim, trimEnd. rewrite forallb_rev.
  apply forallb_trimStart. rewrite forallb_rev. by apply forallb_trimStart.
Qed.

Lemma forallb_replaceSpaceRuns (P : N -> bool) b s :
  P 0x20 = true -> forallb P s = true ->
  forallb P (replaceSpaceRuns 0x20 b s) = true.
Proof.
  intros H0. revert b. induction s as [|c s IH]; intros b; simpl; [done|].
  intros H. apply andb_true_iff in H as [Hc H].
  destruct (isSpace c); [destruct b|]; simpl; rewrite ?H0, ?Hc, ?IH; done.
Qed.

(** C10, as the code has it.  On Latin text (Basic Latin, Latin-1, combining
    diacritical marks, white space) [normalizeText] is idempotent. *)
Theorem normalizeText_idempotent_latin (s : jsstring) :
  forallb isLatinText s = true ->
  normalizeText (normalizeText s) = normalizeText s.
Proof.
  intros H. unfold normalizeText at 1.
  assert (Hplain : forallb plainCh (normalizeText s) = true).
  { unfold normalizeText. apply forallb_trim.
    apply forallb_replaceSpaceRuns; [done|]. by apply stripped_plain. }
  rewrite plain_fixed by done.
  assert (Hcol : collapsed false (normalizeText s) = true).
  { unfold normalizeText, trim. apply collapsed_trimEnd.
    eapply collapsed_trimStart. apply replaceSpaceRuns_collapsed. }
  rewrite collapsed_fixed by done.
  unfold normalizeText. apply trim_fixed.
Qed.

Lemma normalizeText_idempotent_latin_witness :
  normalizeText (normalizeText (u8 "  Cierre   CORRECTO del  cáso "))
  = normalizeText (u8 "  Cierre   CORRECTO del  cáso ").
Proof.
  apply normalizeText_idempotent_latin. reflexivity.
Defined.

(** ** Report serializer: reconciliation *)

Example matchCriterion_examples :
  matchCriterion (u8 "[Falcon] Cierre correcto del caso")
  = Some (u8 "Falcon", u8 "Cierre correcto del caso")
  /\ matchCriterion (u8 "x [a b]   c d" ++ [0x0A] ++ u8 "e") = Some (u8 "a b", u8 "c d")
  /\ matchCriterion (u8 "[a" ++ [0x0A] ++ u8 "b] c [d]e") = Some (u8 "d", u8 "e")
  /\ matchCriterion (u8 "Falcon: cierre") = None.
Proof. repeat split; reflexivity. Qed.

Lemma mapGet_mapSet k k' v m :
  mapGet k (mapSet k' v m) = if bool_decide (k' = k) then Some v else mapGet k m.
Proof.
  induction m as [|[k0 v0] m IH]; simpl; [done|].
  destruct (bool_decide (k0 = k')) eqn:E0; simpl.
  - apply bool_decide_eq_true in E0. subst k0.
    by destruct (bool_decide (k' = k)).
  - apply bool_decide_eq_false in E0. rewrite IH.
    destruct (bool_decide (k0 = k)) eqn:E1; [|done].
    apply bool_decide_eq_true in E1. subst k0.
    by rewrite bool_decide_eq_false_2.
Qed.

Lemma mapSet_key_cases k v m k' :
  k' ∈ map fst (mapSet k v m) -> k' = k \/ k' ∈ map fst m.
Proof.
  induction m as [|[k0 v0] m IH]; simpl.
  - rewrite list_elem_of_singleton. auto.
  - destruct (bool_decide (k0 = k)) eqn:E; simpl; rewrite !elem_of_cons.
    + intros [-> | H]; auto.
    + intros [-> | H]; [auto|]. apply IH in H as [-> | H]; auto.
Qed.

Lemma mapSet_keys k v m : NoDup (map fst m) -> NoDup (map fst (mapSet k v m)).
Proof.
  induction m as [|[k0 v0] m IH]; simpl; intros H.
  - apply NoDup_singleton.
  - apply NoDup_cons in H as [Hk H].
    destruct (bool_decide (k0 = k)) eqn:E; simpl.
    + apply bool_decide_eq_true in E. subst. by apply NoDup_cons.
    + apply bool_decide_eq_false in E. apply NoDup_cons. split; [|by apply IH].
      intros Hin. apply mapSet_key_cases in Hin as [-> | Hin]; done.
Qed.

Lemma mapGet_entry k v (m : list (jsstring * DetailedScore)) :
  NoDup (map fst m) -> (k, v) ∈ m -> mapGet k m = Some v.
Proof.
  induction m as [|[k0 v0] m IH]; simpl; intros Hn Hin; [by apply elem_of_nil in Hin|].
  apply NoDup_cons in Hn as [Hk Hn]. apply elem_of_cons in Hin as [[= <- <-] | Hin].
  - by rewrite bool_decide_eq_true_2.
  - rewrite bool_decide_eq_false_2; [by apply IH|].
    intros ->. apply Hk. apply list_elem_of_In, in_map_iff. exists (k, v).
    split; [done|]. by apply list_elem_of_In.
Qed.

Lemma find_snoc {A} (P : A -> bool) l x :
  List.find P (l ++ [x])
  = match List.find P l with
    | Some y => Some y
    | None => if P x then Some x else None
    end.
Proof. induction l as [|y l IH]; simpl; [done|]. by destruct (P y). Qed.

(** A lookup in a map filled by [forEach]: the last entry stored under the
    key wins. *)
Lemma lookup_last (g : Maps -> list (jsstring * DetailedScore)) (P : DetailedScore -> bool)
    (k : jsstring) :
  (forall m sc, mapGet k (g (addScore m sc))
                = if P sc then Some sc else mapGet k (g m)) ->
  forall scores m0,
    mapGet k (g (fold_left addScore scores m0))
    = match lastWith P scores with
      | Some sc => Some sc
      | None => mapGet k (g m0)
      end.
Proof.
  intros Hstep. unfold lastWith.
  induction scores as [|sc scores IH]; intros m0; simpl; [done|].
  rewrite IH, find_snoc, Hstep.
  destruct (List.find P (rev scores)); [done|]. by destruct (P sc).
Qed.

Lemma evaluationMap_step k m sc :
  mapGet k (evaluationMap (addScore m sc))
  = if hasKey k sc then Some sc else mapGet k (evaluationMap m).
Proof.
  unfold addScore, hasKey, keysOf, parsedLabels.
  destruct (matchCriterion (criterion sc)) as [[g1 g2]|]; simpl.
  - rewrite !mapGet_mapSet.
    destruct (bool_decide (pairKey (normalizeText (trim g1)) (normalizeText (trim g2)) = k)) eqn:E1.
    { apply bool_decide_eq_true in E1. rewrite bool_decide_eq_true_2; [done|].
      rewrite !elem_of_cons. auto. }
    apply bool_decide_eq_false in E1.
    destruct (bool_decide (pairKey (trim g1) (trim g2) = k)) eqn:E2.
    { apply bool_decide_eq_true in E2. rewrite bool_decide_eq_true_2; [done|].
      rewrite !elem_of_cons. auto. }
    apply bool_decide_eq_false in E2.
    rewrite bool_decide_eq_false_2; [done|].
    rewrite !elem_of_cons. intros [-> | [-> | H]]; [done..|by apply elem_of_nil in H].
  - done.
Qed.

Lemma byTopic_step k m sc :
  mapGet k (evaluationByTopicOnly (addScore m sc))
  = if hasTopic k sc then Some sc else mapGet k (evaluationByTopicOnly m).
Proof.
  unfold addScore, hasTopic, parsedLabels.
  destruct (matchCriterion (criterion sc)) as [[g1 g2]|]; simpl; [|done].
  rewrite mapGet_mapSet.
  destruct (bool_decide (trim g2 = k)) eqn:E.
  - apply bool_decide_eq_true in E. subst. by rewrite bool_decide_eq_true_2.
  - apply bool_decide_eq_false in E. rewrite bool_decide_eq_false_2; [done|]. congruence.
Qed.

Lemma byBlock_step k m sc :
  mapGet k (evaluationByBlockOnly (addScore m sc))
  = if hasBlock k sc then Some sc else mapGet k (evaluationByBlockOnly m).
Proof.
  unfold addScore, hasBlock, parsedLabels.
  destruct (matchCriterion (criterion sc)) as [[g1 g2]|]; simpl; [|done].
  rewrite mapGet_mapSet.
  destruct (bool_decide (trim g1 = k)) eqn:E.
  - apply bool_decide_eq_true in E. subst. by rewrite bool_decide_eq_true_2.
  - apply bool_decide_eq_false in E. rewrite bool_decide_eq_false_2; [done|]. congruence.
Qed.

Lemma evaluationMap_lookup k scores :
  mapGet k (evaluationMap (buildMaps scores)) = lastWith (hasKey k) scores.
Proof.
  unfold buildMaps. rewrite (lookup_last evaluationMap (hasKey k) k (evaluationMap_step k)).
  by destruct (lastWith _ _).
Qed.

Lemma byTopic_lookup k scores :
  mapGet k (evaluationByTopicOnly (buildMaps scores)) = lastWith (hasTopic k) scores.
Proof.
  unfold buildMaps.
  rewrite (lookup_last evaluationByTopicOnly (hasTopic k) k (byTopic_step k)).
  by destruct (lastWith _ _).
Qed.

Lemma byBlock_lookup k scores :
  mapGet k (evaluationByBlockOnly (buildMaps scores)) = lastWith (hasBlock k) scores.
Proof.
  unfold buildMaps.
  rewrite (lookup_last evaluationByBlockOnly (hasBlock k) k (byBlock_step k)).
  by destruct (lastWith _ _).
Qed.

Lemma lastWith_Some P scores sc :
  lastWith P scores = Some sc -> sc ∈ scores /\ P sc = true.
Proof.
  unfold lastWith. intros H. apply find_some in H as [H1 H2].
  split; [|done]. apply list_elem_of_In. by apply in_rev.
Qed.

Lemma lastWith_None P scores sc :
  lastWith P scores = None -> sc ∈ scores -> P sc = false.
Proof.
  unfold lastWith. intros H Hin. eapply find_none in H; [done|].
  apply in_rev. rewrite rev_involutive. by apply list_elem_of_In.
Qed.

Lemma evaluationMap_keys scores : NoDup (map fst (evaluationMap (buildMaps scores))).
Proof.
  unfold buildMaps.
  assert (H : forall m0, NoDup (map fst (evaluationMap m0)) ->
            NoDup (map fst (evaluationMap (fold_left addScore scores m0)))).
  { induction scores as [|sc scores IH]; intros m0 H0; simpl; [done|].
    apply IH. unfold addScore.
    destruct (matchCriterion (criterion sc)) as [[g1 g2]|]; simpl; [|done].
    by do 2 apply mapSet_keys. }
  apply H. simpl. apply NoDup_nil. done.
Qed.

Lemma mapGet_In k v (m : list (jsstring * DetailedScore)) :
  mapGet k m = Some v -> (k, v) ∈ m.
Proof.
  induction m as [|[k0 v0] m IH]; simpl; [done|].
  destruct (bool_decide (k0 = k)) eqn:E.
  - apply bool_decide_eq_true in E. intros [= ->]. subst. apply elem_of_cons. by left.
  - intros H. apply elem_of_cons. right. by apply IH.
Qed.

Lemma strategy5_Some scores blockName topicName sc :
  strategy5 (buildMaps scores) blockName topicName = Some sc ->
  sc ∈ scores
  /\ exists k, k ∈ keysOf sc /\ contains (normalizeText topicName) k = true.
Proof.
  unfold strategy5.
  destruct (List.find _ _) as [[k v]|] eqn:F; simpl; [|done]. intros [= ->].
  apply find_some in F as [Hin Hc]. simpl in Hc.
  apply list_elem_of_In, (mapGet_entry _ _ _ (evaluationMap_keys scores)) in Hin.
  rewrite evaluationMap_lookup in Hin. apply lastWith_Some in Hin as [Hs Hk].
  split; [done|]. exists k. split; [|done].
  unfold hasKey in Hk. by apply bool_decide_eq_true in Hk.
Qed.

Lemma strategy5_None scores blockName topicName sc k :
  strategy5 (buildMaps scores) blockName topicName = None ->
  sc ∈ scores -> k ∈ keysOf sc -> contains (normalizeText topicName) k = false.
Proof.
  unfold strategy5.
  destruct (List.find _ _) as [[k' v]|] eqn:F; simpl; [done|]. intros _ Hs Hk.
  destruct (mapGet k (evaluationMap (buildMaps scores))) as [v|] eqn:G.
  - apply mapGet_In, list_elem_of_In in G. by apply (find_none _ _ F) in G.
  - rewrite evaluationMap_lookup in G. apply (lastWith_None _ _ sc) in G; [|done].
    unfold hasKey in G. apply bool_decide_eq_false in G. done.
Qed.

Lemma lastWith_exists P scores sc :
  sc ∈ scores -> P sc = true -> exists sc', lastWith P scores = Some sc'.
Proof.
  intros Hin HP. destruct (lastWith P scores) as [sc'|] eqn:E; [eauto|].
  apply (lastWith_None _ _ sc) in E; [congruence|done].
Qed.

(** C2, as the code has it.  For the maps built from the scorer's entries:
    the five lookups are tried in the order exact key, normalized key, topic
    text alone, block alone, containment between normalized topic and
    normalized key, and the first that yields an entry decides; the first
    four return the last entry stored under what they look up; an entry whose
    labels equal the catalog's after normalization is found by the second
    lookup when the first finds nothing.  An applicable topic for which every
    lookup fails is reported as 'Sin evaluar' with an explanatory reason,
    outside the highlight class, whereas a found score of zero is the number
    0 inside it.  A topic that does not apply is reported as 'n/a' without
    any lookup. *)
Theorem reconciliation_order (scores : list DetailedScore)
    (bName tName : jsstring) (t : EvaluationTopic) (b : EvaluationBlock)
    (colNum : nat) :
  let m := buildMaps scores in
  let found := findScore m bName tName in
  let s1 := strategy1 m bName tName in
  let s2 := strategy2 m bName tName in
  let s3 := strategy3 m bName tName in
  let s4 := strategy4 m bName tName in
  let s5 := strategy5 m bName tName in
  let nkey := pairKey (normalizeText bName) (normalizeText tName) in
  ((forall sc, s1 = Some sc -> found = Some sc)
   /\ (forall sc, s1 = None -> s2 = Some sc -> found = Some sc)
   /\ (forall sc, s1 = None -> s2 = None -> s3 = Some sc -> found = Some sc)
   /\ (forall sc, s1 = None -> s2 = None -> s3 = None -> s4 = Some sc ->
       found = Some sc)
   /\ (forall sc, s1 = None -> s2 = None -> s3 = None -> s4 = None ->
       s5 = Some sc -> found = Some sc)
   /\ (s1 = None -> s2 = None -> s3 = None -> s4 = None -> s5 = None ->
       found = None))
  /\ (s1 = lastWith (hasKey (pairKey bName tName)) scores
      /\ s2 = lastWith (hasKey nkey) scores
      /\ s3 = lastWith (hasTopic tName) scores
      /\ s4 = lastWith (hasBlock bName) scores
      /\ (forall sc, s5 = Some sc ->
          sc ∈ scores
          /\ exists k, k ∈ keysOf sc /\ contains (normalizeText tName) k = true)
      /\ (s5 = None -> forall sc k, sc ∈ scores -> k ∈ keysOf sc ->
          contains (normalizeText tName) k = false))
  /\ (forall sc block topic,
        sc ∈ scores -> parsedLabels sc = Some (block, topic) ->
        normalizeText block = normalizeText bName ->
        normalizeText topic = normalizeText tName ->
        exists sc', s2 = Some sc' /\ sc' ∈ scores /\ nkey ∈ keysOf sc'
                    /\ (s1 = None -> found = Some sc'))
  /\ (applies t = true -> found = None ->
      getTopicValueWithReason m bName tName t
      = mkTopicValue (VStr (u8 "Sin evaluar"))
          (u8 "No se encontró evidencia suficiente en transcripción ni en capturas para evaluar este criterio")
          false
      /\ getTopicResult m bName tName t
         = mkTopicResult (VStr (u8 "Sin evaluar")) (u8 "No se encontró evidencia suficiente")
             (bool_decide (criticality t = Critico))
      /\ (bName = blockName b -> tName = topic t ->
          analysisMatrixCell m b t colNum
          = [ setValue 5 colNum (VStr (u8 "Sin evaluar"));
              setFill 5 colNum (u8 "FFF2F2F2");
              setFont 5 colNum (italicColor 9 (u8 "FF666666"));
              setNote 5 colNum
                [ mkNoteText false
                    (u8 "No se encontró evidencia suficiente en transcripción ni en capturas para evaluar este criterio") ] ]))
  /\ (applies t = true -> forall sc, found = Some sc -> Qeq_bool (score sc) 0 = true ->
      getTopicValueWithReason m bName tName t
      = mkTopicValue (VNum 0) (orStr (observations sc) (u8 "No cumplió con el criterio")) true
      /\ (bName = blockName b -> tName = topic t ->
          analysisMatrixCell m b t colNum
          = [ setValue 5 colNum (VNum 0);
              setFill 5 colNum (u8 "FF000000");
              setFont 5 colNum (boldColor 10 (u8 "FFFFFFFF"));
              setNote 5 colNum
                [ mkNoteText false
                    (orStr (observations sc) (u8 "No cumplió con el criterio")) ] ]))
  /\ (applies t = false ->
      getTopicValueWithReason m bName tName t
      = mkTopicValue (VStr (u8 "n/a")) (u8 "No aplica según el contexto de la llamada") false
      /\ getTopicResult m bName tName t
         = mkTopicResult (VStr (u8 "n/a")) (u8 "No aplica") false).
Proof.
  intros m found s1 s2 s3 s4 s5 nkey.
  assert (Hfound : found = match s1 with Some sc => Some sc | None =>
                   match s2 with Some sc => Some sc | None =>
                   match s3 with Some sc => Some sc | None =>
                   match s4 with Some sc => Some sc | None => s5 end end end end).
  { subst found s1 s2 s3 s4 s5. unfold findScore, strategies. simpl.
    repeat (match goal with |- context [match ?x with _ => _ end] =>
              destruct x; try done end). }
  assert (H2 : s2 = lastWith (hasKey nkey) scores) by apply evaluationMap_lookup.
  split; [|split; [|split; [|split; [|split]]]].
  - rewrite Hfound. repeat split.
    + by intros sc ->.
    + by intros sc -> ->.
    + by intros sc -> -> ->.
    + by intros sc -> -> -> ->.
    + by intros sc -> -> -> ->.
    + by intros -> -> -> ->.
  - split; [apply evaluationMap_lookup|]. split; [exact H2|].
    split; [apply byTopic_lookup|]. split; [apply byBlock_lookup|].
    split; [apply strategy5_Some|]. intros H sc k.
    by apply (strategy5_None scores bName tName).
  - intros sc block topic Hin Hp Hb Ht.
    assert (Hk : hasKey nkey sc = true).
    { unfold hasKey, keysOf. rewrite Hp. apply bool_decide_eq_true.
      subst nkey. rewrite <- Hb, <- Ht. rewrite !elem_of_cons. auto. }
    destruct (lastWith_exists _ _ _ Hin Hk) as [sc' E].
    exists sc'. rewrite H2. split; [done|].
    destruct (lastWith_Some _ _ _ E) as [Hs' Hk']. split; [done|].
    split; [by apply bool_decide_eq_true in Hk'|].
    intros E1. by rewrite Hfound, E1, H2, E.
  - intros Ha Hn. unfold getTopicValueWithReason, getTopicResult.
    rewrite Ha. simpl. fold m. fold found. rewrite Hn.
    split; [done|]. split; [done|]. intros -> ->.
    unfold analysisMatrixCell, getTopicValueWithReason. rewrite Ha. simpl.
    fold m. fold found. by rewrite Hn.
  - intros Ha sc Hf Hz. unfold getTopicValueWithReason.
    rewrite Ha. simpl. fold m. fold found. rewrite Hf, Hz.
    split; [done|]. intros -> ->.
    unfold analysisMatrixCell, getTopicValueWithReason. rewrite Ha. simpl.
    fold m. fold found. by rewrite Hf, Hz.
  - intros Ha. unfold getTopicValueWithReason, getTopicResult. by rewrite Ha.
Qed.

Lemma reconciliation_order_witness :
  strategy1 (buildMaps [closureScore]) (u8 "Closure") (u8 "Correct case closure") = None
  /\ findScore (buildMaps [closureScore]) (u8 "Closure") (u8 "Correct case closure")
     = Some closureScore.
Proof.
  destruct (reconciliation_order [closureScore] (u8 "Closure") (u8 "Correct case closure")
              closureTopic (mkBlock (u8 "Closure") [closureTopic]) 9)
    as (_ & _ & Hnorm & _).
  destruct (Hnorm closureScore (u8 "Closure") (u8 "correct case closure"))
    as (sc' & H2 & _ & _ & Hfound).
  - constructor.
  - reflexivity.
  - reflexivity.
  - reflexivity.
  - split; [reflexivity|].
    rewrite (Hfound eq_refl). vm_compute in H2. by injection H2 as <-.
Defined.

(** The literal scenario: the entry is found by the normalized lookup and
    rendered as a full score with its justification. *)
Example closure_scored :
  getTopicValueWithReason (buildMaps [closureScore]) (u8 "Closure")
    (u8 "Correct case closure") closureTopic
  = mkTopicValue (VNum 5) (u8 "Agent confirmed next steps") true.
Proof. vm_compute. reflexivity. Qed.

(** The same catalog when the scorer returns no entry at all. *)
Example closure_unevaluated :
  tv_value (getTopicValueWithReason (buildMaps []) (u8 "Closure")
              (u8 "Correct case closure") closureTopic)
  = VStr (u8 "Sin evaluar").
Proof. reflexivity. Qed.

(** C2, counterexample: a catalog topic that does not apply is rendered
    'n/a' although the exact lookup would succeed, and 'n/a' rather than
    'Sin evaluar' when every lookup fails. *)
Lemma reconciliation_skipped_when_not_applicable :
  In hotlistTopic (flat_map topics FRAUD_CRITERIA)
  /\ strategy1 (buildMaps [hotlistScore]) (u8 "Falcon") (topic hotlistTopic)
     = Some hotlistScore
  /\ tv_value (getTopicValueWithReason (buildMaps [hotlistScore]) (u8 "Falcon")
                 (topic hotlistTopic) hotlistTopic) = VStr (u8 "n/a")
  /\ findScore (buildMaps []) (u8 "Falcon") (topic hotlistTopic) = None
  /\ tv_value (getTopicValueWithReason (buildMaps []) (u8 "Falcon")
                 (topic hotlistTopic) hotlistTopic) = VStr (u8 "n/a")
  /\ VStr (u8 "n/a") <> VStr (u8 "Sin evaluar").
Proof.
  split.
  { apply list_elem_of_In. by computing (hotlistTopic ∈ flat_map topics FRAUD_CRITERIA). }
  repeat split; try reflexivity. intros H. discriminate H.
Qed.

(* ===================================================================== *)
(** * Layout of the rendered sheets                                       *)
(* ===================================================================== *)

Lemma getCell_apply w sh r c :
  getCell (apply w sh) r c
  = if onCell r c w then assign (w_what w) (getCell sh r c) else getCell sh r c.
Proof.
  unfold getCell, apply, onCell.
  destruct (Nat.eqb_spec (w_col w) c) as [->|Hc]; simpl.
  - destruct (Nat.eqb_spec (w_row w) r) as [->|Hr].
    + by rewrite lookup_insert_eq.
    + rewrite lookup_insert_ne; [done|congruence].
  - rewrite lookup_insert_ne; [done|congruence].
Qed.

Lemma getCell_run ws sh r c :
  getCell (run ws sh) r c = cellAfter ws r c (getCell sh r c).
Proof.
  unfold run, cellAfter. revert sh.
  induction ws as [|w ws IH]; intros sh; simpl; [done|].
  by rewrite IH, getCell_apply.
Qed.

Lemma run_app a b sh : run (a ++ b) sh = run b (run a sh).
Proof. unfold run. apply fold_left_app. Qed.

Lemma cellAfter_app a b r c x :
  cellAfter (a ++ b) r c x = cellAfter b r c (cellAfter a r c x).
Proof. unfold cellAfter. apply fold_left_app. Qed.

Lemma cellAfter_untouched ws r c x :
  Forall (fun w => onCell r c w = false) ws -> cellAfter ws r c x = x.
Proof.
  unfold cellAfter. induction 1 as [|w ws Hw _ IH]; simpl; [done|].
  by rewrite Hw.
Qed.

Lemma onCell_true r c w : onCell r c w = true <-> w_row w = r /\ w_col w = c.
Proof.
  unfold onCell. rewrite andb_true_iff, !Nat.eqb_eq. tauto.
Qed.

Lemma onCell_false r c w : w_row w <> r \/ w_col w <> c -> onCell r c w = false.
Proof.
  intros H. destruct (onCell r c w) eqn:E; [|done].
  apply onCell_true in E. tauto.
Qed.

Lemma numbered_app {A} (a b : list A) n :
  numbered n (a ++ b) = numbered n a ++ numbered (n + length a) b.
Proof.
  revert n. induction a as [|x a IH]; intros n; simpl.
  - by rewrite Nat.add_0_r.
  - by rewrite IH, Nat.add_succ_r.
Qed.

Lemma numbered_In {A} (l : list A) n j x :
  In (j, x) (numbered n l) -> exists i, j = (n + i)%nat /\ l !! i = Some x.
Proof.
  revert n. induction l as [|y l IH]; intros n; simpl; [done|].
  intros [[= <- <-]|H].
  - exists 0%nat. by rewrite Nat.add_0_r.
  - destruct (IH _ H) as (i & -> & Hi). exists (S i). split; [lia|done].
Qed.

Lemma numbered_length {A} (l : list A) n : length (numbered n l) = length l.
Proof. revert n. induction l; intros; simpl; auto. Qed.

Lemma loopWrites_app {A} (body : A -> nat -> list Write) n a b :
  loopWrites body n (a ++ b)
  = loopWrites body n a ++ loopWrites body (n + length a) b.
Proof. unfold loopWrites. by rewrite numbered_app, flat_map_app. Qed.

(** A loop whose body, at counter [j], touches the cell only when [j] is
    the counter of the [i]-th element leaves there what the [i]-th body
    leaves. *)
Lemma cellAfter_loop {A} (body : A -> nat -> list Write) n0 l r c i y x :
  (forall z j w, In w (body z j) -> onCell r c w = true -> j = (n0 + i)%nat) ->
  l !! i = Some y ->
  cellAfter (loopWrites body n0 l) r c x = cellAfter (body y (n0 + i)%nat) r c x.
Proof.
  intros Honly Hi.
  assert (Hskip : forall l' n, (forall j z, In (j, z) (numbered n l') -> j <> (n0 + i)%nat) ->
            forall x', cellAfter (loopWrites body n l') r c x' = x').
  { intros l' n Hne x'. apply cellAfter_untouched, Forall_forall.
    intros w Hw. apply list_elem_of_In, in_flat_map in Hw as ([j z] & Hin & Hw).
    destruct (onCell r c w) eqn:E; [|done].
    apply (Honly _ _ _ Hw) in E. by apply Hne in Hin. }
  rewrite <- (take_drop_middle l i y Hi).
  rewrite loopWrites_app, cellAfter_app.
  assert (Hlen : length (take i l) = i).
  { apply length_take_le. apply lookup_lt_Some in Hi. lia. }
  rewrite Hlen.
  change (loopWrites body (n0 + i) (y :: drop (S i) l))
    with (body y (n0 + i)%nat ++ loopWrites body (S (n0 + i)) (drop (S i) l)).
  rewrite cellAfter_app. rewrite (Hskip (take i l)), (Hskip (drop (S i) l)); [done| |].
  - intros j z Hin. apply numbered_In in Hin as (k & -> & _). lia.
  - intros j z Hin. apply numbered_In in Hin as (k & -> & Hk).
    apply lookup_lt_Some in Hk. rewrite Hlen in Hk. lia.
Qed.

(** A loop none of whose bodies touches the cell leaves it as it was. *)
Lemma cellAfter_loop_untouched {A} (body : A -> nat -> list Write) n0 l r c x :
  (forall z i w, l !! i = Some z -> In w (body z (n0 + i)%nat) -> onCell r c w = false) ->
  cellAfter (loopWrites body n0 l) r c x = x.
Proof.
  intros H. apply cellAfter_untouched, Forall_forall.
  intros w Hw. apply list_elem_of_In, in_flat_map in Hw as ([j z] & Hin & Hw).
  apply numbered_In in Hin as (i & -> & Hi). by apply (H z i).
Qed.

Lemma run_loopWrites_cons {A} (body : A -> nat -> list Write) n y l sh :
  run (loopWrites body n (y :: l)) sh = run (loopWrites body (S n) l) (run (body y n) sh).
Proof.
  change (loopWrites body n (y :: l)) with (body y n ++ loopWrites body (S n) l).
  apply run_app.
Qed.

(** The two nested [forEach] with a running counter are one loop over the
    flattened catalog. *)
Lemma forEachTopic_run criteria body n0 sh :
  forEachTopic criteria body n0 sh
  = (run (loopWrites (fun bt j => body bt.1 bt.2 j) n0 (flatTopics criteria)) sh,
     (n0 + length (flatTopics criteria))%nat).
Proof.
  unfold forEachTopic, flatTopics.
  revert n0 sh. induction criteria as [|block cs IH]; intros n0 sh; simpl.
  - by rewrite Nat.add_0_r.
  - assert (Hin : forall ts n s,
      fold_left (fun st t => (run (body block t st.2) st.1, S st.2)) ts (s, n)
      = (run (loopWrites (fun bt j => body bt.1 bt.2 j) n (map (fun t => (block, t)) ts)) s,
         (n + length ts)%nat)).
    { induction ts as [|t ts IHt]; intros n s; simpl.
      - by rewrite Nat.add_0_r.
      - rewrite IHt, run_loopWrites_cons. simpl. f_equal. lia. }
    rewrite Hin, IH, loopWrites_app, run_app.
    by rewrite length_app, length_map, Nat.add_assoc.
Qed.

Lemma monitoreoRows_run m criteria r0 sh :
  monitoreoRows m criteria r0 sh
  = (run (loopWrites (fun x j => monitoreoRow m x.1.1 x.1.2 x.2 j) r0
            (indexedTopics criteria)) sh,
     (r0 + length (indexedTopics criteria))%nat).
Proof.
  unfold monitoreoRows, indexedTopics.
  revert r0 sh. induction criteria as [|block cs IH]; intros r0 sh; simpl.
  - by rewrite Nat.add_0_r.
  - assert (Hin : forall ts n k s,
      fold_left (fun st' t => let '(sh, row, topicIdx) := st' in
                   (run (monitoreoRow m block t topicIdx row) sh, S row, S topicIdx))
        ts (s, n, k)
      = (run (loopWrites (fun x j => monitoreoRow m x.1.1 x.1.2 x.2 j) n
                (map (fun p => (block, p.2, p.1)) (numbered k ts))) s,
         (n + length ts)%nat, (k + length ts)%nat)).
    { induction ts as [|t ts IHt]; intros n k s; simpl.
      - by rewrite !Nat.add_0_r.
      - rewrite IHt, run_loopWrites_cons. simpl. repeat f_equal; lia. }
    rewrite Hin. simpl. rewrite IH, loopWrites_app, run_app.
    by rewrite length_app, length_map, numbered_length, Nat.add_assoc.
Qed.

Lemma indexedTopics_flatTopics criteria :
  map fst (indexedTopics criteria) = flatTopics criteria.
Proof.
  unfold indexedTopics, flatTopics.
  induction criteria as [|block cs IH]; simpl; [done|].
  rewrite map_app, IH. f_equal.
  generalize 0%nat. induction (topics block) as [|t ts IHt]; intros k; simpl; [done|].
  by rewrite IHt.
Qed.

Lemma indexedTopics_lookup criteria i b t :
  flatTopics criteria !! i = Some (b, t) ->
  exists k, indexedTopics criteria !! i = Some (b, t, k).
Proof.
  rewrite <- indexedTopics_flatTopics.
  change (map fst (indexedTopics criteria)) with (fst <$> indexedTopics criteria).
  rewrite list_lookup_fmap.
  destruct (indexedTopics criteria !! i) as [[[b' t'] k]|]; simpl; [|done].
  intros [= -> ->]. by exists k.
Qed.

Lemma indexedTopics_length criteria :
  length (indexedTopics criteria) = length (flatTopics criteria).
Proof. by rewrite <- indexedTopics_flatTopics, length_map. Qed.

Lemma cellAfter_where (p : Write -> bool) ws r c x :
  forallb p ws = true ->
  (forall w, p w = true -> w_row w <> r \/ w_col w <> c) ->
  cellAfter ws r c x = x.
Proof.
  intros Hall Hp. apply cellAfter_untouched, Forall_forall. intros w Hw.
  apply onCell_false, Hp. rewrite forallb_forall in Hall.
  by apply Hall, list_elem_of_In.
Qed.

Lemma cellAfter_above k ws r c x :
  forallb (fun w => w_row w <? k)%nat ws = true -> (k <= r)%nat ->
  cellAfter ws r c x = x.
Proof.
  intros H Hk. apply (cellAfter_where _ _ _ _ _ H).
  intros w Hw. apply Nat.ltb_lt in Hw. lia.
Qed.

Lemma cellAfter_other_col k ws r c x :
  forallb (fun w => Nat.eqb (w_col w) k) ws = true -> k <> c ->
  cellAfter ws r c x = x.
Proof.
  intros H Hk. apply (cellAfter_where _ _ _ _ _ H).
  intros w Hw. apply Nat.eqb_eq in Hw. lia.
Qed.

Lemma cellAfter_keeps_note ws r c x :
  forallb keepsNote ws = true -> note (cellAfter ws r c x) = note (x).
Proof.
  unfold cellAfter. revert x.
  induction ws as [|w ws IH]; intros x; simpl; [done|].
  intros [Hw Hws]%andb_true_iff. rewrite (IH _ Hws).
  destruct (onCell r c w); [|done].
  unfold keepsNote in Hw. by destruct (w_what w).
Qed.

Ltac writes_shape :=
  repeat first
    [ exact I
    | apply Forall_nil
    | apply List.Forall_cons; [simpl; lia|]
    | apply Forall_app; split
    | progress cbn [map]
    | case_match ].

Lemma analysisRow_shape m b t r idx :
  Forall (fun w => w_row w = r /\ (1 <= w_col w <= 8)%nat) (analysisRow m b t r idx).
Proof. unfold analysisRow, dataStyle, at_, scoreStyle. writes_shape. Qed.

Lemma analysisMatrixCell_shape m b t col :
  Forall (fun w => w_row w = 5%nat /\ w_col w = col) (analysisMatrixCell m b t col).
Proof. unfold analysisMatrixCell. writes_shape. Qed.

Lemma header_shape r col s :
  Forall (fun w => w_row w = r /\ w_col w = col) (str r col s :: headerStyleA r col).
Proof. unfold headerStyleA. writes_shape. Qed.

Lemma monitoreoRow_shape m b t k r :
  Forall (fun w => w_row w = r /\ (2 <= w_col w <= 4)%nat) (monitoreoRow m b t k r).
Proof. unfold monitoreoRow, greyUnevaluated, at_, scoreStyle. writes_shape. Qed.

Lemma onCell_same r c a : onCell r c (mkWrite r c a) = true.
Proof. unfold onCell. simpl. by rewrite !Nat.eqb_refl. Qed.

Ltac cell_eval :=
  unfold str, setValue, setFont, setFill, setNote;
  cbn [fold_left app map];
  rewrite ?onCell_same;
  cbn [fold_left onCell w_col w_row w_what Nat.eqb andb assign value font fill note].

Ltac row_eval :=
  cbn [fold_left app map onCell w_col w_row w_what Nat.eqb andb assign
       value font fill note str setValue setFont setFill setNote];
  rewrite ?Nat.eqb_refl;
  cbn [fold_left app map onCell w_col w_row w_what Nat.eqb andb assign
       value font fill note str setValue setFont setFill setNote].

Lemma analysisRow_block m b t r idx x :
  value (cellAfter (analysisRow m b t r idx) r 2 x) = Some (VStr (blockName b)).
Proof.
  unfold analysisRow, cellAfter, dataStyle, at_, scoreStyle.
  repeat case_match; row_eval; reflexivity.
Qed.

Lemma analysisRow_topic m b t r idx x :
  value (cellAfter (analysisRow m b t r idx) r 4 x) = Some (VStr (topic t)).
Proof.
  unfold analysisRow, cellAfter, dataStyle, at_, scoreStyle.
  repeat case_match; row_eval; reflexivity.
Qed.

Lemma analysisRow_points m b t r idx x :
  value (cellAfter (analysisRow m b t r idx) r 5 x) = Some (pointsValue (points t)).
Proof.
  unfold analysisRow, cellAfter, dataStyle, at_, scoreStyle.
  repeat case_match; row_eval; reflexivity.
Qed.

Lemma analysisMatrixCell_value m b t col x :
  value (cellAfter (analysisMatrixCell m b t col) 5 col x)
  = Some (tv_value (getTopicValueWithReason m (blockName b) (topic t) t)).
Proof.
  unfold analysisMatrixCell, cellAfter.
  repeat case_match; cell_eval; reflexivity.
Qed.

Lemma analysisMatrixCell_note m b t col x :
  let result := getTopicValueWithReason m (blockName b) (topic t) t in
  note (cellAfter (analysisMatrixCell m b t col) 5 col x)
  = if shouldHighlight result || negb (isStr (tv_value result) (u8 "n/a"))
    then Some [ mkNoteText false (tv_reason result) ]
    else note x.
Proof.
  unfold analysisMatrixCell, cellAfter.
  repeat case_match; cell_eval; try reflexivity; simpl in *; congruence.
Qed.

Lemma monitoreoRow_topic m b t k r x :
  value (cellAfter (monitoreoRow m b t k r) r 3 x) = Some (VStr (topic t)).
Proof.
  unfold monitoreoRow, cellAfter, greyUnevaluated, at_, scoreStyle.
  repeat case_match; cell_eval; reflexivity.
Qed.

Lemma monitoreoRow_value m b t k r x :
  value (cellAfter (monitoreoRow m b t k r) r 4 x)
  = Some (tr_value (getTopicResult m (blockName b) (topic t) t)).
Proof.
  assert (Hna : negb (applies t) = true ->
                tr_value (getTopicResult m (blockName b) (topic t) t) = VStr (u8 "n/a")).
  { intros H. unfold getTopicResult. by rewrite H. }
  unfold monitoreoRow, cellAfter, greyUnevaluated, at_, scoreStyle.
  repeat case_match; cell_eval; try reflexivity; by rewrite Hna.
Qed.

Lemma monitoreoRow_note m b t k r x :
  let result := getTopicResult m (blockName b) (topic t) t in
  note (cellAfter (monitoreoRow m b t k r) r 4 x)
  = if negb (bool_decide (tr_reason result = []))
       && negb (bool_decide (tr_reason result = u8 "No aplica"))
    then Some [ mkNoteText true (ponderacionText t); mkNoteText false (tr_reason result) ]
    else note x.
Proof.
  unfold monitoreoRow, cellAfter, greyUnevaluated, at_, scoreStyle.
  repeat case_match; cell_eval; reflexivity.
Qed.

Lemma orStr_nonempty a b : b <> [] -> orStr a b <> [].
Proof. by destruct a. Qed.

(** An applicable topic always has a reason text. *)
Lemma getTopicResult_reason m bName tName t :
  applies t = true -> tr_reason (getTopicResult m bName tName t) <> [].
Proof.
  intros Ha. unfold getTopicResult. rewrite Ha. simpl.
  repeat case_match; simpl; try apply orStr_nonempty; intros H'; by vm_compute in H'.
Qed.

Lemma flatTopics_length callType :
  (length (flatTopics (getCriteriaForCallType callType)) <= 31)%nat.
Proof.
  unfold getCriteriaForCallType. repeat case_match; vm_compute; lia.
Qed.

Ltac fixed_untouched :=
  repeat (apply List.Forall_cons || apply List.Forall_nil);
  apply onCell_false; cbn [w_row w_col str setValue setFont setFill]; lia.

Section Sheets.

Variable Number_toString : Q -> jsstring.
Variable toFixed1 : Q -> jsstring.

#[local] Abbreviation analysisSheet := (createAnalysisSheet Number_toString toFixed1).
#[local] Abbreviation monitoreoSheet := (createMonitoreoSheet Number_toString).

Ltac open_analysis :=
  unfold createAnalysisSheet; cbv zeta;
  rewrite !forEachTopic_run; cbn [fst];
  rewrite !getCell_run.

Ltac by_shape lem :=
  let H := fresh in
  match goal with
  | Hw : In ?w _ |- _ =>
      pose proof (proj1 (Forall_forall _ _) lem w (proj2 (list_elem_of_In _ _) Hw)) as H;
      cbn beta in H
  end.

(** The list view: the row of the [i]-th topic is written by the [i]-th
    run of the row loop and by nothing else. *)
Lemma createAnalysisSheet_row sh a e i b t c :
  flatTopics (getCriteriaForCallType (callType a)) !! i = Some (b, t) ->
  (c <= 8)%nat ->
  getCell (analysisSheet sh a e) (5 + i) c
  = cellAfter (analysisRow (buildMaps (detailedScores e)) b t (5 + i) (5 + i - 4))
      (5 + i) c (getCell sh (5 + i) c).
Proof.
  intros Hi Hc. open_analysis.
  rewrite (cellAfter_other_col 40) by (reflexivity || lia).
  rewrite cellAfter_loop_untouched.
  2:{ intros z k w _ Hw. by_shape (analysisMatrixCell_shape (buildMaps (detailedScores e)) z.1 z.2 (9 + k)).
      apply onCell_false. lia. }
  rewrite (cellAfter_loop _ 5 _ _ _ i (b, t)); [|
    intros z j w Hw Hon; apply onCell_true in Hon;
    by_shape (analysisRow_shape (buildMaps (detailedScores e)) z.1 z.2 j (j - 4)); lia | done].
  cbn [fst snd]. f_equal.
  rewrite (cellAfter_above 5) by (reflexivity || lia).
  rewrite cellAfter_loop_untouched.
  2:{ intros z k w _ Hw.
      by_shape (header_shape 4 (9 + k) (blockName z.1 ++ u8 ": " ++ topic z.2)).
      apply onCell_false. lia. }
  by rewrite (cellAfter_above 5) by (reflexivity || lia).
Qed.

(** Below the last topic the list view is empty. *)
Lemma createAnalysisSheet_below sh a e r c :
  (5 + length (flatTopics (getCriteriaForCallType (callType a))) <= r)%nat ->
  (c <= 8)%nat ->
  getCell (analysisSheet sh a e) r c = getCell sh r c.
Proof.
  intros Hr Hc. open_analysis.
  rewrite (cellAfter_other_col 40) by (reflexivity || lia).
  rewrite cellAfter_loop_untouched.
  2:{ intros z k w _ Hw. by_shape (analysisMatrixCell_shape (buildMaps (detailedScores e)) z.1 z.2 (9 + k)).
      apply onCell_false. lia. }
  rewrite cellAfter_loop_untouched.
  2:{ intros z k w Hk Hw. apply lookup_lt_Some in Hk.
      by_shape (analysisRow_shape (buildMaps (detailedScores e)) z.1 z.2 (5 + k) (5 + k - 4)).
      apply onCell_false. lia. }
  rewrite (cellAfter_above 5) by (reflexivity || lia).
  rewrite cellAfter_loop_untouched.
  2:{ intros z k w _ Hw.
      by_shape (header_shape 4 (9 + k) (blockName z.1 ++ u8 ": " ++ topic z.2)).
      apply onCell_false. lia. }
  by rewrite (cellAfter_above 5) by (reflexivity || lia).
Qed.

(** The matrix view: the cell of the [i]-th topic in row 5. *)
Lemma createAnalysisSheet_matrix sh a e i b t :
  flatTopics (getCriteriaForCallType (callType a)) !! i = Some (b, t) ->
  let x := cellAfter (analysisMatrixCell (buildMaps (detailedScores e)) b t (9 + i))
             5 (9 + i) (getCell sh 5 (9 + i)) in
  value (getCell (analysisSheet sh a e) 5 (9 + i)) = value x
  /\ note (getCell (analysisSheet sh a e) 5 (9 + i)) = note x.
Proof.
  intros Hi x.
  assert (Hlt : (i < 31)%nat).
  { apply lookup_lt_Some in Hi. pose proof (flatTopics_length (callType a)). lia. }
  assert (getCell (analysisSheet sh a e) 5 (9 + i) = x) as ->; [|done].
  subst x. open_analysis.
  rewrite (cellAfter_other_col 40) by (reflexivity || lia).
  rewrite (cellAfter_loop _ 9 _ _ _ i (b, t)); [|
    intros z j w Hw Hon; apply onCell_true in Hon;
    by_shape (analysisMatrixCell_shape (buildMaps (detailedScores e)) z.1 z.2 j); lia | done].
  cbn [fst snd]. f_equal.
  rewrite cellAfter_loop_untouched.
  2:{ intros z k w _ Hw.
      by_shape (analysisRow_shape (buildMaps (detailedScores e)) z.1 z.2 (5 + k) (5 + k - 4)).
      apply onCell_false. lia. }
  rewrite (cellAfter_above 5) by (reflexivity || lia).
  rewrite cellAfter_loop_untouched.
  2:{ intros z k w _ Hw.
      by_shape (header_shape 4 (9 + k) (blockName z.1 ++ u8 ": " ++ topic z.2)).
      apply onCell_false. lia. }
  by rewrite (cellAfter_above 5) by (reflexivity || lia).
Qed.

(** The vertical layout: the row of the [i]-th topic is written by the
    [i]-th run of the row loop and by nothing else. *)
Lemma createMonitoreoSheet_row sh a e i b t c :
  flatTopics (getCriteriaForCallType (callType a)) !! i = Some (b, t) ->
  exists k,
    getCell (monitoreoSheet sh a e) (4 + i) c
    = cellAfter (monitoreoRow (buildMaps (detailedScores e)) b t k (4 + i))
        (4 + i) c (getCell sh (4 + i) c).
Proof.
  intros Hi. destruct (indexedTopics_lookup _ _ _ _ Hi) as [k Hk]. exists k.
  pose proof (lookup_lt_Some _ _ _ Hk) as Hlt.
  unfold createMonitoreoSheet. cbv zeta.
  rewrite monitoreoRows_run. cbv beta iota.
  rewrite !getCell_run.
  rewrite cellAfter_untouched by fixed_untouched.
  rewrite (cellAfter_loop _ 4 _ _ _ i (b, t, k)); [|
    intros z j w Hw Hon; apply onCell_true in Hon;
    by_shape (monitoreoRow_shape (buildMaps (detailedScores e)) z.1.1 z.1.2 z.2 j); lia | done].
  cbn [fst snd]. f_equal.
  by rewrite (cellAfter_above 4) by (reflexivity || lia).
Qed.

(** The row after the last topic is the total. *)
Lemma createMonitoreoSheet_total sh a e :
  let n := length (flatTopics (getCriteriaForCallType (callType a))) in
  value (getCell (monitoreoSheet sh a e) (4 + n) 3) = Some (VStr (u8 "Total")).
Proof.
  intros n. subst n. rewrite <- indexedTopics_length.
  unfold createMonitoreoSheet. cbv zeta.
  rewrite monitoreoRows_run. cbv beta iota.
  rewrite getCell_run.
  set (total := (4 + length (indexedTopics (getCriteriaForCallType (callType a))))%nat).
  unfold cellAfter, str, setValue, setFont, setFill.
  cbn [fold_left]. rewrite !onCell_same.
  assert (onCell total 3 (mkWrite (total + 2) 3
            (AValue (VStr (monitoreoObservations e)))) = false) as ->.
  { apply onCell_false. simpl. lia. }
  assert (onCell total 3 (mkWrite (total + 2) 3 (AFont (plain 10))) = false) as ->.
  { apply onCell_false. simpl. lia. }
  cbn [onCell w_col w_row w_what Nat.eqb andb assign value]. reflexivity.
Qed.

Lemma getCell_empty r c : getCell ∅ r c = emptyCell.
Proof. unfold getCell. by rewrite lookup_empty. Qed.


End Sheets.



(* ===================================================================== *)
(** * Determinism of the report                                           *)
(* ===================================================================== *)

Lemma scoreStyle_class size v mx v' mx' :
  Qeq_bool v mx = Qeq_bool v' mx' -> Qeq_bool v 0 = Qeq_bool v' 0 ->
  scoreStyle size v mx = scoreStyle size v' mx'.
Proof. unfold scoreStyle. by intros -> ->. Qed.

Lemma Qeq_bool_proper a b c : Qeq_bool a b = true -> Qeq_bool b c = Qeq_bool a c.
Proof.
  intros H. apply Qeq_bool_iff in H.
  destruct (Qeq_bool a c) eqn:E.
  - apply Qeq_bool_iff. apply Qeq_bool_iff in E. by rewrite <- H.
  - destruct (Qeq_bool b c) eqn:E'; [|done].
    apply Qeq_bool_iff in E'.
    assert (Qeq_bool a c = true) by (apply Qeq_bool_iff; by rewrite H).
    congruence.
Qed.

(** The number shown for a found score is compared like the score. *)
Lemma shown_score_class s mx :
  let v := if Qeq_bool s 0 then 0%Q else s in
  Qeq_bool v mx = Qeq_bool s mx /\ Qeq_bool v 0 = Qeq_bool s 0.
Proof.
  simpl. destruct (Qeq_bool s 0) eqn:E; [|done].
  split; [|done]. by apply Qeq_bool_proper.
Qed.

(** What decides the styling of a score cell of the horizontal sheet. *)
Lemma getTopicValueWithReason_class m m' bn bn' tn tn' t t' r c :
  applies t = applies t' ->
  scoreClass (findScore m bn tn) t = scoreClass (findScore m' bn' tn') t' ->
  let res := getTopicValueWithReason m bn tn t in
  let res' := getTopicValueWithReason m' bn' tn' t' in
  shouldHighlight res = shouldHighlight res'
  /\ isStr (tv_value res) (u8 "n/a") = isStr (tv_value res') (u8 "n/a")
  /\ match tv_value res with
     | VNum v => at_ r c (scoreStyle 10 v (maxPointsOf t))
     | VStr _ => []
     end
     = match tv_value res' with
       | VNum v => at_ r c (scoreStyle 10 v (maxPointsOf t'))
       | VStr _ => []
       end.
Proof.
  intros Ha Hs. unfold getTopicValueWithReason. rewrite <- Ha.
  destruct (applies t); simpl; [|done].
  destruct (findScore m bn tn) as [s1|], (findScore m' bn' tn') as [s2|];
    simpl in Hs; try discriminate; [|done].
  injection Hs as H1 H2 _.
  destruct (shown_score_class (score s1) (maxPointsOf t)) as [A1 B1].
  destruct (shown_score_class (score s2) (maxPointsOf t')) as [A2 B2].
  simpl in A1, B1, A2, B2.
  assert (scoreStyle 10 (if Qeq_bool (score s1) 0 then 0%Q else score s1) (maxPointsOf t)
          = scoreStyle 10 (if Qeq_bool (score s2) 0 then 0%Q else score s2) (maxPointsOf t'))
    as Hst by (apply scoreStyle_class; congruence).
  destruct (Qeq_bool (score s1) 0), (Qeq_bool (score s2) 0); simpl; by rewrite Hst.
Qed.

Lemma filter_isStyle_app a b : styleOf (a ++ b) = styleOf a ++ styleOf b.
Proof. apply List.filter_app. Qed.

Lemma analysisRow_style m m' b b' t t' r idx idx' :
  applies t = applies t' -> criticality t = criticality t' ->
  scoreClass (findScore m (blockName b) (topic t)) t
  = scoreClass (findScore m' (blockName b') (topic t')) t' ->
  styleOf (analysisRow m b t r idx) = styleOf (analysisRow m' b' t' r idx').
Proof.
  intros Ha Hc Hs.
  destruct (getTopicValueWithReason_class m m' _ _ _ _ t t' r 6%nat Ha Hs) as (H1 & H2 & H3).
  unfold analysisRow. rewrite !filter_isStyle_app, H1, H2, H3, Hc.
  reflexivity.
Qed.

Lemma analysisMatrixCell_style m m' b b' t t' k :
  applies t = applies t' ->
  scoreClass (findScore m (blockName b) (topic t)) t
  = scoreClass (findScore m' (blockName b') (topic t')) t' ->
  styleOf (analysisMatrixCell m b t k) = styleOf (analysisMatrixCell m' b' t' k).
Proof.
  intros Ha Hs.
  destruct (getTopicValueWithReason_class m m' _ _ _ _ t t' 5%nat k Ha Hs) as (H1 & H2 & _).
  unfold analysisMatrixCell. rewrite !filter_isStyle_app, H1, H2.
  repeat case_match; reflexivity.
Qed.

Lemma note_unstyled (c : bool) r col n :
  styleOf (if c then [ setNote r col n ] else []) = [].
Proof. by destruct c. Qed.

Lemma monitoreoRow_style m m' b b' t t' k r :
  applies t = applies t' -> criticality t = criticality t' ->
  scoreClass (findScore m (blockName b) (topic t)) t
  = scoreClass (findScore m' (blockName b') (topic t')) t' ->
  styleOf (monitoreoRow m b t k r) = styleOf (monitoreoRow m' b' t' k r).
Proof.
  intros Ha Hc Hs. unfold monitoreoRow, getTopicResult.
  rewrite !filter_isStyle_app, !note_unstyled, <- Ha, <- Hc.
  f_equal; [by destruct (bool_decide (k = 0%nat))|].
  f_equal. f_equal.
  destruct (bool_decide (criticality t = Critico)), (applies t); simpl;
    try (repeat case_match; reflexivity).
  - destruct (findScore m _ _) as [s1|], (findScore m' _ _) as [s2|];
      simpl in Hs; try discriminate.
    + injection Hs as _ _ H3. simpl. rewrite ?filter_isStyle_app, H3.
      by destruct (Qle_bool (score s2) 0); repeat case_match.
    + simpl. rewrite ?filter_isStyle_app. by repeat case_match.
  - destruct (findScore m _ _) as [s1|], (findScore m' _ _) as [s2|];
      simpl in Hs; try discriminate.
    + injection Hs as H1 H2 _. simpl. rewrite ?filter_isStyle_app.
      rewrite (scoreStyle_class 10 _ _ _ _ H1 H2). by repeat case_match.
    + simpl. rewrite ?filter_isStyle_app. by repeat case_match.
Qed.

Section Report.

Variable Number_toString : Q -> jsstring.
Variable toFixed1 : Q -> jsstring.
Variable writeBuffer : Z -> Workbook -> list N.

#[local] Abbreviation workbookAt := (buildWorkbook Number_toString toFixed1).
#[local] Abbreviation report := (generateExcelReport Number_toString toFixed1 writeBuffer).


End Report.



(* ===================================================================== *)
(** * Result cache: maintenance operations                                *)
(* ===================================================================== *)

#[local] Abbreviation sweep w :=
  (fun (acc : gmap jsstring CacheEntry * nat) (ke : jsstring * CacheEntry) =>
     if expired w ke.2 then (delete ke.1 acc.1, S acc.2) else acc).

Lemma sweep_lookup (w : World) l m n k :
  (fold_left (sweep w) l (m, n)).1 !! k
  = if existsb (fun ke => bool_decide (ke.1 = k) && expired w ke.2) l
    then None else m !! k.
Proof.
  revert m n. induction l as [|[k0 e] l IH]; intros m n; simpl; [done|].
  destruct (expired w e) eqn:E; simpl.
  - rewrite IH. case_bool_decide as Hk; simpl.
    + subst k0. rewrite lookup_delete_eq. by destruct (existsb _ l).
    + by rewrite lookup_delete_ne.
  - rewrite IH. by rewrite andb_false_r.
Qed.

Lemma sweep_count (w : World) l m n :
  NoDup l.*1 -> (forall k e, (k, e) ∈ l -> m !! k = Some e) ->
  let r := fold_left (sweep w) l (m, n) in
  (r.2 + size r.1 = n + size m)%nat
  /\ (r.2 = n <-> forallb (fun ke => negb (expired w ke.2)) l = true)
  /\ (n <= r.2)%nat.
Proof.
  revert m n. induction l as [|[k0 e] l IH]; intros m n Hnd Hin.
  { simpl. split; [done|]. split; [done|lia]. }
  rewrite fmap_cons in Hnd. apply NoDup_cons in Hnd as [Hk0 Hnd].
  simpl. destruct (expired w e) eqn:E; simpl.
  - destruct (IH (delete k0 m) (S n) Hnd) as (H1 & H2 & H3).
    { intros k e' Hke. rewrite lookup_delete_ne.
      - apply Hin. by right.
      - intros <-. apply Hk0. apply list_elem_of_fmap. by exists (k0, e'). }
    simpl in *. split; [|split; [|lia]].
    + rewrite H1. assert (m !! k0 = Some e) as Hm by (apply Hin; left).
      pose proof (map_size_delete_Some k0 m (mk_is_Some _ _ Hm)).
      assert (size m <> 0%nat) by (intros ->%map_size_empty_inv; by rewrite lookup_empty in Hm).
      lia.
    + split; [lia|done].
  - apply IH; [done|]. intros k e' Hke. apply Hin. by right.
Qed.

Lemma sweep_none (w : World) l m n :
  forallb (fun ke => negb (expired w ke.2)) l = true ->
  fold_left (sweep w) l (m, n) = (m, n).
Proof.
  revert m n. induction l as [|[k0 e] l IH]; intros m n; simpl; [done|].
  intros [He Hl]%andb_true_iff. apply negb_true_iff in He. rewrite He. by apply IH.
Qed.

Lemma swept_expired (w : World) (m : gmap jsstring CacheEntry) (k : jsstring) :
  existsb (fun ke => bool_decide (ke.1 = k) && expired w ke.2) (map_to_list m) = true
  <-> exists e, m !! k = Some e /\ expired w e = true.
Proof.
  rewrite existsb_exists. split.
  - intros ([k' e] & Hin & H). apply andb_true_iff in H as [Hk He].
    apply bool_decide_eq_true in Hk. simpl in *. subst k'.
    exists e. split; [|done]. by apply elem_of_map_to_list, list_elem_of_In.
  - intros (e & Hm & He). exists (k, e). split.
    + by apply list_elem_of_In, elem_of_map_to_list.
    + simpl. by rewrite bool_decide_eq_true_2.
Qed.

Lemma cleanup_unfold (w : World) (st : State) :
  cleanup w st
  = let r := fold_left (sweep w) (map_to_list (cacheIndex st)) (cacheIndex st, 0%nat) in
    let st' := {| cacheIndex := r.1; savedIndex := savedIndex st |} in
    (r.2, if (0 <? r.2)%nat then saveCacheIndex st' else st').
Proof. unfold cleanup. by destruct (fold_left _ _ _). Qed.

Lemma cleanup_index (w : World) (st : State) k e :
  cacheIndex (cleanup w st).2 !! k = Some e
  <-> cacheIndex st !! k = Some e /\ expired w e = false.
Proof.
  rewrite cleanup_unfold. cbv zeta. cbn [snd].
  assert (forall r, cacheIndex (if (0 <? r.2)%nat
             then saveCacheIndex {| cacheIndex := r.1; savedIndex := savedIndex st |}
             else {| cacheIndex := r.1; savedIndex := savedIndex st |}) = r.1) as ->.
  { intros r. by destruct (0 <? r.2)%nat. }
  rewrite sweep_lookup.
  destruct (existsb _ _) eqn:E.
  - apply swept_expired in E as (e' & Hm & He). split; [done|].
    intros [Hm' He']. congruence.
  - split.
    + intros Hm. split; [done|]. destruct (expired w e) eqn:He; [|done].
      assert (existsb (fun ke => bool_decide (ke.1 = k) && expired w ke.2)
                (map_to_list (cacheIndex st)) = true) by (apply swept_expired; eauto).
      congruence.
    + by intros [Hm _].
Qed.

(** X1.  [cleanup] removes exactly the expired entries and reports how many; it
    writes the index back only when it removed something; run again at the
    same clock it removes nothing; and when CACHE_MAX_AGE_HOURS does not
    parse as a number no entry is ever removed. *)
Theorem cleanup_removes_expired (w : World) (st : State) :
  let n := (cleanup w st).1 in
  let st' := (cleanup w st).2 in
  (forall k e, cacheIndex st' !! k = Some e
               <-> cacheIndex st !! k = Some e /\ expired w e = false)
  /\ (n + size (cacheIndex st') = size (cacheIndex st))%nat
  /\ (n = 0%nat <-> forall k e, cacheIndex st !! k = Some e -> expired w e = false)
  /\ savedIndex st' = (if (0 <? n)%nat then cacheIndex st' else savedIndex st)
  /\ cleanup w st' = (0%nat, st')
  /\ (maxAgeHours w = None -> n = 0%nat /\ cacheIndex st' = cacheIndex st).
Proof.
  intros n st'.
  pose proof (sweep_count w (map_to_list (cacheIndex st)) (cacheIndex st) 0
                (NoDup_fst_map_to_list _)
                (fun k e H => proj1 (elem_of_map_to_list _ _ _) H)) as (Hsize & Hzero & _).
  assert (Hn : n = (fold_left (sweep w) (map_to_list (cacheIndex st)) (cacheIndex st, 0%nat)).2).
  { subst n. by rewrite cleanup_unfold. }
  assert (Hidx : cacheIndex st'
                 = (fold_left (sweep w) (map_to_list (cacheIndex st)) (cacheIndex st, 0%nat)).1).
  { subst st'. rewrite cleanup_unfold. cbv zeta. cbn [snd]. by destruct (0 <? _)%nat. }
  assert (Hnone : n = 0%nat <-> forall k e, cacheIndex st !! k = Some e -> expired w e = false).
  { rewrite Hn, Hzero, forallb_forall. split.
    - intros H k e Hm. apply negb_true_iff.
      apply (H (k, e)). by apply list_elem_of_In, elem_of_map_to_list.
    - intros H [k e] Hin. apply negb_true_iff, (H k).
      by apply elem_of_map_to_list, list_elem_of_In. }
  split; [apply cleanup_index|].
  split; [by rewrite Hn, Hidx|].
  split; [done|].
  split.
  { subst st' n. rewrite cleanup_unfold. cbv zeta. cbn [fst snd].
    by destruct (0 <? _)%nat. }
  split.
  { rewrite cleanup_unfold. cbv zeta.
    rewrite sweep_none.
    - cbn [fst snd]. f_equal. by destruct st'.
    - apply forallb_forall. intros [k e] Hin. apply negb_true_iff.
      apply list_elem_of_In, elem_of_map_to_list in Hin.
      by apply (cleanup_index w st k e) in Hin as [_ He]. }
  intros Hnan.
  assert (Hex : forall e, expired w e = false).
  { intros e. unfold expired. by rewrite Hnan. }
  split; [apply Hnone; auto|].
  apply map_eq. intros k. apply option_eq. intros e.
  subst st'. rewrite cleanup_index. split; [by intros [? _]|by split].
Qed.

Lemma minOf_spec t ts :
  (minOf t ts <= t)%Z /\ Forall (fun x => (minOf t ts <= x)%Z) ts
  /\ (minOf t ts = t \/ In (minOf t ts) ts).
Proof.
  unfold minOf. revert t. induction ts as [|x ts IH]; intros t; simpl.
  { split; [lia|]. split; [constructor|by left]. }
  destruct (IH (Z.min t x)) as (H1 & H2 & H3).
  split; [lia|]. split.
  - constructor; [lia|done].
  - destruct H3 as [-> | H3]; [|by right; right].
    destruct (Z.min_spec t x) as [[_ ->] | [_ ->]]; [by left|by right; left].
Qed.

Lemma maxOf_spec t ts :
  (t <= maxOf t ts)%Z /\ Forall (fun x => (x <= maxOf t ts)%Z) ts
  /\ (maxOf t ts = t \/ In (maxOf t ts) ts).
Proof.
  unfold maxOf. revert t. induction ts as [|x ts IH]; intros t; simpl.
  { split; [lia|]. split; [constructor|by left]. }
  destruct (IH (Z.max t x)) as (H1 & H2 & H3).
  split; [lia|]. split.
  - constructor; [lia|done].
  - destruct H3 as [-> | H3]; [|by right; right].
    destruct (Z.max_spec t x) as [[_ ->] | [_ ->]]; [by right; left|by left].
Qed.

(** X2.  [getStats] on an empty index reports no entry and null timestamps.
    On a non-empty index whose size is within the engine's limit on the
    length of an argument list it counts the entries and reports the least
    and the greatest timestamp among them, each attained by an entry; on a
    larger index the spread call throws and there is no report. *)
Theorem getStats_bounds (argumentLimit : nat) (st : State) :
  (cacheIndex st = ∅ -> getStats argumentLimit st = Some (mkStats 0 None None))
  /\ (cacheIndex st <> ∅ -> (size (cacheIndex st) <= argumentLimit)%nat ->
      exists lo hi,
        getStats argumentLimit st
        = Some (mkStats (size (cacheIndex st)) (Some lo) (Some hi))
        /\ (forall k e, cacheIndex st !! k = Some e -> (lo <= timestamp e <= hi)%Z)
        /\ (exists k e, cacheIndex st !! k = Some e /\ timestamp e = lo)
        /\ (exists k e, cacheIndex st !! k = Some e /\ timestamp e = hi))
  /\ ((argumentLimit < size (cacheIndex st))%nat -> getStats argumentLimit st = None).
Proof.
  unfold getStats.
  assert (Hl : forall e, In e (map_to_list (cacheIndex st)).*2
                         <-> exists k, cacheIndex st !! k = Some e).
  { intros e. rewrite <- list_elem_of_In, list_elem_of_fmap. split.
    - intros ([k e'] & -> & Hin). exists k. by apply elem_of_map_to_list.
    - intros [k Hk]. exists (k, e). split; [done|]. by apply elem_of_map_to_list. }
  assert (Hlen : length (map_to_list (cacheIndex st)).*2 = size (cacheIndex st)).
  { by rewrite length_fmap, length_map_to_list. }
  destruct ((map_to_list (cacheIndex st)).*2) as [|e es] eqn:E.
  - split; [done|]. split.
    + intros Hne. exfalso. apply Hne.
      apply map_size_empty_inv. by rewrite <- Hlen.
    + intros Hlt. rewrite <- Hlen in Hlt. simpl in Hlt. lia.
  - cbv zeta. rewrite Hlen. split.
    { intros Hm. rewrite Hm, map_size_empty in Hlen. discriminate. }
    split.
    2:{ intros Hlt. by rewrite (proj2 (Nat.ltb_lt _ _) Hlt). }
    intros _ Hle. rewrite (proj2 (Nat.ltb_ge _ _) Hle).
    eexists _, _. split; [done|].
    destruct (minOf_spec (timestamp e) (map timestamp es)) as (A1 & A2 & A3).
    destruct (maxOf_spec (timestamp e) (map timestamp es)) as (B1 & B2 & B3).
    rewrite Forall_forall in A2, B2.
    assert (Hin : forall x, In x (map timestamp es) -> exists k e', cacheIndex st !! k = Some e' /\ timestamp e' = x).
    { intros x (e' & <- & He')%in_map_iff.
      destruct (proj1 (Hl e') (or_intror He')) as [k Hk]. eauto. }
    assert (He : exists k, cacheIndex st !! k = Some e) by (apply Hl; by left).
    split; [|split].
    + intros k e' Hk. destruct (proj2 (Hl e') (ex_intro _ k Hk)) as [<- | Hes]; [lia|].
      assert (timestamp e' ∈ map timestamp es).
      { apply list_elem_of_In, in_map_iff. eauto. }
      split; [by apply A2|by apply B2].
    + destruct A3 as [-> | A3]; [|by apply Hin]. destruct He as [k Hk]. eauto.
    + destruct B3 as [-> | B3]; [|by apply Hin]. destruct He as [k Hk]. eauto.
Qed.

Lemma ofEntries_list_to_map entries :
  ofEntries entries = list_to_map (rev (map (fun e => (cacheKey e, e)) entries)).
Proof.
  unfold ofEntries.
  rewrite <- (fold_left_rev_right (fun e (m : gmap jsstring CacheEntry) => <[cacheKey e := e]> m)).
  rewrite <- map_rev.
  induction (rev entries) as [|e es IH]; simpl; [done|].
  by rewrite IH.
Qed.

Lemma ofEntries_keyed entries : keyed (ofEntries entries).
Proof.
  unfold ofEntries. intros k e.
  assert (G : forall m, keyed m ->
            fold_left (fun m e => <[cacheKey e := e]> m) entries m !! k = Some e ->
            cacheKey e = k).
  { induction entries as [|x xs IH]; intros m Hm; simpl; [apply Hm|].
    apply IH. intros k' e'. destruct (decide (cacheKey x = k')) as [<-|Hne].
    - rewrite lookup_insert_eq. by intros [= <-].
    - rewrite lookup_insert_ne by done. apply Hm. }
  apply G. intros k' e'. by rewrite lookup_empty.
Qed.

(** Reading back the array of values gives the index that was written,
    provided every entry sits under its own key. *)
Lemma ofEntries_values (m : gmap jsstring CacheEntry) :
  keyed m -> ofEntries (map_to_list m).*2 = m.
Proof.
  intros Hk. rewrite ofEntries_list_to_map.
  assert (map (fun e => (cacheKey e, e)) (map_to_list m).*2 = map_to_list m) as ->.
  { assert (G : forall l : list (jsstring * CacheEntry),
              (forall k e, (k, e) ∈ l -> cacheKey e = k) ->
              map (fun e => (cacheKey e, e)) l.*2 = l).
    { induction l as [|[k e] l IH]; intros H; simpl; [done|].
      rewrite (H k e) by left. f_equal. apply IH. intros k' e' Hin. apply H. by right. }
    apply G. intros k e Hin. by apply Hk, elem_of_map_to_list. }
  rewrite <- (list_to_map_to_list m) at 2.
  apply list_to_map_proper.
  - apply (NoDup_fmap_2_strong fst).
    + intros [k1 e1] [k2 e2] H1 H2 Heq. simpl in Heq. subst k2.
      apply list_elem_of_In, in_rev, list_elem_of_In, elem_of_map_to_list in H1.
      apply list_elem_of_In, in_rev, list_elem_of_In, elem_of_map_to_list in H2.
      congruence.
    + apply NoDup_ListNoDup, NoDup_rev, NoDup_ListNoDup, NoDup_map_to_list.
  - symmetry. apply Permutation_rev.
Qed.

Section CacheMaintenance.

Variable sha256 : bytes -> jsstring.
Variable path_join : jsstring -> jsstring -> jsstring.

#[local] Abbreviation cacheGet := (CacheService.get sha256 path_join).
#[local] Abbreviation cacheSet := (CacheService.set sha256).
#[local] Abbreviation keyOf := (generateCacheKey sha256).

Lemma get_index_cases (w : World) (st : State) audio images :
  cacheIndex (cacheGet w st audio images).2 = cacheIndex st
  \/ exists key, keyOf w audio images = Some key
                 /\ (cacheGet w st audio images).1 = None
                 /\ cacheIndex (cacheGet w st audio images).2 = delete key (cacheIndex st).
Proof.
  unfold get. destruct (keyOf w audio images) as [key|]; [|by left].
  destruct (cacheIndex st !! key) as [entry|]; [|by left].
  destruct (negb (existsSync w _)); [right; by exists key|].
  destruct (expired w entry); [right; by exists key|by left].
Qed.

Lemma set_index_cases (w : World) (st : State) audio images res file ex ct :
  match keyOf w audio images with
  | None => cacheSet w st audio images res file ex ct = st
  | Some key =>
      exists entry, cacheKey entry = key
        /\ cacheIndex (cacheSet w st audio images res file ex ct)
           = <[key := entry]> (cacheIndex st)
        /\ savedIndex (cacheSet w st audio images res file ex ct)
           = <[key := entry]> (cacheIndex st)
  end.
Proof.
  unfold set, generateCacheKey.
  destruct (calculateFileHash sha256 w audio) as [h|]; simpl; [|done].
  destruct (mapM (calculateFileHash sha256 w) images) as [hs|]; simpl; [|done].
  eexists (mkCacheEntry _ _ _ _ _ _ _ _). split; [reflexivity|]. split; reflexivity.
Qed.

Lemma restart_saved (st : State) :
  keyed (savedIndex st) -> cacheIndex (restart st) = savedIndex st.
Proof. intros H. unfold restart, loadCacheIndex, savedEntries. simpl. by apply ofEntries_values. Qed.

Lemma keyed_delete m k : keyed m -> keyed (delete k m).
Proof.
  intros H k' e. destruct (decide (k = k')) as [->|Hne].
  - by rewrite lookup_delete_eq.
  - rewrite lookup_delete_ne by done. apply H.
Qed.

(** X3.  Every operation keeps each entry under its own key, whatever file the
    index was loaded from; so a process restarted on the file written by
    [set] loads the same index and answers [get] as before. *)
Theorem index_keyed_restart (w : World) (st : State) (audio : jsstring)
    (images : list jsstring) (res : EvaluationResult) (file ex ct : jsstring) :
  let st1 := cacheSet w st audio images res file ex ct in
  (forall entries, keyed (loadCacheIndex entries))
  /\ (keyed (cacheIndex st) ->
      keyed (cacheIndex st1)
      /\ keyed (cacheIndex (cacheGet w st audio images).2)
      /\ keyed (cacheIndex (cleanup w st).2)
      /\ keyed (cacheIndex (invalidateAll st))
      /\ (is_Some (keyOf w audio images) ->
          cacheIndex (restart st1) = cacheIndex st1
          /\ forall w', (cacheGet w' (restart st1) audio images).1
                        = (cacheGet w' st1 audio images).1)).
Proof.
  intros st1. split.
  { intros [entries|]; [apply ofEntries_keyed|]. intros k e. simpl. by rewrite lookup_empty. }
  intros Hk.
  assert (Hset : keyed (cacheIndex st1)).
  { subst st1. pose proof (set_index_cases w st audio images res file ex ct) as H.
    destruct (keyOf w audio images) as [key|].
    - destruct H as (entry & Hkey & -> & _). intros k e.
      destruct (decide (key = k)) as [<-|Hne].
      + rewrite lookup_insert_eq. by intros [= <-].
      + rewrite lookup_insert_ne by done. apply Hk.
    - by rewrite H. }
  split; [done|]. split.
  { destruct (get_index_cases w st audio images) as [-> | (key & _ & _ & ->)]; [done|].
    by apply keyed_delete. }
  split.
  { intros k e Hc. apply cleanup_index in Hc as [Hc _]. by apply Hk. }
  split.
  { intros k e. unfold invalidateAll. simpl. by rewrite lookup_empty. }
  intros [key Hkey].
  assert (Hsaved : savedIndex st1 = cacheIndex st1).
  { subst st1. pose proof (set_index_cases w st audio images res file ex ct) as H.
    rewrite Hkey in H. destruct H as (entry & _ & -> & ->). done. }
  assert (Hre : cacheIndex (restart st1) = cacheIndex st1).
  { rewrite restart_saved; [done|]. by rewrite Hsaved. }
  split; [done|]. intros w'. unfold get. rewrite Hre.
  destruct (keyOf w' audio images) as [key'|]; [|done].
  destruct (cacheIndex st1 !! key') as [entry|]; [|done].
  by repeat case_match.
Qed.

(** X4.  The key cannot be computed exactly when the audio or one of the images
    cannot be read; then [get] answers null and [set] does nothing.  [get]
    never adds or changes an entry, and leaves the state alone when it
    answers; [get] and [set] leave the entries under other keys alone. *)
Theorem get_set_frame (w : World) (st : State) (audio : jsstring)
    (images : list jsstring) (res : EvaluationResult) (file ex ct : jsstring) :
  let answer := cacheGet w st audio images in
  let st1 := cacheSet w st audio images res file ex ct in
  (keyOf w audio images = None
   <-> readFileSync w audio = None \/ exists p, p ∈ images /\ readFileSync w p = None)
  /\ (keyOf w audio images = None -> answer = (None, st) /\ st1 = st)
  /\ (forall k e, cacheIndex answer.2 !! k = Some e -> cacheIndex st !! k = Some e)
  /\ (forall r, answer.1 = Some r -> answer.2 = st)
  /\ (forall key k, keyOf w audio images = Some key -> k <> key ->
        cacheIndex st1 !! k = cacheIndex st !! k
        /\ cacheIndex answer.2 !! k = cacheIndex st !! k).
Proof.
  intros answer st1. split.
  { unfold generateCacheKey, calculateFileHash.
    destruct (readFileSync w audio) as [a|]; simpl; [|by split; [left|]].
    destruct (mapM _ images) as [hs|] eqn:E; simpl.
    - split; [done|]. intros [? | (p & Hp & Hr)]; [done|].
      assert (mapM (fun filePath => sha256 <$> readFileSync w filePath) images = None);
        [|congruence].
      apply mapM_None, Exists_exists. exists p. split; [done|]. by rewrite Hr.
    - split; [|done]. intros _. right.
      apply mapM_None, Exists_exists in E as (p & Hp & Hr). exists p. split; [done|].
      by destruct (readFileSync w p). }
  split.
  { intros Hn. subst answer st1. split.
    - unfold get. by rewrite Hn.
    - pose proof (set_index_cases w st audio images res file ex ct) as H.
      by rewrite Hn in H. }
  split.
  { intros k e. subst answer.
    destruct (get_index_cases w st audio images) as [-> | (key & _ & _ & ->)]; [done|].
    intros H. apply lookup_delete_Some in H. tauto. }
  split.
  { intros r. subst answer. unfold get.
    destruct (keyOf w audio images) as [key|]; [|done].
    destruct (cacheIndex st !! key) as [entry|]; [|done].
    by repeat case_match. }
  intros key k Hkey Hne. split.
  - subst st1. pose proof (set_index_cases w st audio images res file ex ct) as H.
    rewrite Hkey in H. destruct H as (entry & _ & -> & _).
    by rewrite lookup_insert_ne.
  - subst answer.
    destruct (get_index_cases w st audio images) as [-> | (key' & Hk' & _ & ->)]; [done|].
    rewrite lookup_delete_ne; [done|]. congruence.
Qed.

(** X5.  After [invalidateAll] every [get] misses, the statistics are those of
    an empty cache, and a restart finds an empty index. *)
Theorem invalidateAll_forgets (w : World) (st : State) (audio : jsstring)
    (images : list jsstring) :
  let st' := invalidateAll st in
  cacheGet w st' audio images = (None, st')
  /\ (forall argumentLimit, getStats argumentLimit st' = Some (mkStats 0 None None))
  /\ cleanup w st' = (0%nat, st')
  /\ cacheIndex (restart st') = ∅.
Proof.
  intros st'. subst st'. unfold invalidateAll, saveCacheIndex. simpl.
  split.
  { unfold get. simpl. destruct (keyOf w audio images); [|done].
    by rewrite lookup_empty. }
  split. { intros argumentLimit. unfold getStats. simpl. by rewrite map_to_list_empty. }
  split. { unfold cleanup. simpl. by rewrite map_to_list_empty. }
  unfold restart, loadCacheIndex, savedEntries. simpl. by rewrite map_to_list_empty.
Qed.

End CacheMaintenance.

Example cleanup_example :
  (cleanup (demoWorld [1; 2] 900000000) twoEntries).1 = 1%nat
  /\ cacheIndex (cleanup (demoWorld [1; 2] 900000000) twoEntries).2
     = <[u8 "k2" := oldEntry (u8 "k2") 900000000]> ∅.
Proof. split; vm_compute; reflexivity. Qed.

Lemma cleanup_removes_expired_witness :
  (cleanup nanWorld twoEntries).1 = 0%nat
  /\ cacheIndex (cleanup nanWorld twoEntries).2 = cacheIndex twoEntries.
Proof.
  destruct (cleanup_removes_expired nanWorld twoEntries) as (_ & _ & _ & _ & _ & H).
  apply H. vm_compute. reflexivity.
Defined.

Lemma getStats_bounds_witness :
  (exists lo hi,
     getStats 100 twoEntries = Some (mkStats 2 (Some lo) (Some hi))
     /\ (lo <= hi)%Z)
  /\ getStats 1 twoEntries = None.
Proof.
  split.
  - destruct (getStats_bounds 100 twoEntries) as (_ & H & _).
    destruct H as (lo & hi & Heq & Hall & _).
    + intros E. vm_compute in E. discriminate E.
    + vm_compute. lia.
    + exists lo, hi. split; [exact Heq|].
      destruct (Hall (u8 "k1") (oldEntry (u8 "k1") 0)) as [? ?];
        [vm_compute; reflexivity|lia].
  - destruct (getStats_bounds 1 twoEntries) as (_ & _ & H).
    apply H. vm_compute. lia.
Defined.

Lemma index_keyed_restart_witness :
  let st1 := CacheService.set toyDigest (demoWorld [1; 2] 0) (mkState ∅ ∅)
               (u8 "call.mp3") [u8 "a.png"] demoResult (u8 "r.xlsx")
               (u8 "E1") (u8 "INBOUND") in
  cacheIndex (restart st1) = cacheIndex st1.
Proof.
  intros st1.
  destruct (index_keyed_restart toyDigest demoJoin (demoWorld [1; 2] 0) (mkState ∅ ∅)
              (u8 "call.mp3") [u8 "a.png"] demoResult (u8 "r.xlsx")
              (u8 "E1") (u8 "INBOUND")) as [_ H].
  destruct H as (_ & _ & _ & _ & H).
  - intros k e E. vm_compute in E. discriminate E.
  - destruct H as [H _]; [|exact H]. vm_compute. eexists. reflexivity.
Defined.

Lemma get_set_frame_witness :
  CacheService.get toyDigest demoJoin (demoWorld [1; 2] 0) twoEntries
    (u8 "missing.mp3") [u8 "a.png"]
  = (None, twoEntries).
Proof.
  destruct (get_set_frame toyDigest demoJoin (demoWorld [1; 2] 0) twoEntries
              (u8 "missing.mp3") [u8 "a.png"] demoResult (u8 "r.xlsx")
              (u8 "E1") (u8 "INBOUND")) as (_ & H & _).
  destruct H as [H _]; [vm_compute; reflexivity|exact H].
Defined.

(* ===================================================================== *)
(** * Reconciliation: what a lookup can return                            *)
(* ===================================================================== *)

Lemma findScore_unfold m bName tName :
  findScore m bName tName
  = match strategy1 m bName tName with Some sc => Some sc | None =>
    match strategy2 m bName tName with Some sc => Some sc | None =>
    match strategy3 m bName tName with Some sc => Some sc | None =>
    match strategy4 m bName tName with Some sc => Some sc | None =>
    strategy5 m bName tName end end end end.
Proof.
  unfold findScore, strategies. simpl.
  repeat (match goal with |- context [match ?x with _ => _ end] =>
            destruct x; try done end).
Qed.

Lemma hasKey_parsed k sc : hasKey k sc = true -> is_Some (parsedLabels sc).
Proof.
  unfold hasKey, keysOf. intros H%bool_decide_eq_true.
  destruct (parsedLabels sc) as [[b t]|]; [eauto|]. by apply elem_of_nil in H.
Qed.

Lemma hasTopic_parsed k sc : hasTopic k sc = true -> is_Some (parsedLabels sc).
Proof.
  unfold hasTopic. intros H%bool_decide_eq_true.
  destruct (parsedLabels sc); [eauto|done].
Qed.

Lemma hasBlock_parsed k sc : hasBlock k sc = true -> is_Some (parsedLabels sc).
Proof.
  unfold hasBlock. intros H%bool_decide_eq_true.
  destruct (parsedLabels sc); [eauto|done].
Qed.

(** X6.  Whatever the five lookups return is one of the scorer's entries, and
    one whose criterion has the bracketed form; entries without it are
    never used, so when no entry has it every lookup fails and every
    applicable topic is reported as 'Sin evaluar'. *)
Theorem findScore_sound (scores : list DetailedScore) (bName tName : jsstring) :
  (forall sc, findScore (buildMaps scores) bName tName = Some sc ->
     sc ∈ scores /\ is_Some (parsedLabels sc))
  /\ ((forall sc, sc ∈ scores -> parsedLabels sc = None) ->
      findScore (buildMaps scores) bName tName = None
      /\ forall t, applies t = true ->
           tv_value (getTopicValueWithReason (buildMaps scores) bName tName t)
           = VStr (u8 "Sin evaluar")
           /\ tr_value (getTopicResult (buildMaps scores) bName tName t)
              = VStr (u8 "Sin evaluar")).
Proof.
  assert (Hsound : forall sc, findScore (buildMaps scores) bName tName = Some sc ->
            sc ∈ scores /\ is_Some (parsedLabels sc)).
  { intros sc. rewrite findScore_unfold.
    unfold strategy1, strategy2, strategy3, strategy4.
    rewrite !evaluationMap_lookup, byTopic_lookup, byBlock_lookup.
    destruct (lastWith (hasKey (pairKey bName tName)) scores) as [x|] eqn:E1.
    { intros [= ->]. apply lastWith_Some in E1 as [? ?]. eauto using hasKey_parsed. }
    destruct (lastWith (hasKey (pairKey (normalizeText bName) (normalizeText tName))) scores)
      as [x|] eqn:E2.
    { intros [= ->]. apply lastWith_Some in E2 as [? ?]. eauto using hasKey_parsed. }
    destruct (lastWith (hasTopic tName) scores) as [x|] eqn:E3.
    { intros [= ->]. apply lastWith_Some in E3 as [? ?]. eauto using hasTopic_parsed. }
    destruct (lastWith (hasBlock bName) scores) as [x|] eqn:E4.
    { intros [= ->]. apply lastWith_Some in E4 as [? ?]. eauto using hasBlock_parsed. }
    intros H5. apply strategy5_Some in H5 as (Hin & k & Hk & _).
    split; [done|]. apply (hasKey_parsed k). by apply bool_decide_eq_true. }
  split; [exact Hsound|].
  intros Hnone.
  assert (Hf : findScore (buildMaps scores) bName tName = None).
  { destruct (findScore (buildMaps scores) bName tName) as [sc|] eqn:E; [|done].
    destruct (Hsound sc eq_refl) as [Hin [p Hp]]. rewrite (Hnone sc Hin) in Hp. done. }
  split; [done|]. intros t Ha.
  unfold getTopicValueWithReason, getTopicResult. by rewrite Ha, Hf.
Qed.

(** X7.  The block-only lookup: when the exact, the normalized and the
    topic-only lookups find nothing, a topic is given the last entry that
    carries its block label, whatever topic that entry is about; so one
    entry with the block label is enough for every topic of the block to be
    found. *)
Theorem block_label_suffices (scores : list DetailedScore) (bName tName : jsstring)
    (sc : DetailedScore) :
  sc ∈ scores -> fst <$> parsedLabels sc = Some bName ->
  (exists sc', findScore (buildMaps scores) bName tName = Some sc')
  /\ (strategy1 (buildMaps scores) bName tName = None ->
      strategy2 (buildMaps scores) bName tName = None ->
      strategy3 (buildMaps scores) bName tName = None ->
      exists sc', findScore (buildMaps scores) bName tName = Some sc'
                  /\ lastWith (hasBlock bName) scores = Some sc'
                  /\ fst <$> parsedLabels sc' = Some bName).
Proof.
  intros Hin Hb.
  assert (Hhas : hasBlock bName sc = true) by (by apply bool_decide_eq_true).
  destruct (lastWith_exists _ _ _ Hin Hhas) as [sc' E].
  assert (H4 : strategy4 (buildMaps scores) bName tName = Some sc').
  { unfold strategy4. by rewrite byBlock_lookup. }
  split.
  - rewrite findScore_unfold.
    destruct (strategy1 _ _ _); [eauto|]. destruct (strategy2 _ _ _); [eauto|].
    destruct (strategy3 _ _ _); [eauto|]. rewrite H4. eauto.
  - intros E1 E2 E3. exists sc'. rewrite findScore_unfold, E1, E2, E3, H4.
    split; [done|]. split; [done|].
    apply lastWith_Some in E as [_ E]. by apply bool_decide_eq_true in E.
Qed.

Lemma findScore_sound_witness :
  findScore (buildMaps [mkDetailedScore (u8 "Falcon: cierre") 5 5 []])
    (u8 "Falcon") (u8 "cierre") = None.
Proof.
  destruct (findScore_sound [mkDetailedScore (u8 "Falcon: cierre") 5 5 []]
              (u8 "Falcon") (u8 "cierre")) as [_ H].
  destruct H as [H _]; [|exact H].
  intros sc Hin. apply list_elem_of_singleton in Hin. subst sc. vm_compute. reflexivity.
Defined.

Lemma block_label_suffices_witness :
  exists sc', findScore (buildMaps [hotlistScore]) (u8 "Falcon") (u8 "Cierre de caso")
              = Some sc'.
Proof.
  destruct (block_label_suffices [hotlistScore] (u8 "Falcon") (u8 "Cierre de caso")
              hotlistScore) as [H _].
  - constructor.
  - vm_compute. reflexivity.
  - exact H.
Defined.

(* ===================================================================== *)
(** * From the evaluator's criterion text back to the labels              *)
(* ===================================================================== *)

Lemma lazyUntilBracket_app blk rest :
  bracketFree blk = true -> lazyUntilBracket (blk ++ 0x5D :: rest) = Some (blk, rest).
Proof.
  unfold bracketFree. induction blk as [|c blk IH]; simpl; [done|].
  intros [[Hc Hl]%andb_true_iff H]%andb_true_iff.
  apply negb_true_iff in Hc, Hl. rewrite Hc, Hl, IH by done. done.
Qed.

Lemma restOfLine_free s : lineBreakFree s = true -> restOfLine s = s.
Proof.
  unfold lineBreakFree. induction s as [|c s IH]; simpl; [done|].
  intros [Hc H]%andb_true_iff. apply negb_true_iff in Hc. by rewrite Hc, IH.
Qed.

Lemma restOfLine_break s c r :
  lineBreakFree s = true -> isLineTerminator c = true -> restOfLine (s ++ c :: r) = s.
Proof.
  unfold lineBreakFree. intros H Hc. induction s as [|x s IH]; simpl.
  - by rewrite Hc.
  - simpl in H. apply andb_true_iff in H as [Hx H]. apply negb_true_iff in Hx.
    by rewrite Hx, IH.
Qed.

Lemma restOfLine_no_break s : lineBreakFree (restOfLine s) = true.
Proof.
  unfold lineBreakFree. induction s as [|c s IH]; simpl; [done|].
  destruct (isLineTerminator c) eqn:E; simpl; [done|]. by rewrite E, IH.
Qed.

Lemma lazyUntilBracket_no_break s blk rest :
  lazyUntilBracket s = Some (blk, rest) -> lineBreakFree blk = true.
Proof.
  unfold lineBreakFree. revert blk rest. induction s as [|c s IH]; intros blk rest; simpl; [done|].
  destruct (c =? 0x5D); [by intros [= <- _]|].
  destruct (isLineTerminator c) eqn:E; [done|].
  destruct (lazyUntilBracket s) as [[b r]|]; simpl; [|done].
  intros [= <- _]. simpl. rewrite E. simpl. by apply (IH b r).
Qed.

Lemma matchCriterion_no_break s g1 g2 :
  matchCriterion s = Some (g1, g2) -> lineBreakFree g1 = true /\ lineBreakFree g2 = true.
Proof.
  induction s as [|c s IH]; simpl; [done|].
  destruct (c =? 0x5B); [|done].
  destruct (lazyUntilBracket s) as [[b r]|] eqn:E; [|done].
  intros [= <- <-]. split; [by apply (lazyUntilBracket_no_break s b r)|].
  apply restOfLine_no_break.
Qed.

Lemma matchCriterion_criterionOf block topic :
  bracketFree block = true ->
  matchCriterion (criterionOf block topic) = Some (block, restOfLine (trimStart topic)).
Proof.
  intros Hb. unfold criterionOf.
  change (u8 "[" ++ block ++ u8 "] " ++ topic)
    with (0x5B :: (block ++ 0x5D :: 0x20 :: topic)).
  cbn [matchCriterion]. rewrite N.eqb_refl.
  rewrite lazyUntilBracket_app by done. reflexivity.
Qed.

Lemma trimStart_fixed s : trimStart (trimStart s) = trimStart s.
Proof.
  induction s as [|c s IH]; simpl; [done|].
  destruct (isSpace c) eqn:E; [done|]. simpl. by rewrite E.
Qed.

Lemma trim_trimStart s : trim (trimStart s) = trim s.
Proof. unfold trim. by rewrite trimStart_fixed. Qed.

Lemma forallb_trimEnd (P : N -> bool) s : forallb P s = true -> forallb P (trimEnd s) = true.
Proof.
  intros H. unfold trimEnd. rewrite forallb_rev. apply forallb_trimStart.
  by rewrite forallb_rev.
Qed.

Lemma lineBreakFree_app a b :
  lineBreakFree (a ++ b) = lineBreakFree a && lineBreakFree b.
Proof. apply forallb_app. Qed.

Lemma collapsed_no_break b s : collapsed b s = true -> lineBreakFree s = true.
Proof.
  unfold lineBreakFree. revert b. induction s as [|c s IH]; intros b; simpl; [done|].
  destruct (isSpace c) eqn:E.
  - intros [[_ Hc]%andb_true_iff H]%andb_true_iff. apply N.eqb_eq in Hc. subst c.
    simpl. by apply (IH true).
  - intros H. unfold isSpace in E. apply orb_false_iff in E as [_ ->]. simpl.
    by apply (IH false).
Qed.

Lemma normalizeText_collapsed s : collapsed false (normalizeText s) = true.
Proof.
  unfold normalizeText, trim. apply collapsed_trimEnd.
  eapply collapsed_trimStart. apply replaceSpaceRuns_collapsed.
Qed.

Lemma keysOf_no_break sc k : k ∈ keysOf sc -> lineBreakFree k = true.
Proof.
  unfold keysOf, parsedLabels.
  destruct (matchCriterion (criterion sc)) as [[g1 g2]|] eqn:E; simpl;
    [|by intros ?%elem_of_nil].
  apply matchCriterion_no_break in E as [H1 H2].
  rewrite !elem_of_cons. intros [-> | [-> | ?%elem_of_nil]]; [| |done].
  - unfold pairKey. rewrite !lineBreakFree_app.
    unfold lineBreakFree in *. rewrite !forallb_trim by done. reflexivity.
  - unfold pairKey. rewrite !lineBreakFree_app.
    rewrite (collapsed_no_break false (normalizeText (trim g1)))
      by apply normalizeText_collapsed.
    rewrite (collapsed_no_break false (normalizeText (trim g2)))
      by apply normalizeText_collapsed.
    reflexivity.
Qed.

Lemma lastWith_never P scores :
  (forall sc, sc ∈ scores -> P sc = false) -> lastWith P scores = None.
Proof.
  intros H. destruct (lastWith P scores) as [sc|] eqn:E; [|done].
  apply lastWith_Some in E as [Hin HP]. rewrite (H sc Hin) in HP. done.
Qed.

Lemma lastWith_snoc P scores sc : P sc = true -> lastWith P (scores ++ [sc]) = Some sc.
Proof. intros H. unfold lastWith. rewrite rev_app_distr. simpl. by rewrite H. Qed.

(** X8.  The labels read back from a criterion text built as the evaluator
    builds it: with a block label free of closing brackets and line breaks,
    and a topic label free of line breaks, they are the two labels up to
    surrounding white space; a topic label with a line break is cut at the
    break. *)
Theorem criterion_round_trip (sc : DetailedScore) (block topic : jsstring) :
  criterion sc = criterionOf block topic ->
  bracketFree block = true ->
  (lineBreakFree topic = true -> parsedLabels sc = Some (trim block, trim topic))
  /\ (forall t1 c t2,
        topic = t1 ++ c :: t2 -> lineBreakFree t1 = true ->
        isLineTerminator c = true -> trimStart t1 <> [] ->
        parsedLabels sc = Some (trim block, trim t1)).
Proof.
  intros Hc Hb. unfold parsedLabels. rewrite Hc, matchCriterion_criterionOf by done.
  simpl. split.
  - intros Ht. rewrite restOfLine_free.
    + by rewrite trim_trimStart.
    + unfold lineBreakFree in *. by apply forallb_trimStart.
  - intros t1 c t2 -> H1 Hlt Hne.
    rewrite trimStart_app by done. rewrite restOfLine_break; [| |done].
    + by rewrite trim_trimStart.
    + unfold lineBreakFree in *. by apply forallb_trimStart.
Qed.

(** X9.  A catalog topic whose name contains a line break is never found by the
    exact lookup nor by the topic-only lookup, whatever the scorer
    returned: no key read back from a criterion text contains one. *)
Theorem line_break_topic_unmatched (scores : list DetailedScore)
    (bName tName : jsstring) :
  lineBreakFree tName = false ->
  strategy1 (buildMaps scores) bName tName = None
  /\ strategy3 (buildMaps scores) bName tName = None.
Proof.
  intros Hlt. unfold strategy1, strategy3.
  rewrite evaluationMap_lookup, byTopic_lookup. split.
  - apply lastWith_never. intros sc _. apply bool_decide_eq_false. intros Hk.
    apply keysOf_no_break in Hk. unfold pairKey in Hk.
    rewrite !lineBreakFree_app in Hk. rewrite Hlt in Hk.
    by rewrite !andb_false_r in Hk.
  - apply lastWith_never. intros sc _. apply bool_decide_eq_false.
    unfold parsedLabels.
    destruct (matchCriterion (criterion sc)) as [[g1 g2]|] eqn:E; simpl; [|done].
    intros [= <-]. apply matchCriterion_no_break in E as [_ H2].
    unfold lineBreakFree in *. rewrite forallb_trim in Hlt by done. done.
Qed.

Lemma echoed_entry_found scores sc block topic :
  sc ∈ scores -> criterion sc = criterionOf block topic ->
  bracketFree block = true -> lineBreakFree topic = true ->
  exists sc',
    findScore (buildMaps scores) (trim block) (trim topic) = Some sc'
    /\ strategy1 (buildMaps scores) (trim block) (trim topic) = Some sc'
    /\ sc' ∈ scores
    /\ pairKey (trim block) (trim topic) ∈ keysOf sc'
    /\ (forall pre, scores = pre ++ [sc] -> sc' = sc).
Proof.
  intros Hin Hc Hb Ht.
  destruct (criterion_round_trip sc block topic Hc Hb) as [Hp _].
  specialize (Hp Ht).
  assert (Hk : hasKey (pairKey (trim block) (trim topic)) sc = true).
  { apply bool_decide_eq_true. unfold keysOf. rewrite Hp. by left. }
  destruct (lastWith_exists _ _ _ Hin Hk) as [sc' E].
  assert (H1 : strategy1 (buildMaps scores) (trim block) (trim topic) = Some sc').
  { unfold strategy1. by rewrite evaluationMap_lookup. }
  exists sc'. split; [by rewrite findScore_unfold, H1|]. split; [done|].
  destruct (lastWith_Some _ _ _ E) as [Hin' Hk']. split; [done|].
  split; [by apply bool_decide_eq_true in Hk'|].
  intros pre ->. rewrite lastWith_snoc in E by done. congruence.
Qed.

Section EvaluatorToReport.

Variable Number_toString : Q -> jsstring.
Variable respond : nat -> nat -> Outcome.
Variable scorer : ScoringRequest -> option (Evaluation * option (Z * Z)).

(** X10.  What [evaluate] hands to the report when the scorer answers: one entry
    per evaluation of the answer, in order, with the criterion text built
    from its two labels.  Every such evaluation whose block label has no
    closing bracket or line break and whose topic label has no line break
    is found again by the report's exact lookup under its trimmed labels. *)
Theorem evaluate_entries_found (auditInput : AuditInput) (transcript : TranscriptResult)
    (evaluation : Evaluation) (u : option (Z * Z)) :
  let criteria := getCriteriaForCallType (callType auditInput) in
  let ex := extractVisualEvidenceEnhanced Number_toString respond
              (default [] (imagePaths auditInput)) in
  let request := buildRequest criteria (evidence ex)
                   (extractVerbalEvidence transcript) auditInput in
  scorer request = Some (evaluation, u) ->
  exists res,
    evaluate Number_toString respond scorer auditInput transcript = Some res
    /\ detailedScores res
       = map (fun ev => mkDetailedScore (criterionOf (se_block ev) (se_topic ev))
                          (se_score ev) (se_max_score ev) (se_justification ev))
           (evaluations evaluation)
    /\ forall ev, ev ∈ evaluations evaluation ->
         bracketFree (se_block ev) = true -> lineBreakFree (se_topic ev) = true ->
         exists sc',
           strategy1 (buildMaps (detailedScores res)) (trim (se_block ev)) (trim (se_topic ev))
           = Some sc'
           /\ findScore (buildMaps (detailedScores res)) (trim (se_block ev))
                (trim (se_topic ev)) = Some sc'
           /\ pairKey (trim (se_block ev)) (trim (se_topic ev)) ∈ keysOf sc'.
Proof.
  intros criteria ex request Hs.
  unfold evaluate, evaluateWithEnhancedMatching.
  fold criteria. fold ex. fold request. rewrite Hs. simpl.
  eexists. split; [reflexivity|]. simpl. split; [done|].
  intros ev Hin Hb Ht.
  destruct (echoed_entry_found
              (map (fun ev => mkDetailedScore (criterionOf (se_block ev) (se_topic ev))
                                (se_score ev) (se_max_score ev) (se_justification ev))
                 (evaluations evaluation))
              (mkDetailedScore (criterionOf (se_block ev) (se_topic ev))
                 (se_score ev) (se_max_score ev) (se_justification ev))
              (se_block ev) (se_topic ev)) as (sc' & Hf & H1 & _ & Hk & _);
    [|done|done|done|by exists sc'].
  apply list_elem_of_In, in_map_iff. exists ev. split; [done|]. by apply list_elem_of_In.
Qed.

End EvaluatorToReport.

Lemma criterion_round_trip_witness :
  parsedLabels (mkDetailedScore (criterionOf (u8 "Vcas") reversaTopic) 3 3 [])
  = Some (u8 "Vcas",
          u8 "Valida compras por facturar y cortes para identificar la compra para aclaración.").
Proof.
  destruct (criterion_round_trip
              (mkDetailedScore (criterionOf (u8 "Vcas") reversaTopic) 3 3 [])
              (u8 "Vcas") reversaTopic) as [_ H].
  - reflexivity.
  - vm_compute. reflexivity.
  - rewrite (H (u8 "Valida compras por facturar y cortes para identificar la compra para aclaración.")
               0x0A (u8 "Valida que las compras no tengan una reversa")).
    + vm_compute. reflexivity.
    + reflexivity.
    + vm_compute. reflexivity.
    + reflexivity.
    + intros E. vm_compute in E. discriminate E.
Defined.

Lemma line_break_topic_unmatched_witness :
  In reversaTopic (map topic (flat_map topics FRAUD_CRITERIA))
  /\ strategy1 (buildMaps [mkDetailedScore (criterionOf (u8 "Vcas") reversaTopic) 3 3 []])
       (u8 "Vcas") reversaTopic = None.
Proof.
  split.
  - apply list_elem_of_In. apply (bool_decide_unpack _). vm_compute. reflexivity.
  - apply (line_break_topic_unmatched
             [mkDetailedScore (criterionOf (u8 "Vcas") reversaTopic) 3 3 []]
             (u8 "Vcas") reversaTopic).
    vm_compute. reflexivity.
Defined.

(** The echoed two-line topic ends up with whatever the block-only lookup
    returns: here the score of another topic of its block. *)
Example line_break_topic_takes_block_score :
  let scores := [ mkDetailedScore (criterionOf (u8 "Vcas") reversaTopic) 3 3 (u8 "Validado");
                  mkDetailedScore (criterionOf (u8 "Vcas") (u8 "Bloquea tarjeta")) 0 5
                    (u8 "Sin bloqueo") ] in
  option_map observations (findScore (buildMaps scores) (u8 "Vcas") reversaTopic)
  = Some (u8 "Sin bloqueo").
Proof. vm_compute. reflexivity. Qed.

Lemma evaluate_entries_found_witness :
  exists res,
    evaluate (fun _ => []) (fun _ _ => Threw) (echoing [cierreEntry])
      inboundAudit (mkTranscript [] []) = Some res
    /\ is_Some (findScore (buildMaps (detailedScores res)) (u8 "Falcon")
                  (u8 "Cierre correcto del caso")).
Proof.
  destruct (evaluate_entries_found (fun _ => []) (fun _ _ => Threw) (echoing [cierreEntry])
              inboundAudit (mkTranscript [] [])
              (mkEvaluation [cierreEntry] 0 0 0 [] None None) (Some (100, 20)%Z))
    as (res & He & _ & H).
  - reflexivity.
  - exists res. split; [exact He|].
    destruct (H cierreEntry) as (sc' & _ & Hf & _).
    + constructor.
    + vm_compute. reflexivity.
    + vm_compute. reflexivity.
    + exists sc'. exact Hf.
Defined.

(* ===================================================================== *)
(** * File names and timestamps                                           *)
(* ===================================================================== *)

Lemma safeChar_not_space c : safeChar c = true -> isSpace c = false.
Proof.
  intros H. destruct (isSpace c) eqn:E; [exfalso|done].
  unfold safeChar, isWordChar in H.
  unfold isSpace, isWhiteSpace, isLineTerminator in E.
  unbool; lia.
Qed.

Lemma replaceSpaceRuns_no_space rep b s :
  forallb (fun c => negb (isSpace c)) s = true -> replaceSpaceRuns rep b s = s.
Proof.
  revert b. induction s as [|c s IH]; intros b; simpl; [done|].
  intros [Hc H]%andb_true_iff. apply negb_true_iff in Hc. by rewrite Hc, IH.
Qed.

Lemma forallb_take {A} (P : A -> bool) n l : forallb P l = true -> forallb P (take n l) = true.
Proof.
  revert n. induction l as [|x l IH]; intros [|n]; simpl; try done.
  intros [-> H]%andb_true_iff. by apply IH.
Qed.

Lemma forallb_filter_same {A} (P : A -> bool) l : forallb P (List.filter P l) = true.
Proof.
  induction l as [|x l IH]; simpl; [done|].
  destruct (P x) eqn:E; simpl; [by rewrite E|done].
Qed.

Lemma filter_all {A} (P : A -> bool) l : forallb P l = true -> List.filter P l = l.
Proof.
  induction l as [|x l IH]; simpl; [done|].
  intros [-> H]%andb_true_iff. by rewrite IH.
Qed.

Lemma sanitizeFilename_safe text : forallb safeChar (sanitizeFilename text) = true.
Proof.
  unfold sanitizeFilename. apply forallb_take. apply (forallb_filter_same safeChar).
Qed.

Lemma sanitizeFilename_length text : (length (sanitizeFilename text) <= 100)%nat.
Proof. unfold sanitizeFilename. rewrite length_take. lia. Qed.

Lemma digits_safe fuel n acc :
  forallb isDigit acc = true -> forallb isDigit (digits fuel n acc) = true.
Proof.
  revert n acc. induction fuel as [|f IH]; intros n acc H; simpl; [done|].
  assert (Hd : isDigit (0x30 + n mod 10) = true).
  { unfold isDigit. assert (Hm : n mod 10 < 10) by (apply N.mod_lt; lia).
    clear IH H. generalize dependent (n mod 10). intros d Hm.
    apply andb_true_iff. split; apply N.leb_le; lia. }
  destruct (n <? 10); [simpl; by rewrite Hd|].
  apply IH. simpl. by rewrite Hd.
Qed.

Lemma digits_nonempty fuel n acc : digits (S fuel) n acc <> [].
Proof.
  revert n acc. induction fuel as [|f IH]; intros n acc.
  - simpl. by destruct (n <? 10).
  - change (digits (S (S f)) n acc)
      with (if n <? 10 then (0x30 + n mod 10) :: acc
            else digits (S f) (n / 10) ((0x30 + n mod 10) :: acc)).
    destruct (n <? 10); [done|apply IH].
Qed.

Lemma isDigit_safe c : isDigit c = true -> safeChar c = true.
Proof.
  unfold isDigit, safeChar, isWordChar. intros H. unbool.
  replace (0x30 <=? c) with true by (symmetry; apply N.leb_le; lia).
  replace (c <=? 0x39) with true by (symmetry; apply N.leb_le; lia).
  reflexivity.
Qed.

Lemma forallb_impl {A} (P Q : A -> bool) l :
  (forall x, P x = true -> Q x = true) -> forallb P l = true -> forallb Q l = true.
Proof.
  intros H. induction l as [|x l IH]; simpl; [done|].
  intros [Hx Hl]%andb_true_iff. by rewrite (H x Hx), IH.
Qed.

Lemma ofZ_safe z : forallb safeChar (ofZ z) = true.
Proof.
  unfold ofZ.
  assert (forallb safeChar (digits (S (N.to_nat (N.log2 (Z.abs_N z)))) (Z.abs_N z) []) = true).
  { apply (forallb_impl isDigit); [apply isDigit_safe|]. by apply digits_safe. }
  destruct (z <? 0)%Z; [simpl|]; done.
Qed.

(** X11.  [sanitizeFilename] returns at most 100 code units, all of them letters,
    digits, underscore, hyphen or full stop, and leaves such a result as it
    is; so the file name of the report contains no path separator, whatever
    the executive id and the clock are. *)
Theorem sanitizeFilename_safe_name (Number_toString toFixed1 : Q -> jsstring)
    (writeBuffer : Z -> Workbook -> list N) (now now' now'' : Z)
    (auditInput : AuditInput) (evaluation : EvaluationResult) (text : jsstring) :
  let filename := (generateExcelReport Number_toString toFixed1 writeBuffer now now'
                     now'' auditInput evaluation).1 in
  (length (sanitizeFilename text) <= 100)%nat
  /\ forallb safeChar (sanitizeFilename text) = true
  /\ sanitizeFilename (sanitizeFilename text) = sanitizeFilename text
  /\ (forallb safeChar text = true -> (length text <= 100)%nat ->
      sanitizeFilename text = text)
  /\ filename = u8 "auditoria_" ++ sanitizeFilename (executiveId auditInput) ++ u8 "_"
                ++ ofZ now' ++ u8 ".xlsx"
  /\ forallb safeChar filename = true
  /\ (forall c, (c = 0x2F \/ c = 0x5C \/ c = 0) -> ~ (In c filename)).
Proof.
  intros filename.
  assert (Hfix : forall s, forallb safeChar s = true -> (length s <= 100)%nat ->
                           sanitizeFilename s = s).
  { intros s Hs Hl. unfold sanitizeFilename.
    rewrite replaceSpaceRuns_no_space.
    2:{ apply (forallb_impl safeChar); [|done].
        intros c Hc. by rewrite (safeChar_not_space c Hc). }
    assert (map (fun c => if c =? 0x09 then 0x5F else c) s = s) as ->.
    { clear Hl. induction s as [|c s IH]; simpl in *; [done|].
      apply andb_true_iff in Hs as [Hc Hs]. rewrite IH by done.
      assert ((c =? 9) = false) as ->; [|done].
      apply N.eqb_neq. unfold safeChar, isWordChar in Hc. unbool; lia. }
    rewrite (filter_all safeChar) by done. by apply take_ge. }
  assert (Hname : forallb safeChar filename = true).
  { subst filename. unfold generateExcelReport. cbn [fst].
    rewrite !forallb_app, sanitizeFilename_safe, ofZ_safe. reflexivity. }
  split; [apply sanitizeFilename_length|].
  split; [apply sanitizeFilename_safe|].
  split; [apply Hfix; [apply sanitizeFilename_safe|apply sanitizeFilename_length]|].
  split; [exact (Hfix text)|]. split; [reflexivity|]. split; [exact Hname|].
  intros c Hc Hin. rewrite forallb_forall in Hname. specialize (Hname c Hin).
  destruct Hc as [-> | [-> | ->]]; discriminate Hname.
Qed.

Lemma sanitizeFilename_safe_name_witness :
  sanitizeFilename (u8 "E-001.a") = u8 "E-001.a"
  /\ sanitizeFilename (u8 "../etc/pass wd") = u8 "..etcpass_wd".
Proof.
  destruct (sanitizeFilename_safe_name showQ showQ (fun _ _ => []) 0 0 0 monitoreoAudit
              monitoreoEvaluation (u8 "E-001.a")) as (_ & _ & _ & H & _).
  split; [apply H; [reflexivity | vm_compute; lia]|].
  vm_compute. reflexivity.
Defined.

Lemma digitRun_spec s :
  forallb isDigit (digitRun s).1 = true
  /\ s = (digitRun s).1 ++ (digitRun s).2
  /\ match (digitRun s).2 with
     | c :: _ => isDigit c = false
     | [] => True
     end.
Proof.
  induction s as [|c s (H1 & H2 & H3)]; simpl; [done|].
  destruct (isDigit c) eqn:E.
  - destruct (digitRun s) as [d rest]. simpl in *. rewrite E, H1.
    split; [done|]. split; [by rewrite <- H2|done].
  - simpl. by rewrite E.
Qed.

Lemma digitRun_app d rest :
  forallb isDigit d = true ->
  match rest with c :: _ => isDigit c = false | [] => True end ->
  digitRun (d ++ rest) = (d, rest).
Proof.
  intros Hd Hr. induction d as [|c d IH]; simpl.
  - destruct rest as [|c r]; [done|]. simpl. by rewrite Hr.
  - simpl in Hd. apply andb_true_iff in Hd as [-> Hd]. by rewrite IH.
Qed.

Lemma minSecAt_Some s m n :
  minSecAt s = Some (m, n) ->
  m <> [] /\ n <> [] /\ forallb isDigit m = true /\ forallb isDigit n = true.
Proof.
  unfold minSecAt.
  pose proof (digitRun_spec s) as (H1 & _ & _).
  destruct (digitRun s) as [[|c d] rest]; [done|].
  destruct rest as [|x rest]; [done|].
  destruct (x =? 0x3A) eqn:Ex; [|by repeat case_match].
  apply N.eqb_eq in Ex. subst x.
  pose proof (digitRun_spec rest) as (H4 & _ & _).
  destruct (digitRun rest) as [[|c' d'] rest']; [done|].
  intros [= <- <-]. done.
Qed.

Lemma matchMinSec_Some s m n :
  matchMinSec s = Some (m, n) ->
  m <> [] /\ n <> [] /\ forallb isDigit m = true /\ forallb isDigit n = true.
Proof.
  induction s as [|c s IH]; simpl.
  - by destruct (minSecAt []) eqn:E.
  - destruct (minSecAt (c :: s)) as [[m' n']|] eqn:E; [|exact IH].
    intros [= <- <-]. by apply minSecAt_Some in E.
Qed.

Lemma padStart2_digits s :
  s <> [] -> forallb isDigit s = true ->
  forallb isDigit (padStart2 s) = true /\ (2 <= length (padStart2 s))%nat
  /\ padStart2 (padStart2 s) = padStart2 s.
Proof.
  unfold padStart2, EvaluatorService.padStart2.
  destruct s as [|a [|b r]]; [done| |]; simpl; intros _ H.
  - rewrite andb_true_r in H. rewrite H. split; [done|]. split; [lia|done].
  - rewrite H. split; [done|]. split; [lia|done].
Qed.

Lemma matchMinSec_head m n :
  m <> [] -> n <> [] -> forallb isDigit m = true -> forallb isDigit n = true ->
  matchMinSec (m ++ 0x3A :: n) = Some (m, n).
Proof.
  intros Hm Hn Dm Dn.
  assert (minSecAt (m ++ 0x3A :: n) = Some (m, n)) as E.
  { unfold minSecAt. rewrite digitRun_app by done.
    destruct m as [|a m]; [done|].
    rewrite <- (app_nil_r n) at 1. rewrite digitRun_app by done.
    by destruct n. }
  destruct m as [|a m]; [done|]. simpl in *. by rewrite E.
Qed.

(** X12.  [formatTimestamp] gives '00:00' for the empty string, returns a string
    without 'digits:digits' unchanged, and otherwise keeps only the first
    such pair, each part padded to two digits; applying it twice changes
    nothing more. *)
Theorem formatTimestamp_idempotent (timestamp : jsstring) :
  formatTimestamp (formatTimestamp timestamp) = formatTimestamp timestamp
  /\ (timestamp <> [] -> matchMinSec timestamp = None -> formatTimestamp timestamp = timestamp)
  /\ (forall m n, timestamp <> [] -> matchMinSec timestamp = Some (m, n) ->
        formatTimestamp timestamp = padStart2 m ++ u8 ":" ++ padStart2 n
        /\ forallb isDigit (padStart2 m) = true /\ forallb isDigit (padStart2 n) = true
        /\ (2 <= length (padStart2 m))%nat /\ (2 <= length (padStart2 n))%nat).
Proof.
  assert (Hshape : forall m n, m <> [] -> n <> [] ->
            forallb isDigit m = true -> forallb isDigit n = true ->
            formatTimestamp (padStart2 m ++ u8 ":" ++ padStart2 n)
            = padStart2 m ++ u8 ":" ++ padStart2 n).
  { intros m n Hm Hn Dm Dn.
    destruct (padStart2_digits m Hm Dm) as (Pm & Lm & Im).
    destruct (padStart2_digits n Hn Dn) as (Pn & Ln & In').
    assert (Nm : padStart2 m <> []) by (intros E; rewrite E in Lm; simpl in Lm; lia).
    assert (Nn : padStart2 n <> []) by (intros E; rewrite E in Ln; simpl in Ln; lia).
    unfold formatTimestamp at 1.
    change (u8 ":" ++ padStart2 n) with (0x3A :: padStart2 n).
    rewrite (matchMinSec_head _ _ Nm Nn Pm Pn).
    rewrite Im, In'. by destruct (padStart2 m). }
  split; [|split].
  - destruct timestamp as [|c s]; [vm_compute; reflexivity|].
    destruct (matchMinSec (c :: s)) as [[m n]|] eqn:E.
    + assert (F : formatTimestamp (c :: s) = padStart2 m ++ u8 ":" ++ padStart2 n).
      { unfold formatTimestamp. by rewrite E. }
      rewrite F. apply matchMinSec_Some in E as (Hm & Hn & Dm & Dn). by apply Hshape.
    + assert (F : formatTimestamp (c :: s) = c :: s).
      { unfold formatTimestamp. by rewrite E. }
      by rewrite !F.
  - intros Hne E. unfold formatTimestamp. rewrite E. by destruct timestamp.
  - intros m n Hne E. unfold formatTimestamp. rewrite E.
    apply matchMinSec_Some in E as (Hm & Hn & Dm & Dn).
    destruct (padStart2_digits m Hm Dm) as (Pm & Lm & _).
    destruct (padStart2_digits n Hn Dn) as (Pn & Ln & _).
    by destruct timestamp.
Qed.

Lemma formatTimestamp_idempotent_witness :
  formatTimestamp (u8 "a las 3:7 pm") = u8 "03:07"
  /\ formatTimestamp (u8 "inicio") = u8 "inicio".
Proof.
  destruct (formatTimestamp_idempotent (u8 "a las 3:7 pm")) as (_ & _ & H).
  destruct (formatTimestamp_idempotent (u8 "inicio")) as (_ & H' & _).
  split.
  - destruct (H (u8 "3") (u8 "7")) as [-> _].
    + intros E. discriminate E.
    + vm_compute. reflexivity.
    + vm_compute. reflexivity.
  - apply H'.
    + intros E. discriminate E.
    + vm_compute. reflexivity.
Defined.

Lemma ofZ_digits z :
  (0 <= z)%Z -> ofZ z <> [] /\ forallb isDigit (ofZ z) = true.
Proof.
  intros Hz. unfold ofZ.
  assert ((z <? 0)%Z = false) as -> by (apply Z.ltb_ge; lia).
  split; [apply digits_nonempty|by apply digits_safe].
Qed.

Lemma seconds_two_digits z :
  (0 <= z < 60)%Z -> length (padStart2 (ofZ z)) = 2%nat.
Proof.
  intros Hz.
  assert (H : forallb (fun n => Nat.eqb (length (padStart2 (ofZ (Z.of_nat n)))) 2) (seq 0 60)
              = true) by (vm_compute; reflexivity).
  rewrite forallb_forall in H.
  specialize (H (Z.to_nat z)). rewrite Z2Nat.id in H by lia.
  apply Nat.eqb_eq, H. apply in_seq. lia.
Qed.

(** X13.  [formatTime] on a whole number of milliseconds below [10^15], the
    range on which the code's double arithmetic and number rendering are
    those of the integers: from one second on the result is minutes and
    seconds of the elapsed time, the seconds on exactly two digits; a value
    under 1000 is taken for seconds, so it formats like a thousand times as
    many milliseconds; and the report's [formatTimestamp] leaves the result
    as it is. *)
Theorem formatTime_shape (timeValue : Z) :
  (0 <= timeValue < 1000000000000000)%Z ->
  let secs := (if (1000 <=? timeValue)%Z then timeValue / 1000 else timeValue)%Z in
  formatTime timeValue
  = padStart2 (ofZ (secs / 60)) ++ u8 ":" ++ padStart2 (ofZ (secs mod 60))
  /\ (1000 <= timeValue -> secs / 60 = timeValue / 60000)%Z
  /\ length (padStart2 (ofZ (secs mod 60))) = 2%nat
  /\ (timeValue < 1000 -> formatTime timeValue = formatTime (1000 * timeValue))%Z
  /\ formatTimestamp (formatTime timeValue) = formatTime timeValue.
Proof.
  intros Ht secs.
  assert (Hs : (0 <= secs)%Z).
  { subst secs. destruct (1000 <=? timeValue)%Z; [apply Z.div_pos|]; lia. }
  assert (Hf : formatTime timeValue
               = padStart2 (ofZ (secs / 60)) ++ u8 ":" ++ padStart2 (ofZ (secs mod 60))).
  { unfold formatTime. fold secs. cbv zeta. by rewrite Z.rem_mod_nonneg by lia. }
  split; [exact Hf|]. split.
  { intros H. subst secs. assert ((1000 <=? timeValue)%Z = true) as -> by (apply Z.leb_le; lia).
    rewrite Z.div_div by lia. reflexivity. }
  split. { apply seconds_two_digits. apply Z.mod_pos_bound. lia. }
  split.
  { intros H. unfold formatTime.
    assert ((1000 <=? timeValue)%Z = false) as -> by (apply Z.leb_gt; lia).
    destruct (Z.eq_dec timeValue 0%Z) as [->|Hne]; [reflexivity|].
    assert ((1000 <=? 1000 * timeValue)%Z = true) as -> by (apply Z.leb_le; lia).
    by rewrite Z.mul_comm, Z.div_mul by lia. }
  rewrite Hf.
  destruct (ofZ_digits (secs / 60)) as [Nm Dm]; [apply Z.div_pos; lia|].
  destruct (ofZ_digits (secs mod 60)) as [Nn Dn]; [apply Z.mod_pos_bound; lia|].
  destruct (padStart2_digits _ Nm Dm) as (Pm & Lm & Im).
  destruct (padStart2_digits _ Nn Dn) as (Pn & Ln & In').
  assert (Xm : padStart2 (ofZ (secs / 60)) <> [])
    by (intros E; rewrite E in Lm; simpl in Lm; lia).
  assert (Xn : padStart2 (ofZ (secs mod 60)) <> [])
    by (intros E; rewrite E in Ln; simpl in Ln; lia).
  unfold formatTimestamp.
  change (u8 ":" ++ padStart2 (ofZ (secs mod 60)))
    with (0x3A :: padStart2 (ofZ (secs mod 60))).
  rewrite (matchMinSec_head _ _ Xm Xn Pm Pn), Im, In'.
  by destruct (padStart2 (ofZ (secs / 60))).
Qed.

Lemma formatTime_shape_witness :
  formatTime 999 = formatTime 999000 /\ formatTime 999 = u8 "16:39"
  /\ formatTime 1000 = u8 "00:01".
Proof.
  destruct (formatTime_shape 999) as (_ & _ & _ & H & _); [lia|].
  split; [apply H; lia|]. split; vm_compute; reflexivity.
Defined.

(** X14.  Whatever the input, a normalized text has no combining diacritical
    mark, no white space other than single U+0020 between words, none at
    either end, and hence no line break or tab. *)
Theorem normalizeText_normal_form (text : jsstring) :
  forallb (fun c => negb (isCombiningMark c)) (normalizeText text) = true
  /\ collapsed false (normalizeText text) = true
  /\ trim (normalizeText text) = normalizeText text
  /\ lineBreakFree (normalizeText text) = true
  /\ match normalizeText text with
     | c :: _ => isSpace c = false
     | [] => True
     end.
Proof.
  split.
  { unfold normalizeText. apply forallb_trim.
    apply forallb_replaceSpaceRuns; [done|].
    apply (forallb_filter_same (fun c => negb (isCombiningMark c))). }
  split; [apply normalizeText_collapsed|].
  split; [unfold normalizeText; apply trim_fixed|].
  split; [apply (collapsed_no_break false), normalizeText_collapsed|].
  assert (H : trimStart (normalizeText text) = normalizeText text).
  { unfold normalizeText, trim.
    set (x := replaceSpaceRuns 32 false _).
    pose proof (trimStart_head x) as Hh.
    destruct (trimStart x) as [|c r] eqn:E; [done|].
    rewrite trimEnd_cons, Hh. simpl. by rewrite Hh. }
  pose proof (trimStart_head (normalizeText text)) as Hh. by rewrite H in Hh.
Qed.

(* ===================================================================== *)
(** * Token accounting of an evaluation                                   *)
(* ===================================================================== *)

Section Tokens.

Variable Number_toString : Q -> jsstring.
Variable respond : nat -> nat -> Outcome.
Variable scorer : ScoringRequest -> option (Evaluation * option (Z * Z)).

#[local] Abbreviation accounted st :=
  (totalInputTokens st = (billed respond (trace st)).1
   /\ totalOutputTokens st = (billed respond (trace st)).2).

Lemma billed_app a b :
  billed respond (a ++ b)
  = ((billed respond a).1 + (billed respond b).1,
     (billed respond a).2 + (billed respond b).2)%Z.
Proof.
  induction a as [|[i k|ms] a IH]; simpl.
  - by destruct (billed respond b).
  - rewrite IH. simpl. f_equal; lia.
  - exact IH.
Qed.

Lemma attempt_accounted i imagePath k st :
  accounted st -> accounted (attempt Number_toString respond i imagePath k st).1.
Proof.
  intros [Hi Ho]. unfold attempt.
  assert (Hreq : billed respond (trace st ++ [Request i k])
                 = (totalInputTokens st + (usageOf (respond i k)).1,
                    totalOutputTokens st + (usageOf (respond i k)).2)%Z).
  { rewrite billed_app, Hi, Ho. simpl. f_equal; lia. }
  destruct (respond i k) as [|u parsed]; simpl in *.
  - rewrite Hreq. simpl. split; lia.
  - assert (Hu : accounted (addUsage u (emit (Request i k) st))).
    { destruct u as [[a b]|]; simpl; rewrite Hreq; simpl; split; lia. }
    destruct parsed as [p|]; [|exact Hu].
    destruct (store _ _ _ _); [|exact Hu].
    simpl. exact Hu.
Qed.

Lemma retry_accounted fuel i imagePath k st :
  accounted st -> accounted (retry Number_toString respond fuel i imagePath k st).
Proof.
  revert k st. induction fuel as [|fuel IH]; intros k st H; simpl; [done|].
  destruct (k <? maxAttempts)%nat; [|done].
  pose proof (attempt_accounted i imagePath (S k) st H) as Ha.
  destruct (attempt Number_toString respond i imagePath (S k) st) as [st' [|]];
    simpl in Ha; [exact Ha|].
  apply IH.
  match goal with |- context [if ?c then _ else _] => destruct c end; [exact Ha|].
  simpl. rewrite billed_app. simpl. destruct Ha as [-> ->]. split; lia.
Qed.

Lemma forImages_accounted imagePaths i st :
  accounted st -> accounted (forImages Number_toString respond i imagePaths st).
Proof.
  revert i st. induction imagePaths as [|p ps IH]; intros i st H; [done|].
  change (forImages Number_toString respond i (p :: ps) st)
    with (forImages Number_toString respond (S i) ps
            (retry Number_toString respond maxAttempts i p 0 st)).
  apply IH. by apply retry_accounted.
Qed.

(** X15.  The token counts of an evaluation: the visual extraction reports the
    tokens of every request it made that got a reply with usage data,
    rejected replies included; [evaluate] adds the scorer's usage (nothing
    when the scorer reports none), and the total is input plus output. *)
Theorem evaluate_usage_accounting (auditInput : AuditInput)
    (transcript : TranscriptResult) (evaluation : Evaluation) (u : option (Z * Z)) :
  let criteria := getCriteriaForCallType (callType auditInput) in
  let ex := extractVisualEvidenceEnhanced Number_toString respond
              (default [] (imagePaths auditInput)) in
  let request := buildRequest criteria (evidence ex)
                   (extractVerbalEvidence transcript) auditInput in
  let tin := ((billed respond (trace ex)).1 + (default (0, 0) u).1)%Z in
  let tout := ((billed respond (trace ex)).2 + (default (0, 0) u).2)%Z in
  totalInputTokens ex = (billed respond (trace ex)).1
  /\ totalOutputTokens ex = (billed respond (trace ex)).2
  /\ (scorer request = Some (evaluation, u) ->
      exists res,
        evaluate Number_toString respond scorer auditInput transcript = Some res
        /\ usage res = Some (mkUsage tin tout (tin + tout))).
Proof.
  intros criteria ex request tin tout.
  assert (H : accounted ex).
  { subst ex. unfold extractVisualEvidenceEnhanced. by apply forImages_accounted. }
  destruct H as [Hi Ho]. split; [done|]. split; [done|].
  intros Hs. unfold evaluate, evaluateWithEnhancedMatching.
  fold criteria. fold ex. fold request. rewrite Hs. simpl.
  eexists. split; [reflexivity|]. simpl. subst tin tout. by rewrite Hi, Ho.
Qed.

End Tokens.

Lemma evaluate_usage_accounting_witness :
  exists res,
    evaluate (fun _ => []) demoRespond (echoing [cierreEntry])
      (mkAuditInput (u8 "Ana") (u8 "E1") (u8 "INBOUND") (u8 "C1") (u8 "2025-01-01")
         None (Some [u8 "a.png"]))
      (mkTranscript [] []) = Some res
    /\ usage res = Some (mkUsage 120 30 150).
Proof.
  destruct (evaluate_usage_accounting (fun _ => []) demoRespond (echoing [cierreEntry])
              (mkAuditInput (u8 "Ana") (u8 "E1") (u8 "INBOUND") (u8 "C1") (u8 "2025-01-01")
                 None (Some [u8 "a.png"]))
              (mkTranscript [] [])
              (mkEvaluation [cierreEntry] 0 0 0 [] None None) (Some (100, 20)%Z))
    as (_ & _ & H).
  destruct H as (res & He & Hu); [reflexivity|].
  exists res. split; [exact He|]. rewrite Hu. vm_compute. reflexivity.
Defined.

(* ===================================================================== *)
(** * The horizontal sheet: list view and matrix view                     *)
(* ===================================================================== *)

Lemma analysisRow_index m b t r idx x :
  value (cellAfter (analysisRow m b t r idx) r 1 x)
  = Some (VNum (inject_Z (Z.of_nat idx))).
Proof.
  unfold analysisRow, cellAfter, dataStyle, at_, scoreStyle.
  repeat case_match; row_eval; reflexivity.
Qed.

Lemma analysisRow_criticality m b t r idx x :
  value (cellAfter (analysisRow m b t r idx) r 3 x)
  = Some (VStr (criticalityText (criticality t))).
Proof.
  unfold analysisRow, cellAfter, dataStyle, at_, scoreStyle.
  repeat case_match; row_eval; reflexivity.
Qed.

Lemma analysisRow_obtained m b t r idx x :
  value (cellAfter (analysisRow m b t r idx) r 6 x)
  = Some (tv_value (getTopicValueWithReason m (blockName b) (topic t) t)).
Proof.
  unfold analysisRow, cellAfter, dataStyle, at_, scoreStyle.
  repeat case_match; row_eval; reflexivity.
Qed.

Lemma analysisRow_applies m b t r idx x :
  value (cellAfter (analysisRow m b t r idx) r 7 x)
  = Some (VStr (if applies t then u8 "Sí" else u8 "No")).
Proof.
  unfold analysisRow, cellAfter, dataStyle, at_, scoreStyle.
  repeat case_match; row_eval; reflexivity.
Qed.

Lemma analysisRow_reason m b t r idx x :
  value (cellAfter (analysisRow m b t r idx) r 8 x)
  = Some (VStr (tv_reason (getTopicValueWithReason m (blockName b) (topic t) t))).
Proof.
  unfold analysisRow, cellAfter, dataStyle, at_, scoreStyle.
  repeat case_match; row_eval; reflexivity.
Qed.

Section Views.

Variable Number_toString : Q -> jsstring.
Variable toFixed1 : Q -> jsstring.

#[local] Abbreviation analysisSheet := (createAnalysisSheet Number_toString toFixed1).

(** X16.  In the horizontal sheet the two views of a topic agree: the obtained
    value in column 6 of its row is the value of its matrix cell, and the
    observation in column 8 is the text of the matrix cell's note, which is
    present unless the topic does not apply.  The row also carries the
    running number, the criticality and whether the topic applies. *)
Theorem analysis_views_agree (a : AuditInput) (e : EvaluationResult) (i : nat)
    (b : EvaluationBlock) (t : EvaluationTopic) :
  let criteria := getCriteriaForCallType (callType a) in
  let m := buildMaps (detailedScores e) in
  let H := analysisSheet ∅ a e in
  let res := getTopicValueWithReason m (blockName b) (topic t) t in
  flatTopics criteria !! i = Some (b, t) ->
  value (getCell H (5 + i) 1) = Some (VNum (inject_Z (Z.of_nat (S i))))
  /\ value (getCell H (5 + i) 3) = Some (VStr (criticalityText (criticality t)))
  /\ value (getCell H (5 + i) 6) = Some (tv_value res)
  /\ value (getCell H (5 + i) 6) = value (getCell H 5 (9 + i))
  /\ value (getCell H (5 + i) 7) = Some (VStr (if applies t then u8 "Sí" else u8 "No"))
  /\ value (getCell H (5 + i) 8) = Some (VStr (tv_reason res))
  /\ note (getCell H 5 (9 + i))
     = (if applies t then Some [ mkNoteText false (tv_reason res) ] else None).
Proof.
  intros criteria m H res Hi.
  destruct (createAnalysisSheet_matrix Number_toString toFixed1 ∅ a e i b t Hi) as [Hv Hn].
  assert (Hrow : forall c, (c <= 8)%nat ->
            getCell H (5 + i) c
            = cellAfter (analysisRow m b t (5 + i) (S i)) (5 + i) c (getCell ∅ (5 + i) c)).
  { intros c Hc. subst H. by rewrite (createAnalysisSheet_row _ _ _ _ _ i b t) by (done || lia). }
  split; [rewrite Hrow by lia; apply analysisRow_index|].
  split; [rewrite Hrow by lia; apply analysisRow_criticality|].
  split; [rewrite Hrow by lia; apply analysisRow_obtained|].
  split.
  { rewrite Hrow by lia. subst H. rewrite Hv, analysisMatrixCell_value.
    apply analysisRow_obtained. }
  split; [rewrite Hrow by lia; apply analysisRow_applies|].
  split; [rewrite Hrow by lia; apply analysisRow_reason|].
  subst H. rewrite Hn, analysisMatrixCell_note. fold m res.
  rewrite getCell_empty. subst res. unfold getTopicValueWithReason.
  destruct (applies t); simpl; [|done].
  destruct (findScore m (blockName b) (topic t)) as [sc|]; simpl; [|done].
  by destruct (Qeq_bool (score sc) 0).
Qed.

End Views.

Lemma analysis_views_agree_witness :
  value (getCell (createAnalysisSheet showQ showQ ∅ inboundAudit monitoreoEvaluation) (5 + 0) 6)
  = value (getCell (createAnalysisSheet showQ showQ ∅ inboundAudit monitoreoEvaluation) 5 (9 + 0)).
Proof.
  destruct (analysis_views_agree showQ showQ inboundAudit monitoreoEvaluation 0
              (mkBlock (u8 "Falcon") (topics (default (mkBlock [] []) (head FRAUD_CRITERIA))))
              (default hotlistTopic (head (topics (default (mkBlock [] []) (head FRAUD_CRITERIA))))))
    as (_ & _ & _ & H & _).
  - vm_compute. reflexivity.
  - exact H.
Defined.

(* ===================================================================== *)
(** * The vertical sheet: rows around the topics                          *)
(* ===================================================================== *)

Lemma monitoreoRow_block m b t k r x :
  value (cellAfter (monitoreoRow m b t k r) r 2 x)
  = if bool_decide (k = 0%nat) then Some (VStr (blockName b)) else value x.
Proof.
  unfold monitoreoRow, cellAfter, greyUnevaluated, at_, scoreStyle.
  repeat case_match; cell_eval; reflexivity.
Qed.

Lemma cellAfter_cons_hit w ws r c x :
  w_row w = r /\ w_col w = c ->
  cellAfter (w :: ws) r c x = cellAfter ws r c (assign (w_what w) x).
Proof. intros H. apply onCell_true in H. unfold cellAfter. simpl. by rewrite H. Qed.

Lemma cellAfter_cons_miss w ws r c x :
  w_row w <> r \/ w_col w <> c ->
  cellAfter (w :: ws) r c x = cellAfter ws r c x.
Proof. intros H. apply onCell_false in H. unfold cellAfter. simpl. by rewrite H. Qed.

Lemma cellAfter_nil r c x : cellAfter [] r c x = x.
Proof. done. Qed.

Ltac walk_cells :=
  repeat first
    [ rewrite cellAfter_nil
    | rewrite cellAfter_cons_miss by (cbn [w_row w_col]; lia)
    | rewrite cellAfter_cons_hit by (cbn [w_row w_col]; split; lia) ].

Section Vertical.

Variable Number_toString : Q -> jsstring.

#[local] Abbreviation monitoreoSheet := (createMonitoreoSheet Number_toString).

Ltac open_monitoreo :=
  unfold createMonitoreoSheet; cbv zeta;
  rewrite monitoreoRows_run; cbv beta iota;
  rewrite !getCell_run.

Ltac monitoreo_shape :=
  match goal with
  | Hw : In ?w (monitoreoRow ?m ?b ?t ?k ?j) |- _ =>
      let H := fresh in
      pose proof (proj1 (Forall_forall _ _) (monitoreoRow_shape m b t k j) w
                    (proj2 (list_elem_of_In _ _) Hw)) as H;
      cbn beta in H
  end.

Lemma createMonitoreoSheet_cell sh a e i b t k c :
  indexedTopics (getCriteriaForCallType (callType a)) !! i = Some (b, t, k) ->
  getCell (monitoreoSheet sh a e) (4 + i) c
  = cellAfter (monitoreoRow (buildMaps (detailedScores e)) b t k (4 + i))
      (4 + i) c (getCell sh (4 + i) c).
Proof.
  intros Hk. pose proof (lookup_lt_Some _ _ _ Hk) as Hlt.
  open_monitoreo.
  rewrite cellAfter_untouched by fixed_untouched.
  rewrite (cellAfter_loop _ 4 _ _ _ i (b, t, k)); [|
    intros z j w Hw Hon; apply onCell_true in Hon; monitoreo_shape; lia | done].
  cbn [fst snd]. f_equal.
  by rewrite (cellAfter_above 4) by (reflexivity || lia).
Qed.

(** Cells that no topic row reaches are left to the fixed part of the
    layout. *)
Lemma createMonitoreoSheet_outside sh a e r c :
  let n := length (indexedTopics (getCriteriaForCallType (callType a))) in
  (r < 4 \/ 4 + n <= r \/ c < 2 \/ 4 < c)%nat ->
  getCell (monitoreoSheet sh a e) r c
  = cellAfter
      [ str (4 + n) 3 (u8 "Total");
        setFont (4 + n) 3 (boldColor 12 WHITE_FONT);
        setFill (4 + n) 3 HEADER_RED;
        str (4 + n) 4 (scoreLine Number_toString e);
        setFont (4 + n) 4 (boldColor 12 WHITE_FONT);
        setFill (4 + n) 4 HEADER_RED;
        str (4 + n + 2) 2 (u8 "Observaciones");
        setFont (4 + n + 2) 2 (boldColor 11 WHITE_FONT);
        setFill (4 + n + 2) 2 HEADER_RED;
        str (4 + n + 2) 3 (monitoreoObservations e);
        setFont (4 + n + 2) 3 (plain 10) ] r c
      (cellAfter
         ([ str 2 2 (u8 "Monitoreo") ] ++ headerStyleM 2 2 ++
          [ str 2 3 (executiveName a) ] ++ headerStyleM 2 3 ++
          [ str 2 4 (orStr (clientId a) (executiveId a)) ] ++ headerStyleM 2 4 ++
          [ str 3 2 (u8 "Bloques") ] ++ headerStyleM 3 2 ++
          [ str 3 3 (u8 "Rubros") ] ++ headerStyleM 3 3 ++
          [ str 3 4 (u8 "Ponderación") ] ++ headerStyleM 3 4) r c (getCell sh r c)).
Proof.
  intros n Hout. open_monitoreo. fold n. f_equal.
  rewrite cellAfter_loop_untouched; [done|].
  intros z i w Hi Hw. apply lookup_lt_Some in Hi. fold n in Hi.
  monitoreo_shape. apply onCell_false. lia.
Qed.

Ltac fixed_cell :=
  unfold headerStyleM, str, setValue, setFont, setFill;
  cbn [app]; walk_cells;
  cbn [assign w_what value font fill note]; rewrite ?getCell_empty.

(** X17.  The assignments of values, fonts, fills and notes that frame the topic
    rows of the vertical sheet (borders, alignment and merges are not
    carried by the model): the header row with the executive's name and
    the client id (the executive id when there is none); the block name
    assigned on the first row of each block only, the cells below being
    merged into it; after the last topic the total with the score line, a
    row that receives nothing because it is merged into the total, and the
    observations; nothing assigned outside columns B to D or outside these
    rows. *)
Theorem monitoreo_frame (a : AuditInput) (e : EvaluationResult) (i : nat)
    (b : EvaluationBlock) (t : EvaluationTopic) (k : nat) :
  let criteria := getCriteriaForCallType (callType a) in
  let n := length (flatTopics criteria) in
  let V := monitoreoSheet ∅ a e in
  indexedTopics criteria !! i = Some (b, t, k) ->
  flatTopics criteria !! i = Some (b, t)
  /\ value (getCell V (4 + i) 2)
     = (if bool_decide (k = 0%nat) then Some (VStr (blockName b)) else None)
  /\ value (getCell V 2 2) = Some (VStr (u8 "Monitoreo"))
  /\ value (getCell V 2 3) = Some (VStr (executiveName a))
  /\ value (getCell V 2 4) = Some (VStr (orStr (clientId a) (executiveId a)))
  /\ value (getCell V (4 + n) 4) = Some (VStr (scoreLine Number_toString e))
  /\ (forall c, getCell V (4 + n + 1) c = emptyCell)
  /\ value (getCell V (4 + n + 2) 2) = Some (VStr (u8 "Observaciones"))
  /\ value (getCell V (4 + n + 2) 3) = Some (VStr (monitoreoObservations e))
  /\ (forall r c, (r < 2 \/ 4 + n + 2 < r \/ c < 2 \/ 4 < c)%nat ->
        getCell V r c = emptyCell).
Proof.
  intros criteria n V Hk.
  assert (Hn : length (indexedTopics (getCriteriaForCallType (callType a))) = n)
    by apply indexedTopics_length.
  split.
  { rewrite <- indexedTopics_flatTopics.
    change (map fst (indexedTopics criteria)) with (fst <$> indexedTopics criteria).
    by rewrite list_lookup_fmap, Hk. }
  split.
  { subst V. rewrite (createMonitoreoSheet_cell _ _ _ i b t k) by done.
    by rewrite monitoreoRow_block, getCell_empty. }
  split; [subst V; rewrite createMonitoreoSheet_outside by lia; rewrite Hn; by fixed_cell|].
  split; [subst V; rewrite createMonitoreoSheet_outside by lia; rewrite Hn; by fixed_cell|].
  split; [subst V; rewrite createMonitoreoSheet_outside by lia; rewrite Hn; by fixed_cell|].
  split; [subst V; rewrite createMonitoreoSheet_outside by lia; rewrite Hn; by fixed_cell|].
  split.
  { intros c. subst V. rewrite createMonitoreoSheet_outside by lia. rewrite Hn. by fixed_cell. }
  split; [subst V; rewrite createMonitoreoSheet_outside by lia; rewrite Hn; by fixed_cell|].
  split; [subst V; rewrite createMonitoreoSheet_outside by lia; rewrite Hn; by fixed_cell|].
  intros r c Hout. subst V.
  destruct (decide (r < 4 \/ 4 + n <= r \/ c < 2 \/ 4 < c)%nat) as [Ho|Hin].
  - rewrite createMonitoreoSheet_outside by (rewrite Hn; exact Ho). rewrite Hn. by fixed_cell.
  - lia.
Qed.

End Vertical.

Lemma monitoreo_frame_witness :
  value (getCell (createMonitoreoSheet showQ ∅ monitoreoAudit monitoreoEvaluation) (4 + 5) 2)
  = None
  /\ value (getCell (createMonitoreoSheet showQ ∅ monitoreoAudit monitoreoEvaluation) (4 + 4) 2)
     = Some (VStr (u8 "Vision+")).
Proof.
  split.
  - destruct (monitoreo_frame showQ monitoreoAudit monitoreoEvaluation 5
                (mkBlock (u8 "Vision+")
                   [ mkTopic (u8 "Comentario en ASHI") NoCritico (Pts 3) true;
                     mkTopic (u8 "Bloqueo correcto de la tarjeta") NoCritico (Pts 7) true ])
                (mkTopic (u8 "Bloqueo correcto de la tarjeta") NoCritico (Pts 7) true) 1)
      as (_ & H & _); [vm_compute; reflexivity|exact H].
  - destruct (monitoreo_frame showQ monitoreoAudit monitoreoEvaluation 4
                (mkBlock (u8 "Vision+")
                   [ mkTopic (u8 "Comentario en ASHI") NoCritico (Pts 3) true;
                     mkTopic (u8 "Bloqueo correcto de la tarjeta") NoCritico (Pts 7) true ])
                (mkTopic (u8 "Comentario en ASHI") NoCritico (Pts 3) true) 0)
      as (_ & H & _); [vm_compute; reflexivity|exact H].
Defined.

(* ===================================================================== *)
(** * The horizontal sheet: frame                                         *)
(* ===================================================================== *)

Lemma cellAfter_other_row k ws r c x :
  forallb (fun w => Nat.eqb (w_row w) k) ws = true -> k <> r ->
  cellAfter ws r c x = x.
Proof.
  intros H Hk. apply (cellAfter_where _ _ _ _ _ H).
  intros w Hw. apply Nat.eqb_eq in Hw. lia.
Qed.

Lemma header_value r col s x :
  value (cellAfter (str r col s :: headerStyleA r col) r col x) = Some (VStr s).
Proof. unfold headerStyleA, str, setValue, setFont, setFill. walk_cells. reflexivity. Qed.

Section Frame.

Variable Number_toString : Q -> jsstring.
Variable toFixed1 : Q -> jsstring.

#[local] Abbreviation analysisSheet := (createAnalysisSheet Number_toString toFixed1).

Ltac open_analysis :=
  unfold createAnalysisSheet; cbv zeta;
  rewrite !forEachTopic_run; cbn [fst];
  rewrite !getCell_run.

Ltac loop_shape lem :=
  let H := fresh in
  match goal with
  | Hw : In ?w _ |- _ =>
      pose proof (proj1 (Forall_forall _ _) lem w (proj2 (list_elem_of_In _ _) Hw)) as H;
      cbn beta in H
  end.

Ltac skip_matrix e :=
  rewrite cellAfter_loop_untouched;
  [| let z := fresh in let k := fresh in let w := fresh in
     let Hk := fresh in let Hw := fresh in
     intros z k w Hk Hw; apply lookup_lt_Some in Hk;
     loop_shape (analysisMatrixCell_shape (buildMaps (detailedScores e)) z.1 z.2 (9 + k));
     apply onCell_false; lia ].

Ltac skip_rows e :=
  rewrite cellAfter_loop_untouched;
  [| let z := fresh in let k := fresh in let w := fresh in
     let Hk := fresh in let Hw := fresh in
     intros z k w Hk Hw; apply lookup_lt_Some in Hk;
     loop_shape (analysisRow_shape (buildMaps (detailedScores e)) z.1 z.2 (5 + k) (5 + k - 4));
     apply onCell_false; lia ].

Ltac skip_headers :=
  rewrite cellAfter_loop_untouched;
  [| let z := fresh in let k := fresh in let w := fresh in
     let Hk := fresh in let Hw := fresh in
     intros z k w Hk Hw; apply lookup_lt_Some in Hk;
     loop_shape (header_shape 4 (9 + k) (blockName z.1 ++ u8 ": " ++ topic z.2));
     apply onCell_false; lia ].

Ltac skip_fixed := rewrite cellAfter_untouched by fixed_untouched.

Ltac skip_block :=
  rewrite (cellAfter_where inHeaderBlock);
  [| reflexivity
   | let w := fresh in let Hw := fresh in
     intros w Hw; unfold inHeaderBlock in Hw;
     apply andb_true_iff in Hw as [Hw ?]; apply andb_true_iff in Hw as [Hw ?];
     apply andb_true_iff in Hw as [? ?];
     repeat match goal with
       | H : (_ <=? _)%nat = true |- _ => apply Nat.leb_le in H
       end; lia ].

(** Far from the three loops over the topics and from the block of labels
    in rows 1 to 4, nothing is assigned. *)
Lemma createAnalysisSheet_far sh a e r c :
  let n := length (flatTopics (getCriteriaForCallType (callType a))) in
  (r = 0 \/ c = 0 \/ 40 < c \/ (5 < r /\ 4 + n < r) \/ (5 < r /\ 8 < c))%nat ->
  getCell (analysisSheet sh a e) r c = getCell sh r c.
Proof.
  intros n Hout.
  pose proof (flatTopics_length (callType a)) as Hle. fold n in Hle.
  open_analysis. fold n.
  skip_fixed. skip_matrix e. skip_rows e. skip_fixed. skip_headers. skip_block.
  reflexivity.
Qed.

Ltac label_cell e :=
  open_analysis;
  skip_fixed; skip_matrix e; skip_rows e; skip_fixed; skip_headers;
  rewrite cellAfter_app;
  rewrite (cellAfter_other_row 4) by (reflexivity || lia);
  unfold str, setValue, setFont, setFill; walk_cells; reflexivity.

(** X18.  The assignments of values, fonts, fills and notes that frame the
    horizontal sheet (borders, alignment and merges are not carried by the
    model): the audit's data in rows 2 and 3, one heading per topic in row 4
    from column 9 on, reading 'block: topic', the heading of column 40 and
    the general observations under it; and nothing assigned outside rows 1
    to 4+n and columns 1 to 40, nor below row 5 to the right of column 8. *)
Theorem analysis_frame (a : AuditInput) (e : EvaluationResult) (i : nat)
    (b : EvaluationBlock) (t : EvaluationTopic) :
  let criteria := getCriteriaForCallType (callType a) in
  let n := length (flatTopics criteria) in
  let H := analysisSheet ∅ a e in
  flatTopics criteria !! i = Some (b, t) ->
  value (getCell H 4 (9 + i)) = Some (VStr (blockName b ++ u8 ": " ++ topic t))
  /\ value (getCell H 4 40) = Some (VStr (u8 "Observaciones Generales"))
  /\ value (getCell H 5 40) = Some (VStr (analysisObservations e))
  /\ value (getCell H 2 2) = Some (VStr (executiveName a))
  /\ value (getCell H 2 5) = Some (VStr (executiveId a))
  /\ value (getCell H 2 7) = Some (VStr (callType a))
  /\ value (getCell H 3 2) = Some (VStr (scoreLine Number_toString e))
  /\ value (getCell H 3 5) = Some (VStr (toFixed1 (percentage e) ++ u8 "%"))
  /\ value (getCell H 3 7) = Some (VStr (orStr (clientId a) (u8 "N/A")))
  /\ (forall r c,
        (r = 0 \/ c = 0 \/ 40 < c \/ (5 < r /\ 4 + n < r) \/ (5 < r /\ 8 < c))%nat ->
        getCell H r c = emptyCell).
Proof.
  intros criteria n H Hi. subst n criteria.
  pose proof (flatTopics_length (callType a)) as Hle.
  pose proof (lookup_lt_Some _ _ _ Hi) as Hlt.
  split.
  { subst H. open_analysis. skip_fixed. skip_matrix e. skip_rows e. skip_fixed.
    rewrite (cellAfter_loop _ 9 _ _ _ i (b, t)); [|
      intros z j w Hw Hon; apply onCell_true in Hon;
      loop_shape (header_shape 4 j (blockName z.1 ++ u8 ": " ++ topic z.2)); lia | done].
    cbn [fst snd]. apply header_value. }
  split.
  { subst H. open_analysis. skip_fixed. skip_matrix e. skip_rows e. apply header_value. }
  split.
  { subst H. open_analysis. unfold str, setValue, setFont. walk_cells. reflexivity. }
  split; [subst H; label_cell e|].
  split; [subst H; label_cell e|].
  split; [subst H; label_cell e|].
  split; [subst H; label_cell e|].
  split; [subst H; label_cell e|].
  split; [subst H; label_cell e|].
  intros r c Hout. subst H. rewrite createAnalysisSheet_far by exact Hout.
  apply getCell_empty.
Qed.

End Frame.

Lemma analysis_frame_witness :
  value (getCell (createAnalysisSheet showQ showQ ∅ inboundAudit monitoreoEvaluation) 3 5)
  = Some (VStr (showQ (percentage monitoreoEvaluation) ++ u8 "%")).
Proof.
  destruct (analysis_frame showQ showQ inboundAudit monitoreoEvaluation 0
              (mkBlock (u8 "Falcon") (topics (default (mkBlock [] []) (head FRAUD_CRITERIA))))
              (default hotlistTopic (head (topics (default (mkBlock [] []) (head FRAUD_CRITERIA))))))
    as (_ & _ & _ & _ & _ & _ & _ & H & _).
  - vm_compute. reflexivity.
  - exact H.
Defined.

(* ===================================================================== *)
(** * Layout and catalog; critical topics                                 *)
(* ===================================================================== *)

(** X19.  The vertical layout is used exactly with the MONITOREO catalog and the
    horizontal one with the FRAUD or the TH CONFIRMA catalog; these have 31
    topics each, so the topic headings of the horizontal sheet fill columns
    9 to 39 and column 40 is left to the general observations. *)
Theorem layout_matches_catalog (Number_toString toFixed1 : Q -> jsstring) (now : Z)
    (a : AuditInput) (e : EvaluationResult) :
  let criteria := getCriteriaForCallType (callType a) in
  let wb := buildWorkbook Number_toString toFixed1 now a e in
  (isMonitoreo a = true ->
     criteria = MONITOREO_CRITERIA /\ length (flatTopics criteria) = 15%nat
     /\ sheetName wb = u8 "Monitoreo"
     /\ sheet wb = createMonitoreoSheet Number_toString ∅ a e)
  /\ (isMonitoreo a = false ->
      (criteria = FRAUD_CRITERIA \/ criteria = TH_CONFIRMA_CRITERIA)
      /\ length (flatTopics criteria) = 31%nat
      /\ sheetName wb = u8 "Analisis"
      /\ sheet wb = createAnalysisSheet Number_toString toFixed1 ∅ a e
      /\ forall c, (9 <= c <= 39)%nat -> is_Some (flatTopics criteria !! (c - 9)%nat)).
Proof.
  intros criteria wb. subst criteria wb.
  unfold buildWorkbook, isMonitoreo, getCriteriaForCallType. split.
  - intros ->. repeat split.
  - intros ->.
    assert (Hlen : length (flatTopics
              (if includes (trim (toUpperCase (callType a))) (u8 "FRAUDE") then FRAUD_CRITERIA
               else if includes (trim (toUpperCase (callType a))) (u8 "TH CONFIRMA")
                       || includes (trim (toUpperCase (callType a))) (u8 "TH_CONFIRMA")
                    then TH_CONFIRMA_CRITERIA else FRAUD_CRITERIA)) = 31%nat).
    { by repeat case_match. }
    split; [repeat case_match; auto|]. split; [exact Hlen|].
    split; [done|]. split; [done|].
    intros c Hc. apply lookup_lt_is_Some. rewrite Hlen. lia.
Qed.

Lemma layout_matches_catalog_witness :
  getCriteriaForCallType (callType monitoreoAudit) = MONITOREO_CRITERIA
  /\ sheetName (buildWorkbook showQ showQ 0 inboundAudit monitoreoEvaluation) = u8 "Analisis".
Proof.
  destruct (layout_matches_catalog showQ showQ 0 monitoreoAudit monitoreoEvaluation)
    as [H1 _].
  destruct (layout_matches_catalog showQ showQ 0 inboundAudit monitoreoEvaluation)
    as [_ H2].
  split.
  - destruct H1 as [H _]; [vm_compute; reflexivity|exact H].
  - destruct H2 as (_ & _ & H & _); [vm_compute; reflexivity|exact H].
Defined.

Lemma monitoreoRow_critical_style m b t k r x :
  criticality t = Critico ->
  let v := tr_value (getTopicResult m (blockName b) (topic t) t) in
  fill (cellAfter (monitoreoRow m b t k r) r 4 x)
  = (if isStr v (u8 "No Cumple") then Some (u8 "FFFF0000")
     else if isStr v (u8 "Cumple") then Some (u8 "FF10B981")
     else if isStr v (u8 "Sin evaluar") then Some (u8 "FFF2F2F2")
     else fill x)
  /\ font (cellAfter (monitoreoRow m b t k r) r 4 x)
     = Some (if isStr v (u8 "No Cumple") then boldColor 10 WHITE_FONT
             else if isStr v (u8 "Cumple") then boldColor 10 WHITE_FONT
             else if isStr v (u8 "Sin evaluar") then italicColor 9 (u8 "FF666666")
             else bold 10).
Proof.
  intros Hc v. subst v. unfold monitoreoRow, cellAfter, greyUnevaluated.
  rewrite (bool_decide_eq_true_2 (criticality t = Critico) Hc).
  repeat case_match; cell_eval; split; reflexivity.
Qed.

Lemma monitoreoRow_plain_skip m b t k r x :
  criticality t = NoCritico -> applies t = false ->
  fill (cellAfter (monitoreoRow m b t k r) r 4 x) = Some (u8 "FFE0E0E0").
Proof.
  intros Hc Ha. unfold monitoreoRow, cellAfter.
  rewrite (bool_decide_eq_false_2 (criticality t = Critico)) by (rewrite Hc; discriminate).
  rewrite Ha. simpl negb. cbv iota.
  repeat case_match; cell_eval; reflexivity.
Qed.

(** X20.  Column D of the vertical sheet for a critical topic: 'Cumple' on green
    when the score found is above zero, 'No Cumple' on red when it is zero
    or below, 'Sin evaluar' on grey when none is found, never a number; a
    critical topic that does not apply shows 'n/a' in bold without the grey
    fill that a non-critical one gets. *)
Theorem monitoreo_critical_cell (Number_toString : Q -> jsstring)
    (a : AuditInput) (e : EvaluationResult) (i : nat)
    (b : EvaluationBlock) (t : EvaluationTopic) (k : nat) :
  let criteria := getCriteriaForCallType (callType a) in
  let m := buildMaps (detailedScores e) in
  let found := findScore m (blockName b) (topic t) in
  let D := getCell (createMonitoreoSheet Number_toString ∅ a e) (4 + i) 4 in
  indexedTopics criteria !! i = Some (b, t, k) ->
  (criticality t = Critico ->
     (applies t = true -> forall sc, found = Some sc -> Qle_bool (score sc) 0 = false ->
        value D = Some (VStr (u8 "Cumple")) /\ fill D = Some (u8 "FF10B981")
        /\ font D = Some (boldColor 10 WHITE_FONT))
     /\ (applies t = true -> forall sc, found = Some sc -> Qle_bool (score sc) 0 = true ->
        value D = Some (VStr (u8 "No Cumple")) /\ fill D = Some (u8 "FFFF0000")
        /\ font D = Some (boldColor 10 WHITE_FONT))
     /\ (applies t = true -> found = None ->
        value D = Some (VStr (u8 "Sin evaluar")) /\ fill D = Some (u8 "FFF2F2F2")
        /\ font D = Some (italicColor 9 (u8 "FF666666")))
     /\ (applies t = false ->
        value D = Some (VStr (u8 "n/a")) /\ fill D = None /\ font D = Some (bold 10)))
  /\ (criticality t = NoCritico -> applies t = false ->
      value D = Some (VStr (u8 "n/a")) /\ fill D = Some (u8 "FFE0E0E0")).
Proof.
  intros criteria m found D Hk.
  assert (HD : D = cellAfter (monitoreoRow m b t k (4 + i)) (4 + i) 4 emptyCell).
  { subst D. rewrite (createMonitoreoSheet_cell _ _ _ _ i b t k) by done.
    by rewrite getCell_empty. }
  assert (Hval : value D = Some (tr_value (getTopicResult m (blockName b) (topic t) t))).
  { rewrite HD. apply monitoreoRow_value. }
  split.
  - intros Hc.
    destruct (monitoreoRow_critical_style m b t k (4 + i) emptyCell Hc) as [Hf Hfont].
    cbv zeta in Hf, Hfont. rewrite <- HD in Hf, Hfont.
    rewrite Hval, Hf, Hfont. unfold getTopicResult. fold found.
    rewrite (bool_decide_eq_true_2 _ Hc).
    split; [|split; [|split]].
    + intros -> sc -> ->. simpl. split; [done|]. split; vm_compute; reflexivity.
    + intros -> sc -> ->. simpl. split; [done|]. split; vm_compute; reflexivity.
    + intros -> ->. simpl. split; [done|]. split; vm_compute; reflexivity.
    + intros ->. simpl. split; [done|]. split; vm_compute; reflexivity.
  - intros Hc Ha. split.
    + rewrite Hval. unfold getTopicResult. by rewrite Ha.
    + rewrite HD. by apply monitoreoRow_plain_skip.
Qed.

Lemma monitoreo_critical_cell_witness :
  value (getCell (createMonitoreoSheet showQ ∅ monitoreoAudit monitoreoEvaluation) (4 + 12) 4)
  = Some (VStr (u8 "Sin evaluar")).
Proof.
  destruct (monitoreo_critical_cell showQ monitoreoAudit monitoreoEvaluation 12
              (default (mkBlock [] []) (last MONITOREO_CRITERIA))
              (default hotlistTopic (head (topics (default (mkBlock [] []) (last MONITOREO_CRITERIA)))))
              0) as [H _].
  - vm_compute. reflexivity.
  - destruct H as (_ & _ & H & _); [vm_compute; reflexivity|].
    destruct H as [H _]; [vm_compute; reflexivity | vm_compute; reflexivity | exact H].
Defined.
